(** * A Commodore PET emulator core: 6502 CPU, bus, VIA and video buffer

    Shallow embedding of [pet-emulator-enhanced.py].  Python integers are
    unbounded, so every integer of the program is a [Z] and each mask the
    source applies ([& 0xFF], [& 0xFFFF]) is written out with [Z.land].
    A [bytearray] is a [list Z]; an access that raises in Python
    ([IndexError], [ValueError]) yields [None]. *)

From Stdlib Require Import ZArith Bool Lia.
From stdpp Require Import base option list gmap strings.

Local Open Scope Z_scope.

(** The record of CPU registers below has fields named [Z], [N] and [I] as
    in the source; [int] keeps a name for the integer type. *)
Abbreviation int := BinNums.Z.

(** ** Python containers *)

Definition is_byte (b : int) : bool := (0 <=? b) && (b <? 256).

(** [a[k]] on a [bytes] or [bytearray]: a negative index counts from the
    end, an index out of range raises. *)
Definition getitem (a : list int) (k : int) : option int :=
  let n := Z.of_nat (length a) in
  let k' := if k <? 0 then k + n else k in
  if (0 <=? k') && (k' <? n) then a !! Z.to_nat k' else None.

(** [a[k] = b] on a [bytearray]: as [getitem] for the index, and the value
    must be in [range(256)]. *)
Definition setitem (a : list int) (k b : int) : option (list int) :=
  let n := Z.of_nat (length a) in
  let k' := if k <? 0 then k + n else k in
  if (0 <=? k') && (k' <? n) && is_byte b
  then Some (<[Z.to_nat k' := b]> a) else None.

(** [d[k] = v] on a [dict] with integer keys, kept in insertion order: an
    existing key keeps its place, a new key goes last. *)
Fixpoint dict_set {V : Type} (d : list (int * V)) (k : int) (v : V)
  : list (int * V) :=
  match d with
  | [] => [(k, v)]
  | (k', v') :: rest =>
      if k' =? k then (k, v) :: rest else (k', v') :: dict_set rest k v
  end.

Fixpoint dict_get {V : Type} (d : list (int * V)) (k : int) : option V :=
  match d with
  | [] => None
  | (k', v') :: rest => if k' =? k then Some v' else dict_get rest k
  end.

(** ** class Memory *)

Module Memory.
Section WithDevices.

(** [W] is the state of whatever the I/O callbacks close over (video
    buffer, VIAs, keyboard).  A write callback updates it; a read callback
    observes it, as the ones the system registers do ([VideoRAM.read] and
    [VIA.read] assign nothing). *)
Context {W : Type}.

Record t : Type := mk {
  ram : list int;
  roms : list (int * (list int * int));
  io_read_handlers : gmap int (W -> int);
  io_write_handlers : gmap int (int -> W -> W)
}.

(** [Memory(size)] *)
Definition init (size : int) : t :=
  {| ram := replicate (Z.to_nat size) 0;
     roms := [];
     io_read_handlers := ∅;
     io_write_handlers := ∅ |}.

(** The loop of [load_rom] that copies the image into RAM; [i] is the
    counter of [enumerate]. *)
Fixpoint copy_to_ram (ram : list int) (addr i : int) (data : list int)
  : option (list int) :=
  match data with
  | [] => Some ram
  | b :: rest =>
      if addr + i <? Z.of_nat (length ram) then
        match setitem ram (addr + i) b with
        | Some ram' => copy_to_ram ram' addr (i + 1) rest
        | None => None
        end
      else copy_to_ram ram addr (i + 1) rest
  end.

Definition load_rom (m : t) (data : list int) (addr : int) : option t :=
  let size := Z.of_nat (length data) in
  (* bytes(data) *)
  if forallb is_byte data then
    let roms' := dict_set (roms m) addr (data, size) in
    match copy_to_ram (ram m) addr 0 data with
    | Some ram' =>
        Some {| ram := ram'; roms := roms';
                io_read_handlers := io_read_handlers m;
                io_write_handlers := io_write_handlers m |}
    | None => None
    end
  else None.

Definition register_io_handler (m : t) (addr : int)
    (read_handler : option (W -> int))
    (write_handler : option (int -> W -> W)) : t :=
  {| ram := ram m; roms := roms m;
     io_read_handlers :=
       match read_handler with
       | Some h => <[addr := h]> (io_read_handlers m)
       | None => io_read_handlers m
       end;
     io_write_handlers :=
       match write_handler with
       | Some h => <[addr := h]> (io_write_handlers m)
       | None => io_write_handlers m
       end |}.

(** The loop [for rom_addr, (data, size) in self.roms.items()] shared by
    [read] and [write]: the first overlay, in registration order, whose
    range holds [addr]. *)
Fixpoint find_rom (l : list (int * (list int * int))) (addr : int)
  : option (int * list int) :=
  match l with
  | [] => None
  | (rom_addr, (data, size)) :: rest =>
      if (rom_addr <=? addr) && (addr <? rom_addr + size)
      then Some (rom_addr, data)
      else find_rom rest addr
  end.

Definition read (m : t) (w : W) (addr : int) : option int :=
  let addr := Z.land addr 0xFFFF in
  match io_read_handlers m !! addr with
  | Some handler => Some (handler w)
  | None =>
      match find_rom (roms m) addr with
      | Some (rom_addr, data) => getitem data (addr - rom_addr)
      | None => getitem (ram m) addr
      end
  end.

Definition write (m : t) (w : W) (addr value : int) : option (t * W) :=
  let addr := Z.land addr 0xFFFF in
  let value := Z.land value 0xFF in
  match io_write_handlers m !! addr with
  | Some handler => Some (m, handler value w)
  | None =>
      match find_rom (roms m) addr with
      | Some _ => Some (m, w)
      | None =>
          match setitem (ram m) addr value with
          | Some ram' =>
              Some ({| ram := ram'; roms := roms m;
                       io_read_handlers := io_read_handlers m;
                       io_write_handlers := io_write_handlers m |}, w)
          | None => None
          end
      end
  end.

Definition read_word (m : t) (w : W) (addr : int) : option int :=
  match read m w addr, read m w (addr + 1) with
  | Some lo, Some hi => Some (Z.lor lo (Z.shiftl hi 8))
  | _, _ => None
  end.

Definition write_word (m : t) (w : W) (addr value : int) : option (t * W) :=
  match write m w addr (Z.land value 0xFF) with
  | Some (m', w') =>
      write m' w' (addr + 1) (Z.land (Z.shiftr value 8) 0xFF)
  | None => None
  end.

(** [addr] lies in the range of a registered overlay. *)
Definition in_rom (m : t) (addr : int) : Prop :=
  ∃ rom_addr data size,
    (rom_addr, (data, size)) ∈ roms m ∧ rom_addr <= addr < rom_addr + size.

(** What the constructor and [load_rom] establish. *)
Definition wf (m : t) : Prop :=
  Z.of_nat (length (ram m)) = 0x10000
  ∧ Forall (λ e, snd (snd e) = Z.of_nat (length (fst (snd e)))) (roms m).

End WithDevices.
Arguments t : clear implicits.
End Memory.

(** ** class VideoRAM *)

Module VideoRAM.

Record t : Type := mk {
  width : int;
  height : int;
  size : int;
  memory : list int;
  dirty : bool
}.

(** [VideoRAM(width, height)]; [bytearray(n)] raises for a negative [n]. *)
Definition init (width height : int) : option t :=
  if width * height <? 0 then None
  else Some {| width := width; height := height; size := width * height;
               memory := replicate (Z.to_nat (width * height)) 0;
               dirty := true |}.

Definition read (v : t) (addr : int) : option int :=
  if (0 <=? addr) && (addr <? size v) then getitem (memory v) addr
  else Some 0.

Definition write (v : t) (addr value : int) : option t :=
  if (0 <=? addr) && (addr <? size v) then
    match getitem (memory v) addr with
    | Some old =>
        if negb (old =? value) then
          match setitem (memory v) addr value with
          | Some memory' =>
              Some {| width := width v; height := height v; size := size v;
                      memory := memory'; dirty := true |}
          | None => None
          end
        else Some v
    | None => None
    end
  else Some v.

(** The loop [for i in range(self.size): self.memory[i] = 0x20]; [n]
    counts the iterations left. *)
Fixpoint fill_spaces (memory : list int) (i : int) (n : nat)
  : option (list int) :=
  match n with
  | O => Some memory
  | S n' =>
      match setitem memory i 0x20 with
      | Some memory' => fill_spaces memory' (i + 1) n'
      | None => None
      end
  end.

Definition clear (v : t) : option t :=
  match fill_spaces (memory v) 0 (Z.to_nat (size v)) with
  | Some memory' =>
      Some {| width := width v; height := height v; size := size v;
              memory := memory'; dirty := true |}
  | None => None
  end.

(** What the constructor establishes: [size] is [width * height] and the
    buffer has exactly [size] cells. *)
Definition wf (v : t) : Prop :=
  size v = width v * height v ∧ Z.of_nat (length (memory v)) = size v.

End VideoRAM.

(** ** class VIA *)

Module VIA.
Section WithPorts.

(** [E] is the state behind the four port callbacks (for VIA 1, the
    keyboard matrix and its selected row). *)
Context {E : Type}.

Record t : Type := mk {
  registers : list int;
  port_a : int;
  port_b : int;
  ddr_a : int;
  ddr_b : int;
  timer1_counter : int;
  timer1_latch : int;
  timer2_counter : int;
  shift_register : int;
  irq_status : int;
  irq_enable : int;
  read_port_a : option (E -> int);
  read_port_b : option (E -> int);
  write_port_a : option (int -> E -> E);
  write_port_b : option (int -> E -> E)
}.

(** [VIA()] *)
Definition init : t :=
  {| registers := replicate 16 0;
     port_a := 0xFF; port_b := 0xFF; ddr_a := 0x00; ddr_b := 0x00;
     timer1_counter := 0; timer1_latch := 0; timer2_counter := 0;
     shift_register := 0; irq_status := 0; irq_enable := 0;
     read_port_a := None; read_port_b := None;
     write_port_a := None; write_port_b := None |}.

(** Assignments to one attribute. *)
Definition set_registers (x : list int) (v : t) : t :=
  mk x (port_a v) (port_b v) (ddr_a v) (ddr_b v) (timer1_counter v)
     (timer1_latch v) (timer2_counter v) (shift_register v) (irq_status v)
     (irq_enable v) (read_port_a v) (read_port_b v) (write_port_a v)
     (write_port_b v).
Definition set_port_a (x : int) (v : t) : t :=
  mk (registers v) x (port_b v) (ddr_a v) (ddr_b v) (timer1_counter v)
     (timer1_latch v) (timer2_counter v) (shift_register v) (irq_status v)
     (irq_enable v) (read_port_a v) (read_port_b v) (write_port_a v)
     (write_port_b v).
Definition set_port_b (x : int) (v : t) : t :=
  mk (registers v) (port_a v) x (ddr_a v) (ddr_b v) (timer1_counter v)
     (timer1_latch v) (timer2_counter v) (shift_register v) (irq_status v)
     (irq_enable v) (read_port_a v) (read_port_b v) (write_port_a v)
     (write_port_b v).
Definition set_ddr_a (x : int) (v : t) : t :=
  mk (registers v) (port_a v) (port_b v) x (ddr_b v) (timer1_counter v)
     (timer1_latch v) (timer2_counter v) (shift_register v) (irq_status v)
     (irq_enable v) (read_port_a v) (read_port_b v) (write_port_a v)
     (write_port_b v).
Definition set_ddr_b (x : int) (v : t) : t :=
  mk (registers v) (port_a v) (port_b v) (ddr_a v) x (timer1_counter v)
     (timer1_latch v) (timer2_counter v) (shift_register v) (irq_status v)
     (irq_enable v) (read_port_a v) (read_port_b v) (write_port_a v)
     (write_port_b v).
Definition set_timer1_counter (x : int) (v : t) : t :=
  mk (registers v) (port_a v) (port_b v) (ddr_a v) (ddr_b v) x
     (timer1_latch v) (timer2_counter v) (shift_register v) (irq_status v)
     (irq_enable v) (read_port_a v) (read_port_b v) (write_port_a v)
     (write_port_b v).
Definition set_timer1_latch (x : int) (v : t) : t :=
  mk (registers v) (port_a v) (port_b v) (ddr_a v) (ddr_b v)
     (timer1_counter v) x (timer2_counter v) (shift_register v)
     (irq_status v) (irq_enable v) (read_port_a v) (read_port_b v)
     (write_port_a v) (write_port_b v).
Definition set_timer2_counter (x : int) (v : t) : t :=
  mk (registers v) (port_a v) (port_b v) (ddr_a v) (ddr_b v)
     (timer1_counter v) (timer1_latch v) x (shift_register v)
     (irq_status v) (irq_enable v) (read_port_a v) (read_port_b v)
     (write_port_a v) (write_port_b v).
Definition set_shift_register (x : int) (v : t) : t :=
  mk (registers v) (port_a v) (port_b v) (ddr_a v) (ddr_b v)
     (timer1_counter v) (timer1_latch v) (timer2_counter v) x
     (irq_status v) (irq_enable v) (read_port_a v) (read_port_b v)
     (write_port_a v) (write_port_b v).
Definition set_irq_status (x : int) (v : t) : t :=
  mk (registers v) (port_a v) (port_b v) (ddr_a v) (ddr_b v)
     (timer1_counter v) (timer1_latch v) (timer2_counter v)
     (shift_register v) x (irq_enable v) (read_port_a v) (read_port_b v)
     (write_port_a v) (write_port_b v).
Definition set_irq_enable (x : int) (v : t) : t :=
  mk (registers v) (port_a v) (port_b v) (ddr_a v) (ddr_b v)
     (timer1_counter v) (timer1_latch v) (timer2_counter v)
     (shift_register v) (irq_status v) x (read_port_a v) (read_port_b v)
     (write_port_a v) (write_port_b v).


Definition set_port_b_handlers (v : t) (read_func : option (E -> int))
    (write_func : option (int -> E -> E)) : t :=
  mk (registers v) (port_a v) (port_b v) (ddr_a v) (ddr_b v)
     (timer1_counter v) (timer1_latch v) (timer2_counter v)
     (shift_register v) (irq_status v) (irq_enable v)
     (read_port_a v) read_func (write_port_a v) write_func.

Definition read (v : t) (e : E) (addr : int) : option int :=
  let reg := Z.land addr 0x0F in
  if reg =? 0x0 then
    let input_value :=
      match read_port_b v with Some f => f e | None => 0xFF end in
    Some (Z.lor (Z.land (port_b v) (ddr_b v))
                (Z.land input_value (Z.lnot (ddr_b v))))
  else if reg =? 0x1 then
    let input_value :=
      match read_port_a v with Some f => f e | None => 0xFF end in
    Some (Z.lor (Z.land (port_a v) (ddr_a v))
                (Z.land input_value (Z.lnot (ddr_a v))))
  else if reg =? 0x2 then Some (ddr_b v)
  else if reg =? 0x3 then Some (ddr_a v)
  else if reg =? 0x4 then Some (Z.land (timer1_counter v) 0xFF)
  else if reg =? 0x5 then Some (Z.land (Z.shiftr (timer1_counter v) 8) 0xFF)
  else if reg =? 0x6 then Some (Z.land (timer1_latch v) 0xFF)
  else if reg =? 0x7 then Some (Z.land (Z.shiftr (timer1_latch v) 8) 0xFF)
  else if reg =? 0x8 then Some (Z.land (timer2_counter v) 0xFF)
  else if reg =? 0x9 then Some (Z.land (Z.shiftr (timer2_counter v) 8) 0xFF)
  else if reg =? 0xA then Some (shift_register v)
  else if reg =? 0xD then Some (irq_status v)
  else if reg =? 0xE then Some (irq_enable v)
  else getitem (registers v) reg.

Definition write (v : t) (e : E) (addr value : int) : option (t * E) :=
  let reg := Z.land addr 0x0F in
  let value := Z.land value 0xFF in
  let '(v1, e1) :=
    if reg =? 0x0 then
      (set_port_b value v,
       match write_port_b v with
       | Some f => f (Z.land value (ddr_b v)) e
       | None => e
       end)
    else if reg =? 0x1 then
      (set_port_a value v,
       match write_port_a v with
       | Some f => f (Z.land value (ddr_a v)) e
       | None => e
       end)
    else if reg =? 0x2 then (set_ddr_b value v, e)
    else if reg =? 0x3 then (set_ddr_a value v, e)
    else if reg =? 0x4 then
      (set_timer1_latch
         (Z.lor (Z.land (timer1_latch v) 0xFF00) value) v, e)
    else if reg =? 0x5 then
      let v' := set_timer1_latch
                  (Z.lor (Z.shiftl value 8) (Z.land (timer1_latch v) 0xFF))
                  v in
      let v'' := set_timer1_counter (timer1_latch v') v' in
      (set_irq_status (Z.land (irq_status v'') (Z.lnot 0x40)) v'', e)
    else if reg =? 0x6 then
      (set_timer1_latch
         (Z.lor (Z.land (timer1_latch v) 0xFF00) value) v, e)
    else if reg =? 0x7 then
      (set_timer1_latch
         (Z.lor (Z.shiftl value 8) (Z.land (timer1_latch v) 0xFF)) v, e)
    else if reg =? 0x8 then
      (set_timer2_counter
         (Z.lor (Z.land (timer2_counter v) 0xFF00) value) v, e)
    else if reg =? 0x9 then
      let v' := set_timer2_counter
                  (Z.lor (Z.shiftl value 8) (Z.land (timer2_counter v) 0xFF))
                  v in
      (set_irq_status (Z.land (irq_status v') (Z.lnot 0x20)) v', e)
    else if reg =? 0xA then (set_shift_register value v, e)
    else if reg =? 0xD then
      (set_irq_status (Z.land (irq_status v) (Z.lnot value)) v, e)
    else if reg =? 0xE then
      if negb (Z.land value 0x80 =? 0) then
        (set_irq_enable (Z.lor (irq_enable v) (Z.land value 0x7F)) v, e)
      else
        (set_irq_enable
           (Z.land (irq_enable v) (Z.lnot (Z.land value 0x7F))) v, e)
    else (v, e) in
  match setitem (registers v1) reg value with
  | Some registers' => Some (set_registers registers' v1, e1)
  | None => None
  end.

(** Returns the updated VIA with the value the method returns. *)
Definition update_timers (v : t) (cycles : int) : t * bool :=
  let irq_triggered := false in
  (* Timer 1 *)
  let '(v, irq_triggered) :=
    if 0 <? timer1_counter v then
      if timer1_counter v <=? cycles then
        let v := set_timer1_counter (timer1_latch v) v in
        let v := set_irq_status (Z.lor (irq_status v) 0x40) v in
        if negb (Z.land (irq_enable v) 0x40 =? 0) then (v, true)
        else (v, irq_triggered)
      else (set_timer1_counter (timer1_counter v - cycles) v, irq_triggered)
    else (v, irq_triggered) in
  (* Timer 2 *)
  let '(v, irq_triggered) :=
    if 0 <? timer2_counter v then
      if timer2_counter v <=? cycles then
        let v := set_timer2_counter 0 v in
        let v := set_irq_status (Z.lor (irq_status v) 0x20) v in
        if negb (Z.land (irq_enable v) 0x20 =? 0) then (v, true)
        else (v, irq_triggered)
      else (set_timer2_counter (timer2_counter v - cycles) v, irq_triggered)
    else (v, irq_triggered) in
  (v, irq_triggered).

End WithPorts.
Arguments t : clear implicits.
End VIA.
(** ** class CPU6502 *)

Module CPU6502.

Record t : Type := mk {
  A : int;
  X : int;
  Y : int;
  PC : int;
  SP : int;
  C : int;
  Z : int;
  I : int;
  D : int;
  B : int;
  V : int;
  N : int;
  cycles : int;
  total_cycles : int;
  irq_pending : bool;
  nmi_pending : bool
}.

(** [CPU6502()] *)
Definition init : t :=
  {| A := 0; X := 0; Y := 0; PC := 0; SP := 0xFF;
     C := 0; Z := 0; I := 0; D := 0; B := 0; V := 0; N := 0;
     cycles := 0; total_cycles := 0;
     irq_pending := false; nmi_pending := false |}.

(** Assignments to one attribute. *)
Definition set_A (x : int) (c : t) : t :=
  mk x (X c) (Y c) (PC c) (SP c) (C c) (Z c) (I c)
     (D c) (B c) (V c) (N c) (cycles c) (total_cycles c) (irq_pending c) (nmi_pending c).
Definition set_X (x : int) (c : t) : t :=
  mk (A c) x (Y c) (PC c) (SP c) (C c) (Z c) (I c)
     (D c) (B c) (V c) (N c) (cycles c) (total_cycles c) (irq_pending c) (nmi_pending c).
Definition set_Y (x : int) (c : t) : t :=
  mk (A c) (X c) x (PC c) (SP c) (C c) (Z c) (I c)
     (D c) (B c) (V c) (N c) (cycles c) (total_cycles c) (irq_pending c) (nmi_pending c).
Definition set_PC (x : int) (c : t) : t :=
  mk (A c) (X c) (Y c) x (SP c) (C c) (Z c) (I c)
     (D c) (B c) (V c) (N c) (cycles c) (total_cycles c) (irq_pending c) (nmi_pending c).
Definition set_SP (x : int) (c : t) : t :=
  mk (A c) (X c) (Y c) (PC c) x (C c) (Z c) (I c)
     (D c) (B c) (V c) (N c) (cycles c) (total_cycles c) (irq_pending c) (nmi_pending c).
Definition set_C (x : int) (c : t) : t :=
  mk (A c) (X c) (Y c) (PC c) (SP c) x (Z c) (I c)
     (D c) (B c) (V c) (N c) (cycles c) (total_cycles c) (irq_pending c) (nmi_pending c).
Definition set_Z (x : int) (c : t) : t :=
  mk (A c) (X c) (Y c) (PC c) (SP c) (C c) x (I c)
     (D c) (B c) (V c) (N c) (cycles c) (total_cycles c) (irq_pending c) (nmi_pending c).
Definition set_I (x : int) (c : t) : t :=
  mk (A c) (X c) (Y c) (PC c) (SP c) (C c) (Z c) x
     (D c) (B c) (V c) (N c) (cycles c) (total_cycles c) (irq_pending c) (nmi_pending c).
Definition set_D (x : int) (c : t) : t :=
  mk (A c) (X c) (Y c) (PC c) (SP c) (C c) (Z c) (I c)
     x (B c) (V c) (N c) (cycles c) (total_cycles c) (irq_pending c) (nmi_pending c).
Definition set_B (x : int) (c : t) : t :=
  mk (A c) (X c) (Y c) (PC c) (SP c) (C c) (Z c) (I c)
     (D c) x (V c) (N c) (cycles c) (total_cycles c) (irq_pending c) (nmi_pending c).
Definition set_V (x : int) (c : t) : t :=
  mk (A c) (X c) (Y c) (PC c) (SP c) (C c) (Z c) (I c)
     (D c) (B c) x (N c) (cycles c) (total_cycles c) (irq_pending c) (nmi_pending c).
Definition set_N (x : int) (c : t) : t :=
  mk (A c) (X c) (Y c) (PC c) (SP c) (C c) (Z c) (I c)
     (D c) (B c) (V c) x (cycles c) (total_cycles c) (irq_pending c) (nmi_pending c).
Definition set_cycles (x : int) (c : t) : t :=
  mk (A c) (X c) (Y c) (PC c) (SP c) (C c) (Z c) (I c)
     (D c) (B c) (V c) (N c) x (total_cycles c) (irq_pending c) (nmi_pending c).
Definition set_total_cycles (x : int) (c : t) : t :=
  mk (A c) (X c) (Y c) (PC c) (SP c) (C c) (Z c) (I c)
     (D c) (B c) (V c) (N c) (cycles c) x (irq_pending c) (nmi_pending c).
Definition set_irq_pending (x : bool) (c : t) : t :=
  mk (A c) (X c) (Y c) (PC c) (SP c) (C c) (Z c) (I c)
     (D c) (B c) (V c) (N c) (cycles c) (total_cycles c) x (nmi_pending c).
Definition set_nmi_pending (x : bool) (c : t) : t :=
  mk (A c) (X c) (Y c) (PC c) (SP c) (C c) (Z c) (I c)
     (D c) (B c) (V c) (N c) (cycles c) (total_cycles c) (irq_pending c) x.

Definition trigger_nmi (c : t) : t := set_nmi_pending true c.

Definition trigger_irq (c : t) : t := set_irq_pending true c.

Definition get_status (c : t) : int :=
  Z.lor (Z.lor (Z.lor (Z.lor (Z.lor (Z.lor
    (C c) (Z.shiftl (Z c) 1)) (Z.shiftl (I c) 2)) (Z.shiftl (D c) 3))
    (Z.shiftl 1 5)) (Z.shiftl (V c) 6)) (Z.shiftl (N c) 7).

Definition set_status (c : t) (value : int) : t :=
  let c := set_C (Z.land value 1) c in
  let c := set_Z (Z.land (Z.shiftr value 1) 1) c in
  let c := set_I (Z.land (Z.shiftr value 2) 1) c in
  let c := set_D (Z.land (Z.shiftr value 3) 1) c in
  let c := set_B (Z.land (Z.shiftr value 4) 1) c in
  let c := set_V (Z.land (Z.shiftr value 6) 1) c in
  set_N (Z.land (Z.shiftr value 7) 1) c.

Definition update_ZN (c : t) (value : int) : t :=
  let c := set_Z (if Z.land value 0xFF =? 0 then 1 else 0) c in
  set_N (if negb (Z.land value 0x80 =? 0) then 1 else 0) c.

Definition _add_with_carry (c : t) (value : int) : t :=
  if negb (D c =? 0) then
    let a_lo := Z.land (A c) 0x0F in
    let a_hi := Z.shiftr (A c) 4 in
    let val_lo := Z.land value 0x0F in
    let val_hi := Z.shiftr value 4 in
    let result_lo := a_lo + val_lo + C c in
    let '(result_lo, carry_lo) :=
      if 9 <? result_lo then (Z.land (result_lo + 6) 0x0F, 1)
      else (result_lo, 0) in
    let result_hi := a_hi + val_hi + carry_lo in
    let '(result_hi, c) :=
      if 9 <? result_hi then (Z.land (result_hi + 6) 0x0F, set_C 1 c)
      else (result_hi, set_C 0 c) in
    let result := Z.lor (Z.shiftl result_hi 4) result_lo in
    let c := set_Z (if Z.land result 0xFF =? 0 then 1 else 0) c in
    let c := set_N (if negb (Z.land result 0x80 =? 0) then 1 else 0) c in
    set_V 0 c
  else
    let temp := A c + value + C c in
    let c' := set_C (if 0xFF <? temp then 1 else 0) c in
    let c' :=
      set_V (if negb (Z.land (Z.land (Z.lnot (Z.lxor (A c') value))
                                     (Z.lxor (A c') temp)) 0x80 =? 0)
             then 1 else 0) c' in
    let c' := set_A (Z.land temp 0xFF) c' in
    update_ZN c' (A c').

Definition _subtract_with_carry (c : t) (value : int) : t :=
  if negb (D c =? 0) then
    let a_lo := Z.land (A c) 0x0F in
    let a_hi := Z.shiftr (A c) 4 in
    let val_lo := Z.land value 0x0F in
    let val_hi := Z.shiftr value 4 in
    let borrow := 1 - C c in
    let result_lo := a_lo - val_lo - borrow in
    let '(result_lo, borrow_lo) :=
      if result_lo <? 0 then (result_lo + 10, 1) else (result_lo, 0) in
    let result_hi := a_hi - val_hi - borrow_lo in
    let '(result_hi, c) :=
      if result_hi <? 0 then (result_hi + 10, set_C 0 c)
      else (result_hi, set_C 1 c) in
    let result := Z.lor (Z.shiftl result_hi 4) result_lo in
    let c := set_Z (if Z.land result 0xFF =? 0 then 1 else 0) c in
    let c := set_N (if negb (Z.land result 0x80 =? 0) then 1 else 0) c in
    set_V 0 c
  else _add_with_carry c (Z.lxor value 0xFF).

Definition _compare (c : t) (reg value : int) : t :=
  let result := Z.land (reg - value) 0xFF in
  let c := set_C (if value <=? reg then 1 else 0) c in
  let c := set_Z (if reg =? value then 1 else 0) c in
  set_N (if negb (Z.land result 0x80 =? 0) then 1 else 0) c.

Section WithDevices.

Context {W : Type}.

(** The CPU together with the bus it is stepped on and the devices behind
    the bus callbacks. *)
Record machine : Type := mkMachine {
  cpu : t;
  memory : Memory.t W;
  devices : W
}.

(** Methods that take [memory] run in a state monad over [machine]; [None]
    is a Python exception raised by the bus. *)
Definition M (R : Type) : Type := machine -> option (R * machine).

Definition ret {R : Type} (x : R) : M R := λ s, Some (x, s).

Definition bind {R S : Type} (m : M R) (f : R -> M S) : M S := λ s,
  match m s with
  | Some (x, s') => f x s'
  | None => None
  end.

Declare Scope M_scope.
Delimit Scope M_scope with M.
Notation "x ← y ; z" := (bind y (λ x, z))
  (at level 20, y at level 100, z at level 200, only parsing) : M_scope.
Notation "' x ← y ; z" := (bind y (λ x, z))
  (at level 20, x pattern, y at level 100, z at level 200, only parsing)
  : M_scope.
Notation "x ;; z" := (bind x (λ _, z))
  (at level 100, z at level 200, only parsing, right associativity) : M_scope.
Local Open Scope M_scope.

(** [self.f] *)
Definition get {R : Type} (f : t -> R) : M R := λ s, Some (f (cpu s), s).

(** An assignment to attributes of [self]. *)
Definition modify (f : t -> t) : M unit :=
  λ s, Some (tt, mkMachine (f (cpu s)) (memory s) (devices s)).

(** [memory.read(addr)] *)
Definition mem_read (addr : int) : M int := λ s,
  match Memory.read (memory s) (devices s) addr with
  | Some value => Some (value, s)
  | None => None
  end.

(** [memory.write(addr, value)] *)
Definition mem_write (addr value : int) : M unit := λ s,
  match Memory.write (memory s) (devices s) addr value with
  | Some (m', w') => Some (tt, mkMachine (cpu s) m' w')
  | None => None
  end.

(** [self.PC += 1] *)
Definition incr_PC : M unit := modify (λ c, set_PC (PC c + 1) c).

(** [self.SP = (self.SP - 1) & 0xFF] *)
Definition decr_SP : M unit := modify (λ c, set_SP (Z.land (SP c - 1) 0xFF) c).

(** [self.SP = (self.SP + 1) & 0xFF] *)
Definition incr_SP : M unit := modify (λ c, set_SP (Z.land (SP c + 1) 0xFF) c).

(** [self.cycles += n] *)
Definition add_cycles (n : int) : M unit :=
  modify (λ c, set_cycles (cycles c + n) c).

(** *** Addressing modes *)

Definition immediate : M int :=
  pc ← get PC; value ← mem_read pc;
  incr_PC;;
  ret value.

Definition zeropage : M int :=
  pc ← get PC; addr ← mem_read pc;
  incr_PC;;
  ret addr.

Definition zeropageX : M int :=
  pc ← get PC; b ← mem_read pc; x ← get X;
  let addr := Z.land (b + x) 0xFF in
  incr_PC;;
  ret addr.

Definition zeropageY : M int :=
  pc ← get PC; b ← mem_read pc; y ← get Y;
  let addr := Z.land (b + y) 0xFF in
  incr_PC;;
  ret addr.

Definition absolute : M int :=
  pc ← get PC; low ← mem_read pc;
  incr_PC;;
  pc ← get PC; high ← mem_read pc;
  incr_PC;;
  ret (Z.lor (Z.shiftl high 8) low).

Definition absoluteX (check_page_cross : bool) : M (int * bool) :=
  pc ← get PC; low ← mem_read pc;
  incr_PC;;
  pc ← get PC; high ← mem_read pc;
  incr_PC;;
  x ← get X;
  let base := Z.lor (Z.shiftl high 8) low in
  let addr := Z.land (base + x) 0xFFFF in
  let page_crossed :=
    if check_page_cross
    then negb (Z.land base 0xFF00 =? Z.land addr 0xFF00) else false in
  ret (addr, page_crossed).

Definition absoluteY (check_page_cross : bool) : M (int * bool) :=
  pc ← get PC; low ← mem_read pc;
  incr_PC;;
  pc ← get PC; high ← mem_read pc;
  incr_PC;;
  y ← get Y;
  let base := Z.lor (Z.shiftl high 8) low in
  let addr := Z.land (base + y) 0xFFFF in
  let page_crossed :=
    if check_page_cross
    then negb (Z.land base 0xFF00 =? Z.land addr 0xFF00) else false in
  ret (addr, page_crossed).

Definition indirect : M int :=
  addr_ptr ← absolute;
  '(low, high) ←
    (if Z.land addr_ptr 0xFF =? 0xFF then
       low ← mem_read addr_ptr;
       high ← mem_read (Z.land addr_ptr 0xFF00);
       ret (low, high)
     else
       low ← mem_read addr_ptr;
       high ← mem_read (addr_ptr + 1);
       ret (low, high));
  ret (Z.lor (Z.shiftl high 8) low).

Definition indirectX : M int :=
  pc ← get PC; b ← mem_read pc; x ← get X;
  let ptr := Z.land (b + x) 0xFF in
  incr_PC;;
  low ← mem_read (Z.land ptr 0xFF);
  high ← mem_read (Z.land (ptr + 1) 0xFF);
  ret (Z.lor (Z.shiftl high 8) low).

Definition indirectY (check_page_cross : bool) : M (int * bool) :=
  pc ← get PC; ptr ← mem_read pc;
  incr_PC;;
  low ← mem_read (Z.land ptr 0xFF);
  high ← mem_read (Z.land (ptr + 1) 0xFF);
  y ← get Y;
  let base := Z.lor (Z.shiftl high 8) low in
  let addr := Z.land (base + y) 0xFFFF in
  let page_crossed :=
    if check_page_cross
    then negb (Z.land base 0xFF00 =? Z.land addr 0xFF00) else false in
  ret (addr, page_crossed).

(** *** Instructions *)

Definition LDA_immediate : M unit :=
  value ← immediate;
  modify (set_A value);;
  modify (λ c, update_ZN c (A c));;
  add_cycles 2.

Definition LDA_zeropage : M unit :=
  addr ← zeropage;
  value ← mem_read addr;
  modify (set_A value);;
  modify (λ c, update_ZN c (A c));;
  add_cycles 3.

Definition LDA_zeropageX : M unit :=
  addr ← zeropageX;
  value ← mem_read addr;
  modify (set_A value);;
  modify (λ c, update_ZN c (A c));;
  add_cycles 4.

Definition LDA_absolute : M unit :=
  addr ← absolute;
  value ← mem_read addr;
  modify (set_A value);;
  modify (λ c, update_ZN c (A c));;
  add_cycles 4.

Definition LDA_absoluteX : M unit :=
  '(addr, page_crossed) ← absoluteX true;
  value ← mem_read addr;
  modify (set_A value);;
  modify (λ c, update_ZN c (A c));;
  add_cycles (4 + Z.b2z page_crossed).

Definition LDA_absoluteY : M unit :=
  '(addr, page_crossed) ← absoluteY true;
  value ← mem_read addr;
  modify (set_A value);;
  modify (λ c, update_ZN c (A c));;
  add_cycles (4 + Z.b2z page_crossed).

Definition LDA_indirectX : M unit :=
  addr ← indirectX;
  value ← mem_read addr;
  modify (set_A value);;
  modify (λ c, update_ZN c (A c));;
  add_cycles 6.

Definition LDA_indirectY : M unit :=
  '(addr, page_crossed) ← indirectY true;
  value ← mem_read addr;
  modify (set_A value);;
  modify (λ c, update_ZN c (A c));;
  add_cycles (5 + Z.b2z page_crossed).

Definition LDX_immediate : M unit :=
  value ← immediate;
  modify (set_X value);;
  modify (λ c, update_ZN c (X c));;
  add_cycles 2.

Definition LDX_zeropage : M unit :=
  addr ← zeropage;
  value ← mem_read addr;
  modify (set_X value);;
  modify (λ c, update_ZN c (X c));;
  add_cycles 3.

Definition LDX_zeropageY : M unit :=
  addr ← zeropageY;
  value ← mem_read addr;
  modify (set_X value);;
  modify (λ c, update_ZN c (X c));;
  add_cycles 4.

Definition LDX_absolute : M unit :=
  addr ← absolute;
  value ← mem_read addr;
  modify (set_X value);;
  modify (λ c, update_ZN c (X c));;
  add_cycles 4.

Definition LDX_absoluteY : M unit :=
  '(addr, page_crossed) ← absoluteY true;
  value ← mem_read addr;
  modify (set_X value);;
  modify (λ c, update_ZN c (X c));;
  add_cycles (4 + Z.b2z page_crossed).

Definition LDY_immediate : M unit :=
  value ← immediate;
  modify (set_Y value);;
  modify (λ c, update_ZN c (Y c));;
  add_cycles 2.

Definition LDY_zeropage : M unit :=
  addr ← zeropage;
  value ← mem_read addr;
  modify (set_Y value);;
  modify (λ c, update_ZN c (Y c));;
  add_cycles 3.

Definition LDY_zeropageX : M unit :=
  addr ← zeropageX;
  value ← mem_read addr;
  modify (set_Y value);;
  modify (λ c, update_ZN c (Y c));;
  add_cycles 4.

Definition LDY_absolute : M unit :=
  addr ← absolute;
  value ← mem_read addr;
  modify (set_Y value);;
  modify (λ c, update_ZN c (Y c));;
  add_cycles 4.

Definition LDY_absoluteX : M unit :=
  '(addr, page_crossed) ← absoluteX true;
  value ← mem_read addr;
  modify (set_Y value);;
  modify (λ c, update_ZN c (Y c));;
  add_cycles (4 + Z.b2z page_crossed).

Definition STA_zeropage : M unit :=
  addr ← zeropage;
  r ← get A; mem_write addr r;;
  add_cycles 3.

Definition STA_zeropageX : M unit :=
  addr ← zeropageX;
  r ← get A; mem_write addr r;;
  add_cycles 4.

Definition STA_absolute : M unit :=
  addr ← absolute;
  r ← get A; mem_write addr r;;
  add_cycles 4.

Definition STA_absoluteX : M unit :=
  '(addr, _) ← absoluteX false;
  r ← get A; mem_write addr r;;
  add_cycles 5.

Definition STA_absoluteY : M unit :=
  '(addr, _) ← absoluteY false;
  r ← get A; mem_write addr r;;
  add_cycles 5.

Definition STA_indirectX : M unit :=
  addr ← indirectX;
  r ← get A; mem_write addr r;;
  add_cycles 6.

Definition STA_indirectY : M unit :=
  '(addr, _) ← indirectY false;
  r ← get A; mem_write addr r;;
  add_cycles 6.

Definition STX_zeropage : M unit :=
  addr ← zeropage;
  r ← get X; mem_write addr r;;
  add_cycles 3.

Definition STX_zeropageY : M unit :=
  addr ← zeropageY;
  r ← get X; mem_write addr r;;
  add_cycles 4.

Definition STX_absolute : M unit :=
  addr ← absolute;
  r ← get X; mem_write addr r;;
  add_cycles 4.

Definition STY_zeropage : M unit :=
  addr ← zeropage;
  r ← get Y; mem_write addr r;;
  add_cycles 3.

Definition STY_zeropageX : M unit :=
  addr ← zeropageX;
  r ← get Y; mem_write addr r;;
  add_cycles 4.

Definition STY_absolute : M unit :=
  addr ← absolute;
  r ← get Y; mem_write addr r;;
  add_cycles 4.

Definition TAX : M unit :=
  modify (λ c, set_X (A c) c);;
  modify (λ c, update_ZN c (X c));;
  add_cycles 2.

Definition TXA : M unit :=
  modify (λ c, set_A (X c) c);;
  modify (λ c, update_ZN c (A c));;
  add_cycles 2.

Definition TAY : M unit :=
  modify (λ c, set_Y (A c) c);;
  modify (λ c, update_ZN c (Y c));;
  add_cycles 2.

Definition TYA : M unit :=
  modify (λ c, set_A (Y c) c);;
  modify (λ c, update_ZN c (A c));;
  add_cycles 2.

Definition TSX : M unit :=
  modify (λ c, set_X (SP c) c);;
  modify (λ c, update_ZN c (X c));;
  add_cycles 2.

Definition TXS : M unit :=
  modify (λ c, set_SP (X c) c);;
  add_cycles 2.

Definition PHA : M unit :=
  sp ← get SP; a ← get A; mem_write (0x100 + sp) a;;
  decr_SP;;
  add_cycles 3.

Definition PLA : M unit :=
  incr_SP;;
  sp ← get SP; value ← mem_read (0x100 + sp);
  modify (set_A value);;
  modify (λ c, update_ZN c (A c));;
  add_cycles 4.

Definition PHP : M unit :=
  status ← get (λ c, Z.lor (get_status c) 0x10);
  sp ← get SP; mem_write (0x100 + sp) status;;
  decr_SP;;
  add_cycles 3.

Definition PLP : M unit :=
  incr_SP;;
  sp ← get SP; status ← mem_read (0x100 + sp);
  modify (λ c, set_status c status);;
  add_cycles 4.

Definition AND_immediate : M unit :=
  value ← immediate;
  modify (λ c, set_A (Z.land (A c) value) c);;
  modify (λ c, update_ZN c (A c));;
  add_cycles 2.

Definition AND_zeropage : M unit :=
  addr ← zeropage;
  value ← mem_read addr;
  modify (λ c, set_A (Z.land (A c) value) c);;
  modify (λ c, update_ZN c (A c));;
  add_cycles 3.

Definition AND_zeropageX : M unit :=
  addr ← zeropageX;
  value ← mem_read addr;
  modify (λ c, set_A (Z.land (A c) value) c);;
  modify (λ c, update_ZN c (A c));;
  add_cycles 4.

Definition AND_absolute : M unit :=
  addr ← absolute;
  value ← mem_read addr;
  modify (λ c, set_A (Z.land (A c) value) c);;
  modify (λ c, update_ZN c (A c));;
  add_cycles 4.

Definition AND_absoluteX : M unit :=
  '(addr, page_crossed) ← absoluteX true;
  value ← mem_read addr;
  modify (λ c, set_A (Z.land (A c) value) c);;
  modify (λ c, update_ZN c (A c));;
  add_cycles (4 + Z.b2z page_crossed).

Definition AND_absoluteY : M unit :=
  '(addr, page_crossed) ← absoluteY true;
  value ← mem_read addr;
  modify (λ c, set_A (Z.land (A c) value) c);;
  modify (λ c, update_ZN c (A c));;
  add_cycles (4 + Z.b2z page_crossed).

Definition AND_indirectX : M unit :=
  addr ← indirectX;
  value ← mem_read addr;
  modify (λ c, set_A (Z.land (A c) value) c);;
  modify (λ c, update_ZN c (A c));;
  add_cycles 6.

Definition AND_indirectY : M unit :=
  '(addr, page_crossed) ← indirectY true;
  value ← mem_read addr;
  modify (λ c, set_A (Z.land (A c) value) c);;
  modify (λ c, update_ZN c (A c));;
  add_cycles (5 + Z.b2z page_crossed).

Definition ORA_immediate : M unit :=
  value ← immediate;
  modify (λ c, set_A (Z.lor (A c) value) c);;
  modify (λ c, update_ZN c (A c));;
  add_cycles 2.

Definition ORA_zeropage : M unit :=
  addr ← zeropage;
  value ← mem_read addr;
  modify (λ c, set_A (Z.lor (A c) value) c);;
  modify (λ c, update_ZN c (A c));;
  add_cycles 3.

Definition ORA_zeropageX : M unit :=
  addr ← zeropageX;
  value ← mem_read addr;
  modify (λ c, set_A (Z.lor (A c) value) c);;
  modify (λ c, update_ZN c (A c));;
  add_cycles 4.

Definition ORA_absolute : M unit :=
  addr ← absolute;
  value ← mem_read addr;
  modify (λ c, set_A (Z.lor (A c) value) c);;
  modify (λ c, update_ZN c (A c));;
  add_cycles 4.

Definition ORA_absoluteX : M unit :=
  '(addr, page_crossed) ← absoluteX true;
  value ← mem_read addr;
  modify (λ c, set_A (Z.lor (A c) value) c);;
  modify (λ c, update_ZN c (A c));;
  add_cycles (4 + Z.b2z page_crossed).

Definition ORA_absoluteY : M unit :=
  '(addr, page_crossed) ← absoluteY true;
  value ← mem_read addr;
  modify (λ c, set_A (Z.lor (A c) value) c);;
  modify (λ c, update_ZN c (A c));;
  add_cycles (4 + Z.b2z page_crossed).

Definition ORA_indirectX : M unit :=
  addr ← indirectX;
  value ← mem_read addr;
  modify (λ c, set_A (Z.lor (A c) value) c);;
  modify (λ c, update_ZN c (A c));;
  add_cycles 6.

Definition ORA_indirectY : M unit :=
  '(addr, page_crossed) ← indirectY true;
  value ← mem_read addr;
  modify (λ c, set_A (Z.lor (A c) value) c);;
  modify (λ c, update_ZN c (A c));;
  add_cycles (5 + Z.b2z page_crossed).

Definition EOR_immediate : M unit :=
  value ← immediate;
  modify (λ c, set_A (Z.lxor (A c) value) c);;
  modify (λ c, update_ZN c (A c));;
  add_cycles 2.

Definition EOR_zeropage : M unit :=
  addr ← zeropage;
  value ← mem_read addr;
  modify (λ c, set_A (Z.lxor (A c) value) c);;
  modify (λ c, update_ZN c (A c));;
  add_cycles 3.

Definition EOR_zeropageX : M unit :=
  addr ← zeropageX;
  value ← mem_read addr;
  modify (λ c, set_A (Z.lxor (A c) value) c);;
  modify (λ c, update_ZN c (A c));;
  add_cycles 4.

Definition EOR_absolute : M unit :=
  addr ← absolute;
  value ← mem_read addr;
  modify (λ c, set_A (Z.lxor (A c) value) c);;
  modify (λ c, update_ZN c (A c));;
  add_cycles 4.

Definition EOR_absoluteX : M unit :=
  '(addr, page_crossed) ← absoluteX true;
  value ← mem_read addr;
  modify (λ c, set_A (Z.lxor (A c) value) c);;
  modify (λ c, update_ZN c (A c));;
  add_cycles (4 + Z.b2z page_crossed).

Definition EOR_absoluteY : M unit :=
  '(addr, page_crossed) ← absoluteY true;
  value ← mem_read addr;
  modify (λ c, set_A (Z.lxor (A c) value) c);;
  modify (λ c, update_ZN c (A c));;
  add_cycles (4 + Z.b2z page_crossed).

Definition EOR_indirectX : M unit :=
  addr ← indirectX;
  value ← mem_read addr;
  modify (λ c, set_A (Z.lxor (A c) value) c);;
  modify (λ c, update_ZN c (A c));;
  add_cycles 6.

Definition EOR_indirectY : M unit :=
  '(addr, page_crossed) ← indirectY true;
  value ← mem_read addr;
  modify (λ c, set_A (Z.lxor (A c) value) c);;
  modify (λ c, update_ZN c (A c));;
  add_cycles (5 + Z.b2z page_crossed).

Definition BIT_zeropage : M unit :=
  addr ← zeropage;
  value ← mem_read addr;
  modify (λ c, set_Z (if Z.land (A c) value =? 0 then 1 else 0) c);;
  modify (set_V (Z.land (Z.shiftr value 6) 1));;
  modify (set_N (Z.land (Z.shiftr value 7) 1));;
  add_cycles 3.

Definition BIT_absolute : M unit :=
  addr ← absolute;
  value ← mem_read addr;
  modify (λ c, set_Z (if Z.land (A c) value =? 0 then 1 else 0) c);;
  modify (set_V (Z.land (Z.shiftr value 6) 1));;
  modify (set_N (Z.land (Z.shiftr value 7) 1));;
  add_cycles 4.

Definition ADC_immediate : M unit :=
  value ← immediate;
  modify (λ c, _add_with_carry c value);;
  add_cycles 2.

Definition ADC_zeropage : M unit :=
  addr ← zeropage;
  value ← mem_read addr;
  modify (λ c, _add_with_carry c value);;
  add_cycles 3.

Definition ADC_zeropageX : M unit :=
  addr ← zeropageX;
  value ← mem_read addr;
  modify (λ c, _add_with_carry c value);;
  add_cycles 4.

Definition ADC_absolute : M unit :=
  addr ← absolute;
  value ← mem_read addr;
  modify (λ c, _add_with_carry c value);;
  add_cycles 4.

Definition ADC_absoluteX : M unit :=
  '(addr, page_crossed) ← absoluteX true;
  value ← mem_read addr;
  modify (λ c, _add_with_carry c value);;
  add_cycles (4 + Z.b2z page_crossed).

Definition ADC_absoluteY : M unit :=
  '(addr, page_crossed) ← absoluteY true;
  value ← mem_read addr;
  modify (λ c, _add_with_carry c value);;
  add_cycles (4 + Z.b2z page_crossed).

Definition ADC_indirectX : M unit :=
  addr ← indirectX;
  value ← mem_read addr;
  modify (λ c, _add_with_carry c value);;
  add_cycles 6.

Definition ADC_indirectY : M unit :=
  '(addr, page_crossed) ← indirectY true;
  value ← mem_read addr;
  modify (λ c, _add_with_carry c value);;
  add_cycles (5 + Z.b2z page_crossed).

Definition SBC_immediate : M unit :=
  value ← immediate;
  modify (λ c, _subtract_with_carry c value);;
  add_cycles 2.

Definition SBC_zeropage : M unit :=
  addr ← zeropage;
  value ← mem_read addr;
  modify (λ c, _subtract_with_carry c value);;
  add_cycles 3.

Definition SBC_zeropageX : M unit :=
  addr ← zeropageX;
  value ← mem_read addr;
  modify (λ c, _subtract_with_carry c value);;
  add_cycles 4.

Definition SBC_absolute : M unit :=
  addr ← absolute;
  value ← mem_read addr;
  modify (λ c, _subtract_with_carry c value);;
  add_cycles 4.

Definition SBC_absoluteX : M unit :=
  '(addr, page_crossed) ← absoluteX true;
  value ← mem_read addr;
  modify (λ c, _subtract_with_carry c value);;
  add_cycles (4 + Z.b2z page_crossed).

Definition SBC_absoluteY : M unit :=
  '(addr, page_crossed) ← absoluteY true;
  value ← mem_read addr;
  modify (λ c, _subtract_with_carry c value);;
  add_cycles (4 + Z.b2z page_crossed).

Definition SBC_indirectX : M unit :=
  addr ← indirectX;
  value ← mem_read addr;
  modify (λ c, _subtract_with_carry c value);;
  add_cycles 6.

Definition SBC_indirectY : M unit :=
  '(addr, page_crossed) ← indirectY true;
  value ← mem_read addr;
  modify (λ c, _subtract_with_carry c value);;
  add_cycles (5 + Z.b2z page_crossed).

Definition CMP_immediate : M unit :=
  value ← immediate;
  modify (λ c, _compare c (A c) value);;
  add_cycles 2.

Definition CMP_zeropage : M unit :=
  addr ← zeropage;
  value ← mem_read addr;
  modify (λ c, _compare c (A c) value);;
  add_cycles 3.

Definition CMP_zeropageX : M unit :=
  addr ← zeropageX;
  value ← mem_read addr;
  modify (λ c, _compare c (A c) value);;
  add_cycles 4.

Definition CMP_absolute : M unit :=
  addr ← absolute;
  value ← mem_read addr;
  modify (λ c, _compare c (A c) value);;
  add_cycles 4.

Definition CMP_absoluteX : M unit :=
  '(addr, page_crossed) ← absoluteX true;
  value ← mem_read addr;
  modify (λ c, _compare c (A c) value);;
  add_cycles (4 + Z.b2z page_crossed).

Definition CMP_absoluteY : M unit :=
  '(addr, page_crossed) ← absoluteY true;
  value ← mem_read addr;
  modify (λ c, _compare c (A c) value);;
  add_cycles (4 + Z.b2z page_crossed).

Definition CMP_indirectX : M unit :=
  addr ← indirectX;
  value ← mem_read addr;
  modify (λ c, _compare c (A c) value);;
  add_cycles 6.

Definition CMP_indirectY : M unit :=
  '(addr, page_crossed) ← indirectY true;
  value ← mem_read addr;
  modify (λ c, _compare c (A c) value);;
  add_cycles (5 + Z.b2z page_crossed).

Definition CPX_immediate : M unit :=
  value ← immediate;
  modify (λ c, _compare c (X c) value);;
  add_cycles 2.

Definition CPX_zeropage : M unit :=
  addr ← zeropage;
  value ← mem_read addr;
  modify (λ c, _compare c (X c) value);;
  add_cycles 3.

Definition CPX_absolute : M unit :=
  addr ← absolute;
  value ← mem_read addr;
  modify (λ c, _compare c (X c) value);;
  add_cycles 4.

Definition CPY_immediate : M unit :=
  value ← immediate;
  modify (λ c, _compare c (Y c) value);;
  add_cycles 2.

Definition CPY_zeropage : M unit :=
  addr ← zeropage;
  value ← mem_read addr;
  modify (λ c, _compare c (Y c) value);;
  add_cycles 3.

Definition CPY_absolute : M unit :=
  addr ← absolute;
  value ← mem_read addr;
  modify (λ c, _compare c (Y c) value);;
  add_cycles 4.

Definition INC_zeropage : M unit :=
  addr ← zeropage;
  old ← mem_read addr;
  let value := Z.land (old + 1) 0xFF in
  mem_write addr value;;
  modify (λ c, update_ZN c value);;
  add_cycles 5.

Definition INC_zeropageX : M unit :=
  addr ← zeropageX;
  old ← mem_read addr;
  let value := Z.land (old + 1) 0xFF in
  mem_write addr value;;
  modify (λ c, update_ZN c value);;
  add_cycles 6.

Definition INC_absolute : M unit :=
  addr ← absolute;
  old ← mem_read addr;
  let value := Z.land (old + 1) 0xFF in
  mem_write addr value;;
  modify (λ c, update_ZN c value);;
  add_cycles 6.

Definition INC_absoluteX : M unit :=
  '(addr, _) ← absoluteX false;
  old ← mem_read addr;
  let value := Z.land (old + 1) 0xFF in
  mem_write addr value;;
  modify (λ c, update_ZN c value);;
  add_cycles 7.

Definition INX : M unit :=
  modify (λ c, set_X (Z.land (X c + 1) 0xFF) c);;
  modify (λ c, update_ZN c (X c));;
  add_cycles 2.

Definition INY : M unit :=
  modify (λ c, set_Y (Z.land (Y c + 1) 0xFF) c);;
  modify (λ c, update_ZN c (Y c));;
  add_cycles 2.

Definition DEC_zeropage : M unit :=
  addr ← zeropage;
  old ← mem_read addr;
  let value := Z.land (old - 1) 0xFF in
  mem_write addr value;;
  modify (λ c, update_ZN c value);;
  add_cycles 5.

Definition DEC_zeropageX : M unit :=
  addr ← zeropageX;
  old ← mem_read addr;
  let value := Z.land (old - 1) 0xFF in
  mem_write addr value;;
  modify (λ c, update_ZN c value);;
  add_cycles 6.

Definition DEC_absolute : M unit :=
  addr ← absolute;
  old ← mem_read addr;
  let value := Z.land (old - 1) 0xFF in
  mem_write addr value;;
  modify (λ c, update_ZN c value);;
  add_cycles 6.

Definition DEC_absoluteX : M unit :=
  '(addr, _) ← absoluteX false;
  old ← mem_read addr;
  let value := Z.land (old - 1) 0xFF in
  mem_write addr value;;
  modify (λ c, update_ZN c value);;
  add_cycles 7.

Definition DEX : M unit :=
  modify (λ c, set_X (Z.land (X c - 1) 0xFF) c);;
  modify (λ c, update_ZN c (X c));;
  add_cycles 2.

Definition DEY : M unit :=
  modify (λ c, set_Y (Z.land (Y c - 1) 0xFF) c);;
  modify (λ c, update_ZN c (Y c));;
  add_cycles 2.

Definition ASL_accumulator : M unit :=
  modify (λ c, set_C (Z.land (Z.shiftr (A c) 7) 1) c);;
  modify (λ c, set_A (Z.land (Z.shiftl (A c) 1) 0xFF) c);;
  modify (λ c, update_ZN c (A c));;
  add_cycles 2.

Definition ASL_zeropage : M unit :=
  addr ← zeropage;
  value ← mem_read addr;
  modify (set_C (Z.land (Z.shiftr value 7) 1));;
  let value := Z.land (Z.shiftl value 1) 0xFF in
  mem_write addr value;;
  modify (λ c, update_ZN c value);;
  add_cycles 5.

Definition ASL_zeropageX : M unit :=
  addr ← zeropageX;
  value ← mem_read addr;
  modify (set_C (Z.land (Z.shiftr value 7) 1));;
  let value := Z.land (Z.shiftl value 1) 0xFF in
  mem_write addr value;;
  modify (λ c, update_ZN c value);;
  add_cycles 6.

Definition ASL_absolute : M unit :=
  addr ← absolute;
  value ← mem_read addr;
  modify (set_C (Z.land (Z.shiftr value 7) 1));;
  let value := Z.land (Z.shiftl value 1) 0xFF in
  mem_write addr value;;
  modify (λ c, update_ZN c value);;
  add_cycles 6.

Definition ASL_absoluteX : M unit :=
  '(addr, _) ← absoluteX false;
  value ← mem_read addr;
  modify (set_C (Z.land (Z.shiftr value 7) 1));;
  let value := Z.land (Z.shiftl value 1) 0xFF in
  mem_write addr value;;
  modify (λ c, update_ZN c value);;
  add_cycles 7.

Definition LSR_accumulator : M unit :=
  modify (λ c, set_C (Z.land (A c) 1) c);;
  modify (λ c, set_A (Z.shiftr (A c) 1) c);;
  modify (λ c, update_ZN c (A c));;
  add_cycles 2.

Definition LSR_zeropage : M unit :=
  addr ← zeropage;
  value ← mem_read addr;
  modify (set_C (Z.land value 1));;
  let value := Z.shiftr value 1 in
  mem_write addr value;;
  modify (λ c, update_ZN c value);;
  add_cycles 5.

Definition LSR_zeropageX : M unit :=
  addr ← zeropageX;
  value ← mem_read addr;
  modify (set_C (Z.land value 1));;
  let value := Z.shiftr value 1 in
  mem_write addr value;;
  modify (λ c, update_ZN c value);;
  add_cycles 6.

Definition LSR_absolute : M unit :=
  addr ← absolute;
  value ← mem_read addr;
  modify (set_C (Z.land value 1));;
  let value := Z.shiftr value 1 in
  mem_write addr value;;
  modify (λ c, update_ZN c value);;
  add_cycles 6.

Definition LSR_absoluteX : M unit :=
  '(addr, _) ← absoluteX false;
  value ← mem_read addr;
  modify (set_C (Z.land value 1));;
  let value := Z.shiftr value 1 in
  mem_write addr value;;
  modify (λ c, update_ZN c value);;
  add_cycles 7.

Definition ROL_accumulator : M unit :=
  old_carry ← get C;
  modify (λ c, set_C (Z.land (Z.shiftr (A c) 7) 1) c);;
  modify (λ c, set_A (Z.land (Z.lor (Z.shiftl (A c) 1) old_carry) 0xFF) c);;
  modify (λ c, update_ZN c (A c));;
  add_cycles 2.

Definition ROL_zeropage : M unit :=
  addr ← zeropage;
  value ← mem_read addr;
  old_carry ← get C;
  modify (set_C (Z.land (Z.shiftr value 7) 1));;
  let value := Z.land (Z.lor (Z.shiftl value 1) old_carry) 0xFF in
  mem_write addr value;;
  modify (λ c, update_ZN c value);;
  add_cycles 5.

Definition ROL_zeropageX : M unit :=
  addr ← zeropageX;
  value ← mem_read addr;
  old_carry ← get C;
  modify (set_C (Z.land (Z.shiftr value 7) 1));;
  let value := Z.land (Z.lor (Z.shiftl value 1) old_carry) 0xFF in
  mem_write addr value;;
  modify (λ c, update_ZN c value);;
  add_cycles 6.

Definition ROL_absolute : M unit :=
  addr ← absolute;
  value ← mem_read addr;
  old_carry ← get C;
  modify (set_C (Z.land (Z.shiftr value 7) 1));;
  let value := Z.land (Z.lor (Z.shiftl value 1) old_carry) 0xFF in
  mem_write addr value;;
  modify (λ c, update_ZN c value);;
  add_cycles 6.

Definition ROL_absoluteX : M unit :=
  '(addr, _) ← absoluteX false;
  value ← mem_read addr;
  old_carry ← get C;
  modify (set_C (Z.land (Z.shiftr value 7) 1));;
  let value := Z.land (Z.lor (Z.shiftl value 1) old_carry) 0xFF in
  mem_write addr value;;
  modify (λ c, update_ZN c value);;
  add_cycles 7.

Definition ROR_accumulator : M unit :=
  old_carry ← get C;
  modify (λ c, set_C (Z.land (A c) 1) c);;
  modify (λ c, set_A (Z.lor (Z.shiftr (A c) 1) (Z.shiftl old_carry 7)) c);;
  modify (λ c, update_ZN c (A c));;
  add_cycles 2.

Definition ROR_zeropage : M unit :=
  addr ← zeropage;
  value ← mem_read addr;
  old_carry ← get C;
  modify (set_C (Z.land value 1));;
  let value := Z.lor (Z.shiftr value 1) (Z.shiftl old_carry 7) in
  mem_write addr value;;
  modify (λ c, update_ZN c value);;
  add_cycles 5.

Definition ROR_zeropageX : M unit :=
  addr ← zeropageX;
  value ← mem_read addr;
  old_carry ← get C;
  modify (set_C (Z.land value 1));;
  let value := Z.lor (Z.shiftr value 1) (Z.shiftl old_carry 7) in
  mem_write addr value;;
  modify (λ c, update_ZN c value);;
  add_cycles 6.

Definition ROR_absolute : M unit :=
  addr ← absolute;
  value ← mem_read addr;
  old_carry ← get C;
  modify (set_C (Z.land value 1));;
  let value := Z.lor (Z.shiftr value 1) (Z.shiftl old_carry 7) in
  mem_write addr value;;
  modify (λ c, update_ZN c value);;
  add_cycles 6.

Definition ROR_absoluteX : M unit :=
  '(addr, _) ← absoluteX false;
  value ← mem_read addr;
  old_carry ← get C;
  modify (set_C (Z.land value 1));;
  let value := Z.lor (Z.shiftr value 1) (Z.shiftl old_carry 7) in
  mem_write addr value;;
  modify (λ c, update_ZN c value);;
  add_cycles 7.

Definition JMP_absolute : M unit :=
  addr ← absolute;
  modify (set_PC addr);;
  add_cycles 3.

Definition JMP_indirect : M unit :=
  addr ← indirect;
  modify (set_PC addr);;
  add_cycles 5.

Definition JSR_absolute : M unit :=
  addr ← absolute;
  pc ← get PC;
  let return_addr := pc - 1 in
  sp ← get SP; mem_write (0x100 + sp) (Z.land (Z.shiftr return_addr 8) 0xFF);;
  decr_SP;;
  sp ← get SP; mem_write (0x100 + sp) (Z.land return_addr 0xFF);;
  decr_SP;;
  modify (set_PC addr);;
  add_cycles 6.

Definition RTS : M unit :=
  incr_SP;;
  sp ← get SP; low ← mem_read (0x100 + sp);
  incr_SP;;
  sp ← get SP; high ← mem_read (0x100 + sp);
  modify (set_PC (Z.lor (Z.shiftl high 8) low + 1));;
  add_cycles 6.

Definition _branch (condition : bool) : M unit :=
  offset ← immediate;
  (if condition then
     let offset :=
       if negb (Z.land offset 0x80 =? 0) then - (256 - offset) else offset in
     old_pc ← get PC;
     modify (λ c, set_PC (Z.land (PC c + offset) 0xFFFF) c);;
     add_cycles 1;;
     pc ← get PC;
     if negb (Z.land old_pc 0xFF00 =? Z.land pc 0xFF00) then add_cycles 1
     else ret tt
   else ret tt);;
  add_cycles 2.

Definition BCC : M unit :=
  condition ← get (λ c, C c =? 0);
  _branch condition.

Definition BCS : M unit :=
  condition ← get (λ c, C c =? 1);
  _branch condition.

Definition BEQ : M unit :=
  condition ← get (λ c, Z c =? 1);
  _branch condition.

Definition BMI : M unit :=
  condition ← get (λ c, N c =? 1);
  _branch condition.

Definition BNE : M unit :=
  condition ← get (λ c, Z c =? 0);
  _branch condition.

Definition BPL : M unit :=
  condition ← get (λ c, N c =? 0);
  _branch condition.

Definition BVC : M unit :=
  condition ← get (λ c, V c =? 0);
  _branch condition.

Definition BVS : M unit :=
  condition ← get (λ c, V c =? 1);
  _branch condition.

Definition CLC : M unit :=
  modify (set_C 0);;
  add_cycles 2.

Definition SEC : M unit :=
  modify (set_C 1);;
  add_cycles 2.

Definition CLI : M unit :=
  modify (set_I 0);;
  add_cycles 2.

Definition SEI : M unit :=
  modify (set_I 1);;
  add_cycles 2.

Definition CLV : M unit :=
  modify (set_V 0);;
  add_cycles 2.

Definition CLD : M unit :=
  modify (set_D 0);;
  add_cycles 2.

Definition SED : M unit :=
  modify (set_D 1);;
  add_cycles 2.

Definition BRK : M unit :=
  sp ← get SP; pc ← get PC;
  mem_write (0x100 + sp) (Z.land (Z.shiftr (pc + 1) 8) 0xFF);;
  decr_SP;;
  sp ← get SP; pc ← get PC;
  mem_write (0x100 + sp) (Z.land (pc + 1) 0xFF);;
  decr_SP;;
  sp ← get SP; status ← get get_status;
  mem_write (0x100 + sp) (Z.lor status 0x10);;
  decr_SP;;
  modify (set_I 1);;
  low ← mem_read 0xFFFE; high ← mem_read 0xFFFF;
  modify (set_PC (Z.lor low (Z.shiftl high 8)));;
  add_cycles 7.

Definition RTI : M unit :=
  incr_SP;;
  sp ← get SP; status ← mem_read (0x100 + sp);
  modify (λ c, set_status c status);;
  incr_SP;;
  sp ← get SP; low ← mem_read (0x100 + sp);
  incr_SP;;
  sp ← get SP; high ← mem_read (0x100 + sp);
  modify (set_PC (Z.lor (Z.shiftl high 8) low));;
  add_cycles 6.

Definition NOP : M unit :=
  add_cycles 2.

Definition _handle_nmi : M unit :=
  sp ← get SP; pc ← get PC;
  mem_write (0x100 + sp) (Z.land (Z.shiftr pc 8) 0xFF);;
  decr_SP;;
  sp ← get SP; pc ← get PC;
  mem_write (0x100 + sp) (Z.land pc 0xFF);;
  decr_SP;;
  sp ← get SP; status ← get get_status;
  mem_write (0x100 + sp) (Z.land status (Z.lnot 0x10));;
  decr_SP;;
  modify (set_I 1);;
  low ← mem_read 0xFFFA; high ← mem_read 0xFFFB;
  modify (set_PC (Z.lor low (Z.shiftl high 8)));;
  add_cycles 7;;
  modify (set_nmi_pending false).

Definition _handle_irq : M unit :=
  sp ← get SP; pc ← get PC;
  mem_write (0x100 + sp) (Z.land (Z.shiftr pc 8) 0xFF);;
  decr_SP;;
  sp ← get SP; pc ← get PC;
  mem_write (0x100 + sp) (Z.land pc 0xFF);;
  decr_SP;;
  sp ← get SP; status ← get get_status;
  mem_write (0x100 + sp) (Z.land status (Z.lnot 0x10));;
  decr_SP;;
  modify (set_I 1);;
  low ← mem_read 0xFFFE; high ← mem_read 0xFFFF;
  modify (set_PC (Z.lor low (Z.shiftl high 8)));;
  add_cycles 7;;
  modify (set_irq_pending false).

(** The opcode table of [_init_instruction_table]. *)
Definition instructions : list (int * M unit) :=
  [ (0xA9, LDA_immediate)
  ; (0xA5, LDA_zeropage)
  ; (0xB5, LDA_zeropageX)
  ; (0xAD, LDA_absolute)
  ; (0xBD, LDA_absoluteX)
  ; (0xB9, LDA_absoluteY)
  ; (0xA1, LDA_indirectX)
  ; (0xB1, LDA_indirectY)
  ; (0xA2, LDX_immediate)
  ; (0xA6, LDX_zeropage)
  ; (0xB6, LDX_zeropageY)
  ; (0xAE, LDX_absolute)
  ; (0xBE, LDX_absoluteY)
  ; (0xA0, LDY_immediate)
  ; (0xA4, LDY_zeropage)
  ; (0xB4, LDY_zeropageX)
  ; (0xAC, LDY_absolute)
  ; (0xBC, LDY_absoluteX)
  ; (0x85, STA_zeropage)
  ; (0x95, STA_zeropageX)
  ; (0x8D, STA_absolute)
  ; (0x9D, STA_absoluteX)
  ; (0x99, STA_absoluteY)
  ; (0x81, STA_indirectX)
  ; (0x91, STA_indirectY)
  ; (0x86, STX_zeropage)
  ; (0x96, STX_zeropageY)
  ; (0x8E, STX_absolute)
  ; (0x84, STY_zeropage)
  ; (0x94, STY_zeropageX)
  ; (0x8C, STY_absolute)
  ; (0xAA, TAX)
  ; (0x8A, TXA)
  ; (0xA8, TAY)
  ; (0x98, TYA)
  ; (0xBA, TSX)
  ; (0x9A, TXS)
  ; (0x48, PHA)
  ; (0x68, PLA)
  ; (0x08, PHP)
  ; (0x28, PLP)
  ; (0x29, AND_immediate)
  ; (0x25, AND_zeropage)
  ; (0x35, AND_zeropageX)
  ; (0x2D, AND_absolute)
  ; (0x3D, AND_absoluteX)
  ; (0x39, AND_absoluteY)
  ; (0x21, AND_indirectX)
  ; (0x31, AND_indirectY)
  ; (0x09, ORA_immediate)
  ; (0x05, ORA_zeropage)
  ; (0x15, ORA_zeropageX)
  ; (0x0D, ORA_absolute)
  ; (0x1D, ORA_absoluteX)
  ; (0x19, ORA_absoluteY)
  ; (0x01, ORA_indirectX)
  ; (0x11, ORA_indirectY)
  ; (0x49, EOR_immediate)
  ; (0x45, EOR_zeropage)
  ; (0x55, EOR_zeropageX)
  ; (0x4D, EOR_absolute)
  ; (0x5D, EOR_absoluteX)
  ; (0x59, EOR_absoluteY)
  ; (0x41, EOR_indirectX)
  ; (0x51, EOR_indirectY)
  ; (0x24, BIT_zeropage)
  ; (0x2C, BIT_absolute)
  ; (0x69, ADC_immediate)
  ; (0x65, ADC_zeropage)
  ; (0x75, ADC_zeropageX)
  ; (0x6D, ADC_absolute)
  ; (0x7D, ADC_absoluteX)
  ; (0x79, ADC_absoluteY)
  ; (0x61, ADC_indirectX)
  ; (0x71, ADC_indirectY)
  ; (0xE9, SBC_immediate)
  ; (0xE5, SBC_zeropage)
  ; (0xF5, SBC_zeropageX)
  ; (0xED, SBC_absolute)
  ; (0xFD, SBC_absoluteX)
  ; (0xF9, SBC_absoluteY)
  ; (0xE1, SBC_indirectX)
  ; (0xF1, SBC_indirectY)
  ; (0xC9, CMP_immediate)
  ; (0xC5, CMP_zeropage)
  ; (0xD5, CMP_zeropageX)
  ; (0xCD, CMP_absolute)
  ; (0xDD, CMP_absoluteX)
  ; (0xD9, CMP_absoluteY)
  ; (0xC1, CMP_indirectX)
  ; (0xD1, CMP_indirectY)
  ; (0xE0, CPX_immediate)
  ; (0xE4, CPX_zeropage)
  ; (0xEC, CPX_absolute)
  ; (0xC0, CPY_immediate)
  ; (0xC4, CPY_zeropage)
  ; (0xCC, CPY_absolute)
  ; (0xE6, INC_zeropage)
  ; (0xF6, INC_zeropageX)
  ; (0xEE, INC_absolute)
  ; (0xFE, INC_absoluteX)
  ; (0xE8, INX)
  ; (0xC8, INY)
  ; (0xC6, DEC_zeropage)
  ; (0xD6, DEC_zeropageX)
  ; (0xCE, DEC_absolute)
  ; (0xDE, DEC_absoluteX)
  ; (0xCA, DEX)
  ; (0x88, DEY)
  ; (0x0A, ASL_accumulator)
  ; (0x06, ASL_zeropage)
  ; (0x16, ASL_zeropageX)
  ; (0x0E, ASL_absolute)
  ; (0x1E, ASL_absoluteX)
  ; (0x4A, LSR_accumulator)
  ; (0x46, LSR_zeropage)
  ; (0x56, LSR_zeropageX)
  ; (0x4E, LSR_absolute)
  ; (0x5E, LSR_absoluteX)
  ; (0x2A, ROL_accumulator)
  ; (0x26, ROL_zeropage)
  ; (0x36, ROL_zeropageX)
  ; (0x2E, ROL_absolute)
  ; (0x3E, ROL_absoluteX)
  ; (0x6A, ROR_accumulator)
  ; (0x66, ROR_zeropage)
  ; (0x76, ROR_zeropageX)
  ; (0x6E, ROR_absolute)
  ; (0x7E, ROR_absoluteX)
  ; (0x4C, JMP_absolute)
  ; (0x6C, JMP_indirect)
  ; (0x20, JSR_absolute)
  ; (0x60, RTS)
  ; (0x90, BCC)
  ; (0xB0, BCS)
  ; (0xF0, BEQ)
  ; (0x30, BMI)
  ; (0xD0, BNE)
  ; (0x10, BPL)
  ; (0x50, BVC)
  ; (0x70, BVS)
  ; (0x18, CLC)
  ; (0x38, SEC)
  ; (0x58, CLI)
  ; (0x78, SEI)
  ; (0xB8, CLV)
  ; (0xD8, CLD)
  ; (0xF8, SED)
  ; (0x00, BRK)
  ; (0x40, RTI)
  ; (0xEA, NOP) ].

Definition step : M int :=
  nmi ← get nmi_pending; irq ← get irq_pending; i ← get I;
  (if nmi then _handle_nmi
   else if irq && (i =? 0) then _handle_irq
   else ret tt);;
  pc ← get PC; opcode ← mem_read pc;
  incr_PC;;
  modify (set_cycles 0);;
  match dict_get instructions opcode with
  | Some instruction => instruction
  | None => add_cycles 2
  end;;
  modify (λ c, set_total_cycles (total_cycles c + cycles c) c);;
  get cycles.

End WithDevices.
Arguments machine : clear implicits.
Arguments M : clear implicits.
End CPU6502.

(** ** class PETKeyboard *)

(** [a[k] = b] on a [list]: the index as for [getitem], any value. *)
Definition list_setitem (a : list int) (k b : int) : option (list int) :=
  let n := Z.of_nat (length a) in
  let k' := if k <? 0 then k + n else k in
  if (0 <=? k') && (k' <? n) then Some (<[Z.to_nat k' := b]> a) else None.

Module PETKeyboard.

(** The [key] argument of [_set_key]: a [(row, col)] tuple or a key
    name. *)
Inductive key : Type :=
  | Position (row col : int)
  | Name (name : string).

(** [key_map], in the order of the dict literal; nothing assigns to it
    after the constructor. *)
Definition key_map : list (string * (int * int)) :=
  [ ("1", (0, 0)); ("3", (0, 1)); ("5", (0, 2)); ("7", (0, 3));
    ("9", (0, 4)); ("+", (0, 5)); ("\", (0, 6)); ("DEL", (0, 7));
    ("RETURN", (1, 0)); ("W", (1, 1)); ("R", (1, 2)); ("Y", (1, 3));
    ("I", (1, 4)); ("P", (1, 5)); ("*", (1, 6)); ("↑", (1, 7));
    ("LEFT", (2, 0)); ("A", (2, 1)); ("D", (2, 2)); ("G", (2, 3));
    ("J", (2, 4)); ("L", (2, 5)); (";", (2, 6)); ("RIGHT", (2, 7));
    ("DOWN", (3, 0)); ("LSHIFT", (3, 1)); ("X", (3, 2)); ("V", (3, 3));
    ("N", (3, 4)); (",", (3, 5)); ("/", (3, 6)); ("RSHIFT", (3, 7));
    (" ", (4, 0)); ("Z", (4, 1)); ("C", (4, 2)); ("B", (4, 3));
    ("M", (4, 4)); (".", (4, 5)); ("UP", (4, 7));
    ("0", (5, 0)); ("2", (5, 1)); ("4", (5, 2)); ("6", (5, 3));
    ("8", (5, 4)); ("-", (5, 5)); ("@", (5, 6)); ("^", (5, 7));
    ("HOME", (6, 0)); ("Q", (6, 1)); ("E", (6, 2)); ("T", (6, 3));
    ("U", (6, 4)); ("O", (6, 5)); ("[", (6, 6)); ("]", (6, 7));
    ("STOP", (7, 0)); ("S", (7, 1)); ("F", (7, 2)); ("H", (7, 3));
    ("K", (7, 4)); (":", (7, 5)); ("=", (7, 6));
    ("CTRL", (8, 0)); ("COMMODORE", (8, 1));
    ("F1", (9, 0)); ("F2", (9, 1)); ("F3", (9, 2)); ("F4", (9, 3)) ]%string.

(** [self.key_map[name]]; [None] when [name not in self.key_map]. *)
Fixpoint key_map_get (d : list (string * (int * int))) (name : string)
  : option (int * int) :=
  match d with
  | [] => None
  | (k, p) :: rest =>
      if String.eqb k name then Some p else key_map_get rest name
  end.

(** The attribute the methods below read and assign: the key matrix, one
    integer per row, a 0 bit for a key held down.  ([last_key] is assigned
    by [key_down] only.) *)
Record t : Type := mk {
  matrix : list int
}.

(** [PETKeyboard()] *)
Definition init : t := {| matrix := replicate 10 0xFF |}.

(** [_set_key(key, is_down)].  [self.matrix[row]] raises for a row outside
    the list and [1 << col] for a negative [col]. *)
Definition _set_key (k : t) (key : key) (is_down : bool) : option t :=
  let position :=
    match key with
    | Position row col => Some (row, col)
    | Name name => key_map_get key_map name
    end in
  match position with
  | Some (row, col) =>
      match getitem (matrix k) row with
      | Some old =>
          if col <? 0 then None
          else
            let new :=
              if is_down then Z.land old (Z.lnot (Z.shiftl 1 col))
              else Z.lor old (Z.shiftl 1 col) in
            match list_setitem (matrix k) row new with
            | Some matrix' => Some {| matrix := matrix' |}
            | None => None
            end
      | None => None
      end
  | None => Some k
  end.

Definition read_row (k : t) (row : int) : option int :=
  if (0 <=? row) && (row <? Z.of_nat (length (matrix k)))
  then getitem (matrix k) row
  else Some 0xFF.

End PETKeyboard.

(** ** class PET: the keyboard behind port A of VIA 1 *)

Module PET.





End PET.

(** ** Fixtures: a bare bus and programs poked into its RAM *)

(** 64 KiB of zeroed RAM with the listed cells set. *)
Definition ram_with (cells : list (int * int)) : list int :=
  foldr (λ '(a, b) r, <[Z.to_nat a := b]> r)
        (replicate (Z.to_nat 0x10000) 0) cells.

(** A bus with no overlay and no callback over [ram_with cells]. *)
Definition bus_with (cells : list (int * int)) : Memory.t unit :=
  {| Memory.ram := ram_with cells; Memory.roms := [];
     Memory.io_read_handlers := ∅; Memory.io_write_handlers := ∅ |}.

(** A freshly constructed CPU at [pc] on [bus_with cells]. *)
Definition machine_at (pc : int) (cells : list (int * int))
  : CPU6502.machine unit :=
  CPU6502.mkMachine (CPU6502.set_PC pc CPU6502.init) (bus_with cells) tt.

(** [memory.read(addr)] on the bus of a machine. *)
Definition peek {W : Type} (s : CPU6502.machine W) (addr : int) : option int :=
  Memory.read (CPU6502.memory s) (CPU6502.devices s) addr.

(** The address is served by RAM: no callback, no overlay. *)
Definition plain_ram {W : Type} (m : Memory.t W) (addr : int) : Prop :=
  Memory.io_read_handlers m !! addr = None
  ∧ Memory.io_write_handlers m !! addr = None
  ∧ Memory.find_rom (Memory.roms m) addr = None.

(** No interrupt is taken at the next instruction boundary. *)
Definition no_interrupt (c : CPU6502.t) : Prop :=
  CPU6502.nmi_pending c = false
  ∧ CPU6502.irq_pending c && (CPU6502.I c =? 0) = false.

(** A VIA after writing the Timer 1 latch/counter ($0002, low then high)
    and enabling the Timer 1 interrupt. *)
Definition via_timer1_armed : option (VIA.t unit * unit) :=
  match VIA.write VIA.init tt 0x4 0x02 with
  | Some (v, e) =>
      match VIA.write v e 0x5 0x00 with
      | Some (v, e) => VIA.write v e 0xE 0xC0
      | None => None
      end
  | None => None
  end.

(** The bus after a store of [b] into the RAM cell [addr]. *)
Definition stored {W : Type} (m : Memory.t W) (addr b : int) : Memory.t W :=
  Memory.mk (<[Z.to_nat addr := b]> (Memory.ram m)) (Memory.roms m)
            (Memory.io_read_handlers m) (Memory.io_write_handlers m).

(** Every flag that [get_status] assembles is 0 or 1. *)
Definition flag_bits (c : CPU6502.t) : Prop :=
  (CPU6502.C c = 0 ∨ CPU6502.C c = 1) ∧ (CPU6502.Z c = 0 ∨ CPU6502.Z c = 1)
  ∧ (CPU6502.I c = 0 ∨ CPU6502.I c = 1) ∧ (CPU6502.D c = 0 ∨ CPU6502.D c = 1)
  ∧ (CPU6502.V c = 0 ∨ CPU6502.V c = 1) ∧ (CPU6502.N c = 0 ∨ CPU6502.N c = 1).

(** The three bytes on top of the stack, the top one first:
    [$0100 | SP+1], [$0100 | SP+2], [$0100 | SP+3]. *)
Definition stack_top3 {W : Type} (s : CPU6502.machine W) : list (option int) :=
  let sp := CPU6502.SP (CPU6502.cpu s) in
  [ peek s (0x100 + Z.land (sp + 1) 0xFF);
    peek s (0x100 + Z.land (sp + 2) 0xFF);
    peek s (0x100 + Z.land (sp + 3) 0xFF) ].

(** What a test reads off a call to a method: the value returned, with an
    observation [f] of the machine it leaves. *)
Definition observe {W R A : Type} (f : CPU6502.machine W -> A)
    (r : option (R * CPU6502.machine W)) : option (R * A) :=
  match r with
  | Some (n, s') => Some (n, f s')
  | None => None
  end.

(** Scenario 5 of the specification: BRK at $0200, vector $1234. *)
Definition brk_scenario : CPU6502.machine unit :=
  machine_at 0x0200
    [(0xFFFE, 0x34); (0xFFFF, 0x12); (0x0200, 0x00); (0x0201, 0x00)].

(** Scenario 3: JMP ($30FF) at $0200; $3100 holds a byte that must not be
    used. *)
Definition jmp_scenario : CPU6502.machine unit :=
  machine_at 0x0200
    [(0x30FF, 0x40); (0x3000, 0x80); (0x3100, 0x99);
     (0x0200, 0x6C); (0x0201, 0xFF); (0x0202, 0x30)].

(** [CLC; LDA #a; ADC #b] at $0200. *)
Definition adc_scenario (a b : int) : CPU6502.machine unit :=
  machine_at 0x0200
    [(0x0200, 0x18); (0x0201, 0xA9); (0x0202, a); (0x0203, 0x69);
     (0x0204, b)].

(** An NMI pending at $0200; the NMI vector points at a NOP at $0300. *)
Definition nmi_scenario : CPU6502.machine unit :=
  CPU6502.mkMachine
    (CPU6502.trigger_nmi (CPU6502.set_PC 0x0200 CPU6502.init))
    (bus_with [(0xFFFA, 0x00); (0xFFFB, 0x03); (0x0300, 0xEA)]) tt.

(** An IRQ pending with I = 0; the IRQ vector points at a NOP at $0300. *)
Definition irq_scenario : CPU6502.machine unit :=
  CPU6502.mkMachine
    (CPU6502.trigger_irq (CPU6502.set_PC 0x0200 CPU6502.init))
    (bus_with [(0xFFFE, 0x00); (0xFFFF, 0x03); (0x0300, 0xEA)]) tt.

(** A NOP in the last byte of the address space. *)
Definition last_byte_scenario : CPU6502.machine unit :=
  machine_at 0xFFFF [(0xFFFF, 0xEA)].

(** An RTS at $0200 with the return address $FFFF on the stack. *)
Definition rts_scenario : CPU6502.machine unit :=
  CPU6502.mkMachine
    (CPU6502.set_SP 0xFD (CPU6502.set_PC 0x0200 CPU6502.init))
    (bus_with [(0x0200, 0x60); (0x01FE, 0xFF); (0x01FF, 0xFF)]) tt.

(** A CPU in decimal mode with accumulator [a] and carry [carry]. *)
Definition decimal_cpu (a carry : int) : CPU6502.t :=
  CPU6502.set_C carry (CPU6502.set_D 1 (CPU6502.set_A a CPU6502.init)).

(** ** Ranges and invariants *)

Definition byte (x : int) : Prop := 0 <= x <= 255.

Definition bit (x : int) : Prop := x = 0 ∨ x = 1.

(** The integers 0..255. *)
Definition bytes256 : list int := Z.of_nat <$> seq 0 256.

(** A byte read as a two's complement number. *)
Definition signed (b : int) : int := if b <? 128 then b else b - 256.

(** The 8-bit registers hold bytes and the flags hold bits. *)
Definition regs_ok (c : CPU6502.t) : Prop :=
  byte (CPU6502.A c) ∧ byte (CPU6502.X c) ∧ byte (CPU6502.Y c)
  ∧ byte (CPU6502.SP c)
  ∧ bit (CPU6502.C c) ∧ bit (CPU6502.Z c) ∧ bit (CPU6502.I c)
  ∧ bit (CPU6502.D c) ∧ bit (CPU6502.B c) ∧ bit (CPU6502.V c)
  ∧ bit (CPU6502.N c).

(** The fields the ADC/SBC helpers leave alone. *)
Definition same_frame (c c' : CPU6502.t) : Prop :=
  CPU6502.PC c' = CPU6502.PC c
  ∧ CPU6502.cycles c' = CPU6502.cycles c
  ∧ CPU6502.total_cycles c' = CPU6502.total_cycles c
  ∧ CPU6502.irq_pending c' = CPU6502.irq_pending c
  ∧ CPU6502.nmi_pending c' = CPU6502.nmi_pending c.

(** The flags [get_status] packs are those of [c]. *)
Definition same_flags (c c' : CPU6502.t) : Prop :=
  CPU6502.C c' = CPU6502.C c ∧ CPU6502.Z c' = CPU6502.Z c
  ∧ CPU6502.I c' = CPU6502.I c ∧ CPU6502.D c' = CPU6502.D c
  ∧ CPU6502.V c' = CPU6502.V c ∧ CPU6502.N c' = CPU6502.N c.

(** Everything a read of the bus can return is a byte: the callbacks
    return bytes, RAM and the overlays hold bytes. *)
Definition byte_bus {W : Type} (m : Memory.t W) (w : W) : Prop :=
  (∀ a h w', Memory.io_read_handlers m !! a = Some h -> byte (h w'))
  ∧ Forall byte (Memory.ram m)
  ∧ Forall (λ e, Forall byte e.2.1) (Memory.roms m).

(** The stack page is RAM. *)
Definition stack_in_ram {W : Type} (m : Memory.t W) : Prop :=
  ∀ a, 0x100 <= a <= 0x1FF -> plain_ram m a.

(** What one entry of the opcode table does to the clock and the
    interrupt lines, and what it keeps on a bus with invariant [Inv]. *)
Definition instr_ok {W : Type} (Inv : Memory.t W -> W -> Prop)
    (i : CPU6502.M W unit) : Prop :=
  ∀ s s', i s = Some (tt, s') ->
    (2 <= CPU6502.cycles (CPU6502.cpu s') - CPU6502.cycles (CPU6502.cpu s) <= 7
     ∧ CPU6502.total_cycles (CPU6502.cpu s')
       = CPU6502.total_cycles (CPU6502.cpu s)
     ∧ CPU6502.irq_pending (CPU6502.cpu s')
       = CPU6502.irq_pending (CPU6502.cpu s)
     ∧ CPU6502.nmi_pending (CPU6502.cpu s')
       = CPU6502.nmi_pending (CPU6502.cpu s))
    ∧ (Inv (CPU6502.memory s) (CPU6502.devices s) ->
       regs_ok (CPU6502.cpu s) ->
       0 <= CPU6502.PC (CPU6502.cpu s) <= 0x10000 ->
       regs_ok (CPU6502.cpu s')
       ∧ 0 <= CPU6502.PC (CPU6502.cpu s') <= 0x10002
       ∧ Inv (CPU6502.memory s') (CPU6502.devices s')).

(** An entry of the opcode table returns on a well-formed bus, and leaves
    the bus well-formed. *)
Definition instr_total {W : Type} (i : CPU6502.M W unit) : Prop :=
  ∀ s, Memory.wf (CPU6502.memory s) ->
    ∃ s', i s = Some (tt, s') ∧ Memory.wf (CPU6502.memory s').

(** The value a port callback supplies; [0xFF] without a callback. *)
Definition port_input {E : Type} (f : option (E -> int)) (e : E) : int :=
  match f with Some f => f e | None => 0xFF end.

(** Sixteen register bytes and every attribute of the VIA in its range. *)
Definition via_ok {E : Type} (v : VIA.t E) : Prop :=
  length (VIA.registers v) = 16%nat
  ∧ Forall byte (VIA.registers v)
  ∧ byte (VIA.port_a v) ∧ byte (VIA.port_b v)
  ∧ byte (VIA.ddr_a v) ∧ byte (VIA.ddr_b v)
  ∧ 0 <= VIA.timer1_counter v <= 0xFFFF
  ∧ 0 <= VIA.timer1_latch v <= 0xFFFF
  ∧ 0 <= VIA.timer2_counter v <= 0xFFFF
  ∧ byte (VIA.shift_register v)
  ∧ 0 <= VIA.irq_status v <= 0x7F
  ∧ 0 <= VIA.irq_enable v <= 0x7F.

(** ** Further fixtures *)

(** The 40x25 screen, every cell holding [b]. *)
Definition screen_of (b : int) : VideoRAM.t :=
  VideoRAM.mk 40 25 1000 (replicate 1000 b) false.

(** A bus with one overlay, [A9 93 20 D2] at $C000, over zeroed RAM. *)
Definition overlay_bus : Memory.t unit :=
  {| Memory.ram := ram_with [];
     Memory.roms := [(0xC000, ([0xA9; 0x93; 0x20; 0xD2], 4))];
     Memory.io_read_handlers := ∅; Memory.io_write_handlers := ∅ |}.


(** The machine [last_byte_scenario] after its NOP. *)
Definition last_byte_after : CPU6502.machine unit :=
  CPU6502.mkMachine
    (CPU6502.set_total_cycles 2
       (CPU6502.set_cycles 2
          (CPU6502.set_PC 0x10000 (CPU6502.cpu last_byte_scenario))))
    (CPU6502.memory last_byte_scenario) tt.

(** An opcode that is not in the table, $02, at $0200. *)
Definition illegal_scenario : CPU6502.machine unit :=
  machine_at 0x0200 [(0x0200, 0x02)].

(** [JSR $0300] fetched at $0200: PC is past the opcode. *)
Definition jsr_scenario : CPU6502.machine unit :=
  machine_at 0x0201 [(0x0200, 0x20); (0x0201, 0x00); (0x0202, 0x03)].

(** A CPU with accumulator [a] on a bare bus. *)
Definition accumulator_scenario (a : int) : CPU6502.machine unit :=
  CPU6502.mkMachine (CPU6502.set_A a CPU6502.init) (bus_with []) tt.

(** Symbolic execution of a method: unfold the monad, keep the integer
    operations folded. *)
Ltac run :=
  unfold CPU6502.bind, CPU6502.ret, CPU6502.get, CPU6502.modify,
    CPU6502.mem_read, CPU6502.mem_write, CPU6502.incr_PC, CPU6502.decr_SP,
    CPU6502.incr_SP, CPU6502.add_cycles;
  cbn -[Z.add Z.sub Z.mul Z.opp Z.land Z.lor Z.lxor Z.lnot Z.shiftl Z.shiftr
        Z.eqb Z.ltb Z.leb Z.testbit Z.b2z dict_get Memory.read Memory.write
        CPU6502.get_status].

(** Rewrite the next bus read of the goal with the hypothesis [H] about
    the same address, up to arithmetic. *)
Ltac fetch H :=
  match type of H with
  | Memory.read _ _ ?a' = _ =>
      match goal with
      | |- context [Memory.read _ _ ?a] =>
          replace a with a' by lia; rewrite H; run
      end
  end.

(** ** Containers *)

Lemma mask16_id (addr : int) : 0 <= addr <= 0xFFFF -> Z.land addr 0xFFFF = addr.
Proof.
  intros H. change 0xFFFF with (Z.ones 16).
  rewrite Z.land_ones by lia. apply Z.mod_small. lia.
Qed.

Lemma mask8_mod (b : int) : Z.land b 0xFF = b mod 256.
Proof. change 0xFF with (Z.ones 8). now rewrite Z.land_ones by lia. Qed.

Lemma mask8_idem (x : int) : Z.land (Z.land x 0xFF) 0xFF = Z.land x 0xFF.
Proof. now rewrite <- Z.land_assoc. Qed.

Lemma mask8_is_byte (b : int) : is_byte (Z.land b 0xFF) = true.
Proof.
  rewrite mask8_mod. unfold is_byte.
  pose proof (Z.mod_pos_bound b 256 ltac:(lia)).
  apply andb_true_iff. split; [apply Z.leb_le | apply Z.ltb_lt]; lia.
Qed.

Lemma getitem_in_range (a : list int) (k : int) :
  0 <= k < Z.of_nat (length a) -> getitem a k = a !! Z.to_nat k.
Proof.
  intros H. unfold getitem.
  destruct (Z.ltb_spec k 0); [lia|].
  destruct (Z.leb_spec 0 k); [|lia].
  destruct (Z.ltb_spec k (Z.of_nat (length a))); [|lia]. reflexivity.
Qed.

Lemma getitem_is_Some (a : list int) (k : int) :
  0 <= k < Z.of_nat (length a) -> is_Some (getitem a k).
Proof.
  intros H. rewrite getitem_in_range by done.
  apply lookup_lt_is_Some. lia.
Qed.

Lemma setitem_in_range (a : list int) (k b : int) :
  0 <= k < Z.of_nat (length a) -> is_byte b = true ->
  setitem a k b = Some (<[Z.to_nat k := b]> a).
Proof.
  intros H Hb. unfold setitem. rewrite Hb.
  destruct (Z.ltb_spec k 0); [lia|].
  destruct (Z.leb_spec 0 k); [|lia].
  destruct (Z.ltb_spec k (Z.of_nat (length a))); [|lia]. reflexivity.
Qed.

Lemma dict_get_set {V : Type} (d : list (int * V)) (k : int) (v : V) :
  dict_get (dict_set d k v) k = Some v.
Proof.
  induction d as [|[k' v'] d IH]; simpl.
  - now rewrite Z.eqb_refl.
  - destruct (Z.eqb_spec k' k) as [->|Hne]; simpl.
    + now rewrite Z.eqb_refl.
    + destruct (Z.eqb_spec k' k); [done | exact IH].
Qed.

(** ** The bus *)

Section BusFacts.
Context {W : Type}.
Implicit Types (m : Memory.t W) (w : W).

(** The loop over the overlays returns one that holds the address. *)
Lemma find_rom_Some l addr rom_addr data :
  Memory.find_rom l addr = Some (rom_addr, data) ->
  ∃ size, (rom_addr, (data, size)) ∈ l ∧ rom_addr <= addr < rom_addr + size.
Proof.
  induction l as [|[ra [d sz]] l IH]; simpl; [done|].
  destruct (Z.leb_spec ra addr); destruct (Z.ltb_spec addr (ra + sz)); simpl.
  1: { intros [= <- <-]. exists sz. split; [left | lia]. }
  all: intros Hf; destruct (IH Hf) as (size & Hin & Hr);
       exists size; split; [by right | done].
Qed.

(** It finds one whenever the address lies in some overlay. *)
Lemma find_rom_complete l addr rom_addr data size :
  (rom_addr, (data, size)) ∈ l -> rom_addr <= addr < rom_addr + size ->
  is_Some (Memory.find_rom l addr).
Proof.
  intros Hin Hr. induction l as [|[ra [d sz]] l IH]; simpl.
  - by apply elem_of_nil in Hin.
  - destruct ((ra <=? addr) && (addr <? ra + sz)) eqn:Hc; [by eexists|].
    apply elem_of_cons in Hin as [Heq|Hin]; [|by apply IH].
    injection Heq as <- <- <-.
    apply andb_false_iff in Hc as [Hc|Hc];
      [apply Z.leb_gt in Hc | apply Z.ltb_ge in Hc]; lia.
Qed.

Lemma in_rom_find m addr :
  Memory.in_rom m addr -> is_Some (Memory.find_rom (Memory.roms m) addr).
Proof. intros (ra & d & sz & Hin & Hr). by eapply find_rom_complete. Qed.

Lemma stored_wf m addr b : Memory.wf m -> Memory.wf (stored m addr b).
Proof. intros [Hl Hr]. split; [|done]. simpl. now rewrite length_insert. Qed.

Lemma stored_plain_ram m addr b a :
  plain_ram m a -> plain_ram (stored m addr b) a.
Proof. done. Qed.

(** A write to a RAM cell stores the value masked to 8 bits, and nothing
    else changes. *)
Lemma write_plain_ram m w addr value :
  Memory.wf m -> 0 <= addr <= 0xFFFF -> plain_ram m addr ->
  Memory.write m w addr value = Some (stored m addr (Z.land value 0xFF), w).
Proof.
  intros [Hl _] Ha (_ & Hw & Hrom). unfold Memory.write.
  rewrite mask16_id by done. rewrite Hw, Hrom.
  rewrite setitem_in_range by (apply mask8_is_byte || lia). reflexivity.
Qed.

Lemma read_stored_eq m w addr b :
  Memory.wf m -> 0 <= addr <= 0xFFFF -> plain_ram m addr ->
  Memory.read (stored m addr b) w addr = Some b.
Proof.
  intros [Hl _] Ha (Hr & _ & Hrom). unfold Memory.read. simpl.
  rewrite mask16_id by done. rewrite Hr, Hrom.
  rewrite getitem_in_range by (rewrite length_insert; lia).
  apply list_lookup_insert_eq. lia.
Qed.

Lemma read_stored_ne m w addr b a :
  0 <= addr <= 0xFFFF -> 0 <= a <= 0xFFFF -> a ≠ addr ->
  Memory.read (stored m addr b) w a = Memory.read m w a.
Proof.
  intros Haddr Ha Hne. unfold Memory.read. simpl.
  rewrite mask16_id by done.
  destruct (Memory.io_read_handlers m !! a); [done|].
  destruct (Memory.find_rom (Memory.roms m) a) as [[? ?]|]; [done|].
  unfold getitem. rewrite length_insert.
  destruct (Z.ltb_spec a 0); [lia|].
  destruct ((0 <=? a) && (a <? Z.of_nat (length (Memory.ram m)))); [|done].
  apply list_lookup_insert_ne. lia.
Qed.

End BusFacts.

(** C8. Bus resolution order, for a 16-bit address [addr]:
    - a write inside a registered ROM overlay with no write callback at
      [addr] is a no-op: the bus and the devices come back unchanged;
    - a read at an address with a read callback returns the callback's
      result, whatever RAM and the overlays hold;
    - a read inside a ROM overlay with no read callback returns the byte of
      an overlay holding [addr], whatever RAM holds (and with the overlay's
      recorded size equal to its length, the read succeeds). *)
Theorem bus_overlay_resolution {W : Type} (m : Memory.t W) (w : W) (addr : int) :
  0 <= addr <= 0xFFFF ->
  (∀ value,
     Memory.io_write_handlers m !! addr = None -> Memory.in_rom m addr ->
     Memory.write m w addr value = Some (m, w))
  ∧ (∀ handler ram' roms',
       Memory.io_read_handlers m !! addr = Some handler ->
       Memory.read m w addr = Some (handler w)
       ∧ Memory.read
           (Memory.mk ram' roms' (Memory.io_read_handlers m)
                      (Memory.io_write_handlers m)) w addr
         = Some (handler w))
  ∧ (Memory.io_read_handlers m !! addr = None -> Memory.in_rom m addr ->
     ∃ rom_addr data size,
       (rom_addr, (data, size)) ∈ Memory.roms m
       ∧ rom_addr <= addr < rom_addr + size
       ∧ Memory.read m w addr = getitem data (addr - rom_addr)
       ∧ (size = Z.of_nat (length data) -> is_Some (Memory.read m w addr))
       ∧ ∀ ram',
           Memory.read
             (Memory.mk ram' (Memory.roms m) (Memory.io_read_handlers m)
                        (Memory.io_write_handlers m)) w addr
           = Memory.read m w addr).
Proof.
  intros Haddr. split; [|split].
  - intros value Hnone Hrom. unfold Memory.write.
    rewrite mask16_id by done. rewrite Hnone.
    destruct (in_rom_find m addr Hrom) as [e ->]. reflexivity.
  - intros handler ram' roms' Hh. unfold Memory.read; simpl.
    rewrite mask16_id by done. now rewrite Hh.
  - intros Hnone Hrom. unfold Memory.read; simpl.
    rewrite mask16_id by done. rewrite Hnone.
    destruct (in_rom_find m addr Hrom) as [[ra d] Hf]. rewrite Hf.
    destruct (find_rom_Some _ _ _ _ Hf) as (sz & Hin & Hr).
    exists ra, d, sz. repeat split; try done; try lia.
    intros ->. apply getitem_is_Some. lia.
Qed.

(** An overlay at $C000 over RAM, a read callback at $C001 and a ROM cell
    at $C002: the three cases of C8 on one bus. *)
Lemma bus_overlay_resolution_witness :
  let m := Memory.mk (ram_with [(0xC002, 0x11)])
             [(0xC000, ([0xA9; 0x93; 0x20], 3))]
             {[ 0xC001 := λ _ : unit, 0x55 ]} ∅ in
  Memory.write m tt 0xC002 0x77 = Some (m, tt)
  ∧ Memory.read m tt 0xC001 = Some 0x55
  ∧ ∃ rom_addr data size,
      (rom_addr, (data, size)) ∈ Memory.roms m
      ∧ Memory.read m tt 0xC002 = getitem data (0xC002 - rom_addr).
Proof.
  intros m.
  assert (Hrom : Memory.in_rom m 0xC002).
  { exists 0xC000, [0xA9; 0x93; 0x20], 3. split; [left | lia]. }
  assert (Hcb : Memory.io_read_handlers m !! 0xC001 = Some (λ _ : unit, 0x55))
    by reflexivity.
  assert (Hno : Memory.io_write_handlers m !! 0xC002 = None) by reflexivity.
  assert (Hno' : Memory.io_read_handlers m !! 0xC002 = None) by reflexivity.
  destruct (bus_overlay_resolution m tt 0xC002 ltac:(lia)) as (Hw & _ & Hr).
  destruct (bus_overlay_resolution m tt 0xC001 ltac:(lia)) as (_ & Hh & _).
  destruct (Hh _ [] [] Hcb) as [Hread _].
  destruct (Hr Hno' Hrom) as (ra & d & sz & Hin & _ & Hbyte & _).
  split; [exact (Hw 0x77 Hno Hrom)|]. split; [exact Hread|].
  exists ra, d, sz. split; [exact Hin | exact Hbyte].
Defined.

(** The copy loop of [load_rom] never raises for a byte image at a
    non-negative base, and keeps the size of RAM. *)
Lemma copy_to_ram_total (data ram : list int) (addr i : int) :
  forallb is_byte data = true -> 0 <= addr -> 0 <= i ->
  ∃ ram', Memory.copy_to_ram ram addr i data = Some ram'
          ∧ length ram' = length ram.
Proof.
  revert ram i. induction data as [|b data IH]; intros ram i Hb Haddr Hi.
  - by exists ram.
  - simpl in Hb. apply andb_true_iff in Hb as [Hb Hbs]. simpl.
    destruct (Z.ltb_spec (addr + i) (Z.of_nat (length ram))) as [Hlt|Hge].
    + rewrite setitem_in_range by (done || lia).
      destruct (IH (<[Z.to_nat (addr + i) := b]> ram) (i + 1) Hbs Haddr)
        as (ram' & -> & Hlen); [lia|].
      exists ram'. split; [done|]. now rewrite Hlen, length_insert.
    + apply IH; (done || lia).
Qed.

(** C9 (as the code has it). [load_rom] validates nothing: for every byte
    image, a zero-length one and one running past $FFFF included, and every
    base address [addr >= 0], it succeeds, registers the overlay
    [addr -> (data, len(data))] and leaves the callbacks and the size of
    RAM as they were. *)
Theorem load_rom_accepts_every_image {W : Type} (m : Memory.t W)
    (data : list int) (addr : int) :
  forallb is_byte data = true -> 0 <= addr ->
  ∃ m', Memory.load_rom m data addr = Some m'
        ∧ dict_get (Memory.roms m') addr
          = Some (data, Z.of_nat (length data))
        ∧ length (Memory.ram m') = length (Memory.ram m)
        ∧ Memory.io_read_handlers m' = Memory.io_read_handlers m
        ∧ Memory.io_write_handlers m' = Memory.io_write_handlers m.
Proof.
  intros Hb Haddr. unfold Memory.load_rom. rewrite Hb.
  destruct (copy_to_ram_total data (Memory.ram m) addr 0 Hb Haddr)
    as (ram' & -> & Hlen); [lia|].
  eexists. split; [reflexivity|]. simpl.
  split; [apply dict_get_set | done].
Qed.

(** A two-byte image registered at $FFFF, one byte past the end of the
    address space. *)
Lemma load_rom_accepts_every_image_witness :
  ∃ m', Memory.load_rom (Memory.init (W:=unit) 0x10000) [0xAA; 0xBB] 0xFFFF
        = Some m'
        ∧ dict_get (Memory.roms m') 0xFFFF = Some ([0xAA; 0xBB], 2).
Proof.
  destruct (load_rom_accepts_every_image (Memory.init (W:=unit) 0x10000)
              [0xAA; 0xBB] 0xFFFF eq_refl ltac:(lia))
    as (m' & H1 & H2 & _).
  exists m'. split; [exact H1 | exact H2].
Defined.

(** C9, counterexample: a zero-length image at $1000 and a two-byte image
    at $FFFF are both accepted and registered as overlays. *)
Lemma load_rom_invalid_not_rejected :
  Memory.roms <$> Memory.load_rom (Memory.init (W:=unit) 0x10000) [] 0x1000
    = Some [(0x1000, ([], 0))]
  ∧ Memory.roms
      <$> Memory.load_rom (Memory.init (W:=unit) 0x10000) [0xAA; 0xBB] 0xFFFF
    = Some [(0xFFFF, ([0xAA; 0xBB], 2))].
Proof. split; vm_compute; reflexivity. Qed.

(** ** The video buffer *)

Lemma VideoRAM_init_wf (width height : int) (v : VideoRAM.t) :
  VideoRAM.init width height = Some v -> VideoRAM.wf v.
Proof.
  unfold VideoRAM.init, VideoRAM.wf.
  destruct (Z.ltb_spec (width * height) 0); [done|].
  intros [= <-]. simpl. rewrite length_replicate. lia.
Qed.

(** C10. On a buffer as the constructor makes it: outside
    [0, width*height) a read returns 0 and a write returns the buffer as it
    was (bytes and dirty flag); inside, the index is within the byte array,
    so the read succeeds and returns that cell, and the write of any byte
    succeeds, touches that cell only and keeps the number of cells. *)
Theorem VideoRAM_access_in_bounds (v : VideoRAM.t) (addr value : int) :
  VideoRAM.wf v ->
  (¬ (0 <= addr < VideoRAM.width v * VideoRAM.height v) ->
     VideoRAM.read v addr = Some 0 ∧ VideoRAM.write v addr value = Some v)
  ∧ (0 <= addr < VideoRAM.width v * VideoRAM.height v ->
     (Z.to_nat addr < length (VideoRAM.memory v))%nat
     ∧ VideoRAM.read v addr = VideoRAM.memory v !! Z.to_nat addr
     ∧ is_Some (VideoRAM.read v addr)
     ∧ (is_byte value = true ->
        ∃ v', VideoRAM.write v addr value = Some v' ∧ VideoRAM.wf v'
              ∧ VideoRAM.memory v'
                = <[Z.to_nat addr := value]> (VideoRAM.memory v))).
Proof.
  intros [Hsize Hlen]. rewrite <- Hsize. split.
  - intros Hout. unfold VideoRAM.read, VideoRAM.write.
    destruct (Z.leb_spec 0 addr); destruct (Z.ltb_spec addr (VideoRAM.size v));
      simpl; (done || lia).
  - intros Hin.
    assert (Hr : 0 <= addr < Z.of_nat (length (VideoRAM.memory v))) by lia.
    unfold VideoRAM.read, VideoRAM.write.
    destruct (Z.leb_spec 0 addr); [|lia].
    destruct (Z.ltb_spec addr (VideoRAM.size v)); [|lia]. simpl.
    rewrite getitem_in_range by done.
    split; [lia|]. split; [done|].
    destruct (lookup_lt_is_Some_2 (VideoRAM.memory v) (Z.to_nat addr)
                ltac:(lia)) as [old Hold].
    split; [by rewrite Hold|]. intros Hb. rewrite Hold.
    destruct (Z.eqb_spec old value) as [->|Hne]; simpl.
    + exists v. split; [done|]. split; [done|].
      symmetry. by apply list_insert_id.
    + rewrite setitem_in_range by done. eexists. split; [done|].
      unfold VideoRAM.wf; simpl. split; [|done].
      rewrite length_insert. done.
Qed.

(** On the 40x25 screen: cell 1000 is outside, cell 999 is the last one. *)
Lemma VideoRAM_access_in_bounds_witness :
  let v := VideoRAM.mk 40 25 1000 (replicate 1000 0x20) false in
  VideoRAM.wf v
  ∧ (VideoRAM.read v 1000 = Some 0 ∧ VideoRAM.write v 1000 0x41 = Some v)
  ∧ (Z.to_nat 999 < length (VideoRAM.memory v))%nat.
Proof.
  intros v.
  assert (Hwf : VideoRAM.wf v) by (split; reflexivity).
  destruct (VideoRAM_access_in_bounds v 1000 0x41 Hwf) as [Hout _].
  destruct (VideoRAM_access_in_bounds v 999 0x41 Hwf) as [_ Hin].
  split; [exact Hwf|]. split.
  - apply Hout. simpl. lia.
  - apply Hin. simpl. lia.
Defined.

(** ** The VIA timers *)

(** A flag among the two a call may set is enabled iff its own enable bit
    is set. *)
Lemma fired_enabled (f1 f2 ier : int) :
  Z.land (Z.lor f1 f2) ier ≠ 0 ↔ Z.land ier f1 ≠ 0 ∨ Z.land ier f2 ≠ 0.
Proof.
  rewrite Z.land_lor_distr_l, Z.lor_eq_0_iff.
  rewrite (Z.land_comm f1), (Z.land_comm f2).
  destruct (Z.eq_dec (Z.land ier f1) 0), (Z.eq_dec (Z.land ier f2) 0);
    intuition congruence.
Qed.

(** C7. For every cycle count [c], writing [fired] for the flags the call
    sets (bit 6 when Timer 1 expires in it, bit 5 when Timer 2 does):
    - with the Timer 1 counter in (0, c] the call sets IFR bit 6 and
      reloads the counter from the latch;
    - with the counter running and above [c] it is decremented by [c];
    - IFR afterwards is IFR before with [fired] or-ed in, and the call
      returns true iff a bit of [fired] is enabled in IER.
    And on a VIA whose Timer 1 latch is written as $0002 through
    registers $4 and $5 (the write of $5 starts the counter from the
    latch) and whose IER bit 6 is enabled, [update_timers(3)] sets IFR
    bit 6, returns true and leaves the counter reloaded to $0002. *)
Theorem update_timers_irq :
  (∀ (E : Type) (v v' : VIA.t E) (c : int) (irq : bool),
     VIA.update_timers v c = (v', irq) ->
     let t1 := (0 <? VIA.timer1_counter v) && (VIA.timer1_counter v <=? c) in
     let t2 := (0 <? VIA.timer2_counter v) && (VIA.timer2_counter v <=? c) in
     let fired := Z.lor (if t1 then 0x40 else 0) (if t2 then 0x20 else 0) in
     (0 < VIA.timer1_counter v <= c ->
        Z.testbit (VIA.irq_status v') 6 = true
        ∧ VIA.timer1_counter v' = VIA.timer1_latch v)
     ∧ (0 <= c ∨ 0 < VIA.timer1_counter v -> c < VIA.timer1_counter v ->
        VIA.timer1_counter v' = VIA.timer1_counter v - c)
     ∧ VIA.irq_status v' = Z.lor (VIA.irq_status v) fired
     ∧ (irq = true ↔ Z.land fired (VIA.irq_enable v) ≠ 0))
  ∧ (∃ v e, via_timer1_armed = Some (v, e)
       ∧ VIA.timer1_latch v = 0x0002 ∧ VIA.timer1_counter v = 0x0002
       ∧ Z.testbit (VIA.irq_enable v) 6 = true
       ∧ Z.testbit (VIA.irq_status v) 6 = false
       ∧ Z.testbit (VIA.irq_status (VIA.update_timers v 3).1) 6 = true
       ∧ (VIA.update_timers v 3).2 = true
       ∧ VIA.timer1_counter (VIA.update_timers v 3).1 = 0x0002).
Proof.
  split.
  - intros E v v' c irq Hu t1 t2 fired. subst t1 t2 fired.
    rewrite fired_enabled. unfold VIA.update_timers in Hu.
    destruct (Z.ltb_spec 0 (VIA.timer1_counter v)) as [H1|H1];
      [destruct (Z.leb_spec (VIA.timer1_counter v) c) as [H1c|H1c]|];
      cbn -[Z.land Z.lor Z.testbit] in Hu |- *;
      try (destruct (Z.eqb_spec (Z.land (VIA.irq_enable v) 0x40) 0)
             as [He1|He1];
           cbn -[Z.land Z.lor Z.testbit] in Hu |- *);
      (destruct (Z.ltb_spec 0 (VIA.timer2_counter v)) as [H2|H2];
       [destruct (Z.leb_spec (VIA.timer2_counter v) c) as [H2c|H2c]|]);
      cbn -[Z.land Z.lor Z.testbit] in Hu |- *;
      try (destruct (Z.eqb_spec (Z.land (VIA.irq_enable v) 0x20) 0)
             as [He2|He2];
           cbn -[Z.land Z.lor Z.testbit] in Hu |- *);
      injection Hu as <- <-; cbn -[Z.land Z.lor Z.testbit];
      rewrite ?Z.land_0_r;
      (split; [intros ?; first [lia | split; [|reflexivity]] |
       split; [intros ? ?; first [lia | reflexivity] |
       split; [rewrite ?Z.lor_assoc, ?Z.lor_0_r; reflexivity |
               intuition congruence]]]).
    all: rewrite ?Z.lor_spec; change (Z.testbit 64 6) with true;
         destruct (Z.testbit (VIA.irq_status v) 6); reflexivity.
  - eexists _, _. split; [vm_compute; reflexivity|].
    repeat split; vm_compute; reflexivity.
Qed.

(** Timer 1 at 2 with latch 2 and the interrupt enabled, 3 cycles. *)
Lemma update_timers_irq_witness :
  let v := VIA.set_timer1_counter 2
             (VIA.set_timer1_latch 2
                (VIA.set_irq_enable 0x40 (VIA.init (E:=unit)))) in
  0 < VIA.timer1_counter v <= 3
  ∧ Z.testbit (VIA.irq_status (VIA.update_timers v 3).1) 6 = true
  ∧ VIA.timer1_counter (VIA.update_timers v 3).1 = 2
  ∧ (VIA.update_timers v 3).2 = true.
Proof.
  intros v.
  assert (Hc : 0 < VIA.timer1_counter v <= 3) by (simpl; lia).
  destruct (proj1 update_timers_irq unit v (VIA.update_timers v 3).1 3
              (VIA.update_timers v 3).2 eq_refl)
    as (Hexp & _ & _ & Hirq).
  split; [exact Hc|]. destruct (Hexp Hc) as [Hbit Hreload].
  split; [exact Hbit|]. split; [exact Hreload|].
  apply Hirq. vm_compute. discriminate.
Defined.

(** ** The CPU *)

Lemma dispatch_CLC {W : Type} :
  dict_get (CPU6502.instructions (W:=W)) 0x18 = Some CPU6502.CLC.
Proof. reflexivity. Qed.

Lemma dispatch_LDA_immediate {W : Type} :
  dict_get (CPU6502.instructions (W:=W)) 0xA9 = Some CPU6502.LDA_immediate.
Proof. reflexivity. Qed.

Lemma dispatch_ADC_immediate {W : Type} :
  dict_get (CPU6502.instructions (W:=W)) 0x69 = Some CPU6502.ADC_immediate.
Proof. reflexivity. Qed.

Lemma dispatch_JMP_indirect {W : Type} :
  dict_get (CPU6502.instructions (W:=W)) 0x6C = Some CPU6502.JMP_indirect.
Proof. reflexivity. Qed.

(** With flags that are bits the pushed status is a byte already. *)
Lemma pushed_status_byte (c : CPU6502.t) :
  flag_bits c ->
  Z.land (Z.lor (CPU6502.get_status c) 0x10) 0xFF
  = Z.lor (CPU6502.get_status c) 0x10.
Proof.
  intros (HC & HZ & HI & HD & HV & HN). unfold CPU6502.get_status.
  destruct HC as [-> | ->], HZ as [-> | ->], HI as [-> | ->],
           HD as [-> | ->], HV as [-> | ->], HN as [-> | ->]; reflexivity.
Qed.

(** C5. Indirect JMP through a pointer whose low byte is $FF: the target's
    low byte is read at the pointer and its high byte at [pointer & 0xFF00]
    (the byte at [pointer + 1] plays no part), for 5 cycles.  And on any
    machine about to execute [6C FF 30] with $30FF = $40 and $3000 = $80,
    [step] returns 5 and leaves PC = $8040. *)
Theorem JMP_indirect_page_wrap :
  (∀ (W : Type) (s : CPU6502.machine W) (pl ph lo hi : int),
     let c := CPU6502.cpu s in
     let ptr := Z.lor (Z.shiftl ph 8) pl in
     peek s (CPU6502.PC c) = Some pl ->
     peek s (CPU6502.PC c + 1) = Some ph ->
     Z.land ptr 0xFF = 0xFF ->
     peek s ptr = Some lo ->
     peek s (Z.land ptr 0xFF00) = Some hi ->
     CPU6502.JMP_indirect s
     = Some (tt, CPU6502.mkMachine
                   (CPU6502.set_cycles (CPU6502.cycles c + 5)
                      (CPU6502.set_PC (Z.lor (Z.shiftl hi 8) lo) c))
                   (CPU6502.memory s) (CPU6502.devices s)))
  ∧ (∀ (W : Type) (s : CPU6502.machine W),
       let c := CPU6502.cpu s in
       no_interrupt c ->
       peek s (CPU6502.PC c) = Some 0x6C ->
       peek s (CPU6502.PC c + 1) = Some 0xFF ->
       peek s (CPU6502.PC c + 2) = Some 0x30 ->
       peek s 0x30FF = Some 0x40 ->
       peek s 0x3000 = Some 0x80 ->
       ∃ s', CPU6502.step s = Some (5, s')
             ∧ CPU6502.PC (CPU6502.cpu s') = 0x8040
             ∧ CPU6502.cycles (CPU6502.cpu s') = 5
             ∧ CPU6502.memory s' = CPU6502.memory s).
Proof.
  split.
  - intros W [c m w] pl ph lo hi. unfold peek. run.
    intros H0 H1 Hff Hlo Hhi.
    unfold CPU6502.JMP_indirect, CPU6502.indirect, CPU6502.absolute. run.
    rewrite H0. run. rewrite H1. run.
    apply Z.eqb_eq in Hff. rewrite Hff. run.
    rewrite Hlo. run. rewrite Hhi. run. reflexivity.
  - intros W [c m w]. unfold peek, no_interrupt. run.
    intros [Hn Hi] H0 H1 H2 Hlo Hhi.
    unfold CPU6502.step. run. rewrite Hn. run. rewrite Hi. run.
    rewrite H0. run. rewrite dispatch_JMP_indirect.
    unfold CPU6502.JMP_indirect, CPU6502.indirect, CPU6502.absolute. run.
    rewrite H1. run.
    replace (CPU6502.PC c + 1 + 1) with (CPU6502.PC c + 2) by lia.
    rewrite H2. run.
    change (Z.land (Z.lor (Z.shiftl 48 8) 255) 255 =? 255) with true. run.
    change (Z.lor (Z.shiftl 48 8) 255) with 0x30FF. rewrite Hlo. run.
    change (Z.land 12543 65280) with 0x3000. rewrite Hhi. run.
    eexists. split; [reflexivity|]. run. repeat split; reflexivity.
Qed.

(** Scenario 3 on a bare bus, where $3100 holds $99: through [step] from
    $0200, and [JMP_indirect] alone from the operand at $0201. *)
Lemma JMP_indirect_page_wrap_witness :
  no_interrupt (CPU6502.cpu jmp_scenario)
  ∧ peek jmp_scenario 0x3100 = Some 0x99
  ∧ (∃ s', CPU6502.step jmp_scenario = Some (5, s')
           ∧ CPU6502.PC (CPU6502.cpu s') = 0x8040)
  ∧ observe (λ s', CPU6502.PC (CPU6502.cpu s'))
            (CPU6502.JMP_indirect
               (CPU6502.mkMachine
                  (CPU6502.set_PC 0x0201 (CPU6502.cpu jmp_scenario))
                  (CPU6502.memory jmp_scenario) tt))
    = Some (tt, 0x8040).
Proof.
  assert (Hn : no_interrupt (CPU6502.cpu jmp_scenario)) by (split; reflexivity).
  assert (H0 : peek jmp_scenario 0x0200 = Some 0x6C) by (vm_compute; reflexivity).
  assert (H1 : peek jmp_scenario (0x0200 + 1) = Some 0xFF)
    by (vm_compute; reflexivity).
  assert (H2 : peek jmp_scenario (0x0200 + 2) = Some 0x30)
    by (vm_compute; reflexivity).
  assert (Hlo : peek jmp_scenario 0x30FF = Some 0x40)
    by (vm_compute; reflexivity).
  assert (Hhi : peek jmp_scenario 0x3000 = Some 0x80)
    by (vm_compute; reflexivity).
  split; [exact Hn|]. split; [vm_compute; reflexivity|]. split.
  - destruct (proj2 JMP_indirect_page_wrap unit jmp_scenario
                Hn H0 H1 H2 Hlo Hhi) as (s' & Hstep & Hpc & _).
    exists s'. split; [exact Hstep | exact Hpc].
  - rewrite (proj1 JMP_indirect_page_wrap unit
               (CPU6502.mkMachine
                  (CPU6502.set_PC 0x0201 (CPU6502.cpu jmp_scenario))
                  (CPU6502.memory jmp_scenario) tt)
               0xFF 0x30 0x40 0x80 H1 H2 eq_refl Hlo Hhi).
    reflexivity.
Defined.

(** C4 (as the code has it). BRK, with PC already past the opcode, on a
    bus whose stack page is RAM: the high then the low byte of [PC + 1] are
    pushed, then the status with bit 4 set; I becomes 1, PC is loaded from
    $FFFE/$FFFF and 7 cycles are added.  On scenario 5 (vector $1234,
    [00 00] at $0200) one [step] returns 7 with PC = $1234 and I = 1, and
    the three bytes on top of the stack are, top first, status|$10, $02,
    $02: the return address pushed is $0202. *)
Theorem BRK_pushes_return_address_and_status :
  (∀ (W : Type) (s : CPU6502.machine W) (lo hi : int),
     let c := CPU6502.cpu s in
     Memory.wf (CPU6502.memory s) ->
     0 <= CPU6502.SP c <= 255 ->
     flag_bits c ->
     (∀ a, 0x100 <= a <= 0x1FF -> plain_ram (CPU6502.memory s) a) ->
     peek s 0xFFFE = Some lo ->
     peek s 0xFFFF = Some hi ->
     ∃ s', CPU6502.BRK s = Some (tt, s')
       ∧ peek s' (0x100 + CPU6502.SP c)
         = Some (Z.land (Z.shiftr (CPU6502.PC c + 1) 8) 0xFF)
       ∧ peek s' (0x100 + (CPU6502.SP c - 1) mod 256)
         = Some (Z.land (CPU6502.PC c + 1) 0xFF)
       ∧ peek s' (0x100 + (CPU6502.SP c - 2) mod 256)
         = Some (Z.lor (CPU6502.get_status c) 0x10)
       ∧ CPU6502.SP (CPU6502.cpu s') = (CPU6502.SP c - 3) mod 256
       ∧ CPU6502.I (CPU6502.cpu s') = 1
       ∧ CPU6502.PC (CPU6502.cpu s') = Z.lor lo (Z.shiftl hi 8)
       ∧ CPU6502.cycles (CPU6502.cpu s') = CPU6502.cycles c + 7)
  ∧ observe (λ s', (CPU6502.PC (CPU6502.cpu s'), CPU6502.I (CPU6502.cpu s'),
                    stack_top3 s'))
            (CPU6502.step brk_scenario)
    = Some (7, (0x1234, 1,
                [ Some (Z.lor (CPU6502.get_status (CPU6502.cpu brk_scenario))
                              0x10);
                  Some 0x02; Some 0x02 ])).
Proof.
  split.
  - intros W [c m w] lo hi. unfold peek. run.
    intros Hwf HSP Hfl Hram Hlo Hhi.
    assert (E1 : Z.land (CPU6502.SP c - 1) 0xFF = (CPU6502.SP c - 1) mod 256)
      by apply mask8_mod.
    assert (E2 : Z.land ((CPU6502.SP c - 1) mod 256 - 1) 0xFF
                 = (CPU6502.SP c - 2) mod 256).
    { rewrite mask8_mod. Z.div_mod_to_equations. lia. }
    assert (E3 : Z.land ((CPU6502.SP c - 2) mod 256 - 1) 0xFF
                 = (CPU6502.SP c - 3) mod 256).
    { rewrite mask8_mod. Z.div_mod_to_equations. lia. }
    assert (B1 : 0 <= (CPU6502.SP c - 1) mod 256 <= 255)
      by (Z.div_mod_to_equations; lia).
    assert (B2 : 0 <= (CPU6502.SP c - 2) mod 256 <= 255)
      by (Z.div_mod_to_equations; lia).
    assert (N1 : (CPU6502.SP c - 1) mod 256 ≠ CPU6502.SP c)
      by (Z.div_mod_to_equations; lia).
    assert (N2 : (CPU6502.SP c - 2) mod 256 ≠ CPU6502.SP c)
      by (Z.div_mod_to_equations; lia).
    assert (N3 : (CPU6502.SP c - 2) mod 256 ≠ (CPU6502.SP c - 1) mod 256)
      by (Z.div_mod_to_equations; lia).
    unfold CPU6502.BRK. run.
    rewrite write_plain_ram by (done || lia || (apply Hram; lia)). run.
    rewrite E1.
    rewrite write_plain_ram
      by (auto using stored_wf || lia || (apply stored_plain_ram, Hram; lia)).
    run. rewrite E2.
    rewrite write_plain_ram
      by (auto using stored_wf || lia
          || (do 2 apply stored_plain_ram; apply Hram; lia)).
    run. rewrite E3.
    rewrite !read_stored_ne by lia. rewrite Hlo. run.
    rewrite !read_stored_ne by lia. rewrite Hhi. run.
    eexists. split; [reflexivity|]. run.
    change (CPU6502.get_status (CPU6502.set_SP _ (CPU6502.set_SP _ c)))
      with (CPU6502.get_status c).
    rewrite (pushed_status_byte c Hfl), !mask8_idem.
    repeat split.
    + rewrite !read_stored_ne by lia.
      apply read_stored_eq; (done || lia || (apply Hram; lia)).
    + rewrite read_stored_ne by lia.
      apply read_stored_eq;
        (auto using stored_wf || lia || (apply stored_plain_ram, Hram; lia)).
    + apply read_stored_eq;
        (auto using stored_wf || lia
         || (do 2 apply stored_plain_ram; apply Hram; lia)).
  - vm_compute. reflexivity.
Qed.

(** BRK at $0201 (PC past the opcode) on the bus of scenario 5. *)
Lemma BRK_pushes_return_address_and_status_witness :
  let s := machine_at 0x0201 [(0xFFFE, 0x34); (0xFFFF, 0x12)] in
  ∃ s', CPU6502.BRK s = Some (tt, s')
        ∧ peek s' 0x01FF = Some 0x02
        ∧ peek s' 0x01FE = Some 0x02
        ∧ peek s' 0x01FD = Some 0x30
        ∧ CPU6502.PC (CPU6502.cpu s') = 0x1234.
Proof.
  intros s.
  assert (Hwf : Memory.wf (CPU6502.memory s)).
  { split; [vm_compute; reflexivity | constructor]. }
  assert (HSP : 0 <= CPU6502.SP (CPU6502.cpu s) <= 255) by (simpl; lia).
  assert (Hfl : flag_bits (CPU6502.cpu s)) by (repeat split; left; reflexivity).
  assert (Hram : ∀ a, 0x100 <= a <= 0x1FF -> plain_ram (CPU6502.memory s) a).
  { intros a _. repeat split; apply lookup_empty. }
  assert (Hlo : peek s 0xFFFE = Some 0x34) by (vm_compute; reflexivity).
  assert (Hhi : peek s 0xFFFF = Some 0x12) by (vm_compute; reflexivity).
  destruct (proj1 BRK_pushes_return_address_and_status unit s 0x34 0x12
              Hwf HSP Hfl Hram Hlo Hhi)
    as (s' & HB & H1 & H2 & H3 & _ & _ & Hpc & _).
  exists s'. split; [exact HB|]. split; [exact H1|]. split; [exact H2|].
  split; [exact H3 | exact Hpc].
Defined.

(** C4, counterexample: on scenario 5 the bytes above the pushed status
    are $02 and $02; no byte of the three is $03, in either order. *)
Lemma BRK_scenario_stack_is_not_02_03 :
  observe stack_top3 (CPU6502.step brk_scenario)
    = Some (7, [Some 0x30; Some 0x02; Some 0x02])
  ∧ observe stack_top3 (CPU6502.step brk_scenario)
    ≠ Some (7, [Some 0x30; Some 0x02; Some 0x03])
  ∧ observe stack_top3 (CPU6502.step brk_scenario)
    ≠ Some (7, [Some 0x30; Some 0x03; Some 0x02]).
Proof.
  assert (H : observe stack_top3 (CPU6502.step brk_scenario)
              = Some (7, [Some 0x30; Some 0x02; Some 0x02]))
    by (vm_compute; reflexivity).
  rewrite H. repeat split; discriminate.
Qed.

(** *** One instruction at a time *)

Section Steps.
Context {W : Type}.
Implicit Types (c : CPU6502.t) (m : Memory.t W) (w : W).

Lemma step_CLC c m w :
  no_interrupt c -> Memory.read m w (CPU6502.PC c) = Some 0x18 ->
  ∃ c', CPU6502.step (CPU6502.mkMachine c m w)
        = Some (2, CPU6502.mkMachine c' m w)
        ∧ CPU6502.C c' = 0 ∧ CPU6502.A c' = CPU6502.A c
        ∧ CPU6502.D c' = CPU6502.D c ∧ CPU6502.PC c' = CPU6502.PC c + 1
        ∧ no_interrupt c'.
Proof.
  intros Hint H0. pose proof Hint as [Hn Hi].
  unfold CPU6502.step. run. rewrite Hn. run. rewrite Hi. run.
  fetch H0. rewrite dispatch_CLC. unfold CPU6502.CLC. run.
  eexists. split; [reflexivity|]. repeat split; assumption.
Qed.

Lemma step_LDA_immediate c m w value :
  no_interrupt c -> Memory.read m w (CPU6502.PC c) = Some 0xA9 ->
  Memory.read m w (CPU6502.PC c + 1) = Some value ->
  ∃ c', CPU6502.step (CPU6502.mkMachine c m w)
        = Some (2, CPU6502.mkMachine c' m w)
        ∧ CPU6502.A c' = value ∧ CPU6502.C c' = CPU6502.C c
        ∧ CPU6502.D c' = CPU6502.D c ∧ CPU6502.PC c' = CPU6502.PC c + 2
        ∧ no_interrupt c'.
Proof.
  intros Hint H0 H1. pose proof Hint as [Hn Hi].
  unfold CPU6502.step. run. rewrite Hn. run. rewrite Hi. run.
  fetch H0. rewrite dispatch_LDA_immediate.
  unfold CPU6502.LDA_immediate, CPU6502.immediate. run. fetch H1.
  eexists. split; [reflexivity|]. run. repeat split; (assumption || lia).
Qed.

Lemma step_ADC_immediate c m w value :
  no_interrupt c -> CPU6502.D c = 0 ->
  Memory.read m w (CPU6502.PC c) = Some 0x69 ->
  Memory.read m w (CPU6502.PC c + 1) = Some value ->
  ∃ c', CPU6502.step (CPU6502.mkMachine c m w)
        = Some (2, CPU6502.mkMachine c' m w)
        ∧ CPU6502.A c' = Z.land (CPU6502.A c + value + CPU6502.C c) 0xFF
        ∧ CPU6502.C c'
          = (if 0xFF <? CPU6502.A c + value + CPU6502.C c then 1 else 0).
Proof.
  intros Hint HD H0 H1. pose proof Hint as [Hn Hi].
  unfold CPU6502.step. run. rewrite Hn. run. rewrite Hi. run.
  fetch H0. rewrite dispatch_ADC_immediate.
  unfold CPU6502.ADC_immediate, CPU6502.immediate. run. fetch H1.
  unfold CPU6502._add_with_carry. run. rewrite HD.
  change (negb (0 =? 0)) with false. run.
  eexists. split; [reflexivity|]. run. split; reflexivity.
Qed.

End Steps.

(** C6. Binary ADC ([D = 0]) computes [temp = A + M + C], sets C to
    [temp > $FF], V to whether [(~(A ^ M) & (A ^ temp)) & $80] is nonzero,
    A to [temp & $FF], and Z and N from the new A.  And on any machine
    about to execute [CLC; LDA #a; ADC #b] with D = 0, three steps leave
    [A = (a + b) mod 256] and [C = 1] exactly when [a + b >= 256]. *)
Theorem ADC_binary :
  (∀ (c : CPU6502.t) (value : int),
     CPU6502.D c = 0 ->
     let temp := CPU6502.A c + value + CPU6502.C c in
     let c' := CPU6502._add_with_carry c value in
     CPU6502.C c' = (if 0xFF <? temp then 1 else 0)
     ∧ CPU6502.V c'
       = (if Z.land (Z.land (Z.lnot (Z.lxor (CPU6502.A c) value))
                            (Z.lxor (CPU6502.A c) temp)) 0x80 =? 0
          then 0 else 1)
     ∧ CPU6502.A c' = Z.land temp 0xFF
     ∧ CPU6502.Z c' = (if CPU6502.A c' =? 0 then 1 else 0)
     ∧ CPU6502.N c' = (if Z.land (CPU6502.A c') 0x80 =? 0 then 0 else 1))
  ∧ (∀ (W : Type) (s : CPU6502.machine W) (a b : int),
       let c := CPU6502.cpu s in
       no_interrupt c -> CPU6502.D c = 0 ->
       peek s (CPU6502.PC c) = Some 0x18 ->
       peek s (CPU6502.PC c + 1) = Some 0xA9 ->
       peek s (CPU6502.PC c + 2) = Some a ->
       peek s (CPU6502.PC c + 3) = Some 0x69 ->
       peek s (CPU6502.PC c + 4) = Some b ->
       ∃ s1 s2 s3,
         CPU6502.step s = Some (2, s1)
         ∧ CPU6502.step s1 = Some (2, s2)
         ∧ CPU6502.step s2 = Some (2, s3)
         ∧ CPU6502.A (CPU6502.cpu s3) = (a + b) mod 256
         ∧ CPU6502.C (CPU6502.cpu s3) = (if 256 <=? a + b then 1 else 0)).
Proof.
  split.
  - intros c value HD temp c'. subst c'. unfold CPU6502._add_with_carry.
    rewrite HD. change (negb (0 =? 0)) with false.
    cbn -[Z.add Z.land Z.lor Z.lxor Z.lnot Z.eqb Z.ltb].
    fold temp. rewrite mask8_idem.
    repeat split; try reflexivity; now destruct (_ =? 0).
  - intros W [c m w] a b. unfold peek.
    cbn [CPU6502.cpu CPU6502.memory CPU6502.devices].
    intros Hint HD H0 H1 H2 H3 H4.
    destruct (step_CLC c m w Hint H0)
      as (c1 & S1 & HC1 & HA1 & HD1 & HPC1 & Hint1).
    destruct (step_LDA_immediate c1 m w a Hint1)
      as (c2 & S2 & HA2 & HC2 & HD2 & HPC2 & Hint2).
    { now rewrite HPC1. }
    { rewrite HPC1.
      now replace (CPU6502.PC c + 1 + 1) with (CPU6502.PC c + 2) by lia. }
    destruct (step_ADC_immediate c2 m w b Hint2) as (c3 & S3 & HA3 & HC3).
    { congruence. }
    { rewrite HPC2, HPC1.
      now replace (CPU6502.PC c + 1 + 2) with (CPU6502.PC c + 3) by lia. }
    { rewrite HPC2, HPC1.
      now replace (CPU6502.PC c + 1 + 2 + 1) with (CPU6502.PC c + 4) by lia. }
    exists (CPU6502.mkMachine c1 m w), (CPU6502.mkMachine c2 m w),
           (CPU6502.mkMachine c3 m w).
    repeat split; try assumption; cbn [CPU6502.cpu].
    + rewrite HA3, HA2, HC2, HC1, Z.add_0_r. apply mask8_mod.
    + rewrite HC3, HA2, HC2, HC1, Z.add_0_r.
      destruct (Z.ltb_spec 255 (a + b)), (Z.leb_spec 256 (a + b)); lia.
Qed.

(** $C8 + $64 = $12C: A = $2C with the carry set. *)
Lemma ADC_binary_witness :
  CPU6502.A (CPU6502._add_with_carry (CPU6502.set_A 0xC8 CPU6502.init) 0x64)
    = 0x2C
  ∧ ∃ s1 s2 s3,
      CPU6502.step (adc_scenario 0xC8 0x64) = Some (2, s1)
      ∧ CPU6502.step s1 = Some (2, s2)
      ∧ CPU6502.step s2 = Some (2, s3)
      ∧ CPU6502.A (CPU6502.cpu s3) = 0x2C
      ∧ CPU6502.C (CPU6502.cpu s3) = 1.
Proof.
  split.
  - destruct (proj1 ADC_binary (CPU6502.set_A 0xC8 CPU6502.init) 0x64 eq_refl)
      as (_ & _ & HA & _).
    exact HA.
  - assert (Hn : no_interrupt (CPU6502.cpu (adc_scenario 0xC8 0x64)))
      by (split; reflexivity).
    assert (H0 : peek (adc_scenario 0xC8 0x64) 0x0200 = Some 0x18)
      by (vm_compute; reflexivity).
    assert (H1 : peek (adc_scenario 0xC8 0x64) (0x0200 + 1) = Some 0xA9)
      by (vm_compute; reflexivity).
    assert (H2 : peek (adc_scenario 0xC8 0x64) (0x0200 + 2) = Some 0xC8)
      by (vm_compute; reflexivity).
    assert (H3 : peek (adc_scenario 0xC8 0x64) (0x0200 + 3) = Some 0x69)
      by (vm_compute; reflexivity).
    assert (H4 : peek (adc_scenario 0xC8 0x64) (0x0200 + 4) = Some 0x64)
      by (vm_compute; reflexivity).
    exact (proj2 ADC_binary unit (adc_scenario 0xC8 0x64) 0xC8 0x64
             Hn eq_refl H0 H1 H2 H3 H4).
Defined.

(** C1, at the failing input.  The interrupt entry does add its 7 cycles
    to the counter, but [step] zeroes the counter after the entry, so the
    call that services an NMI (or an IRQ with I = 0) before a NOP returns 2
    and adds 2, not 9, to the running total; the entry itself did happen
    (PC went through the vector, three bytes were pushed, I = 1). *)
Theorem step_discards_interrupt_cycles :
  observe (λ s', CPU6502.cycles (CPU6502.cpu s'))
          (CPU6502._handle_nmi nmi_scenario)
    = Some (tt, 7)
  ∧ observe (λ s', let c := CPU6502.cpu s' in
                   (CPU6502.total_cycles c, CPU6502.PC c, CPU6502.SP c,
                    CPU6502.I c, CPU6502.nmi_pending c))
            (CPU6502.step nmi_scenario)
    = Some (2, (2, 0x0301, 0xFC, 1, false))
  ∧ observe (λ s', let c := CPU6502.cpu s' in
                   (CPU6502.total_cycles c, CPU6502.PC c, CPU6502.SP c,
                    CPU6502.I c, CPU6502.irq_pending c))
            (CPU6502.step irq_scenario)
    = Some (2, (2, 0x0301, 0xFC, 1, false)).
Proof.
  split; [vm_compute; reflexivity|].
  split; vm_compute; reflexivity.
Qed.

(** C2, at the failing inputs.  With every register within its bounds, a
    NOP fetched at $FFFF leaves PC = $10000 = 65536, and so does an RTS
    that pulls the return address $FFFF: neither [self.PC += 1] nor RTS
    masks PC to 16 bits. *)
Theorem step_PC_exceeds_16_bits :
  CPU6502.PC (CPU6502.cpu last_byte_scenario) = 0xFFFF
  ∧ observe (λ s', CPU6502.PC (CPU6502.cpu s'))
            (CPU6502.step last_byte_scenario)
    = Some (2, 0x10000)
  ∧ CPU6502.PC (CPU6502.cpu rts_scenario) = 0x0200
  ∧ observe (λ s', CPU6502.PC (CPU6502.cpu s'))
            (CPU6502.step rts_scenario)
    = Some (6, 0x10000).
Proof.
  split; [reflexivity|]. split; [vm_compute; reflexivity|].
  split; [reflexivity|]. vm_compute; reflexivity.
Qed.

(** C3, at the failing inputs.  In decimal mode neither [_add_with_carry]
    nor [_subtract_with_carry] assigns the accumulator: the BCD result only
    feeds Z and N.  $15 + $27 leaves A = $15 (the BCD sum is $42) and
    $42 - $15 leaves A = $42 (the BCD difference is $27); Z, N come from
    the result and V is 0. *)
Theorem decimal_mode_keeps_accumulator :
  (∀ (c : CPU6502.t) (value : int),
     CPU6502.D c ≠ 0 ->
     CPU6502.A (CPU6502._add_with_carry c value) = CPU6502.A c
     ∧ CPU6502.A (CPU6502._subtract_with_carry c value) = CPU6502.A c
     ∧ CPU6502.V (CPU6502._add_with_carry c value) = 0
     ∧ CPU6502.V (CPU6502._subtract_with_carry c value) = 0)
  ∧ (let c' := CPU6502._add_with_carry (decimal_cpu 0x15 0) 0x27 in
     (CPU6502.A c', CPU6502.C c', CPU6502.Z c', CPU6502.N c', CPU6502.V c')
     = (0x15, 0, 0, 0, 0))
  ∧ (let c' := CPU6502._subtract_with_carry (decimal_cpu 0x42 1) 0x15 in
     (CPU6502.A c', CPU6502.C c', CPU6502.Z c', CPU6502.N c', CPU6502.V c')
     = (0x42, 1, 0, 0, 0)).
Proof.
  split; [|split; vm_compute; reflexivity].
  intros c value HD.
  unfold CPU6502._subtract_with_carry, CPU6502._add_with_carry.
  destruct (Z.eqb_spec (CPU6502.D c) 0) as [|_]; [done|].
  cbn [negb]. repeat case_match; simplify_eq; repeat split; reflexivity.
Qed.

(** ADC #$27 on A = $15 in decimal mode. *)
Lemma decimal_mode_keeps_accumulator_witness :
  CPU6502.D (decimal_cpu 0x15 0) ≠ 0
  ∧ CPU6502.A (CPU6502._add_with_carry (decimal_cpu 0x15 0) 0x27) = 0x15.
Proof.
  assert (HD : CPU6502.D (decimal_cpu 0x15 0) ≠ 0) by (simpl; lia).
  split; [exact HD|].
  exact (proj1 (proj1 decimal_mode_keeps_accumulator (decimal_cpu 0x15 0) 0x27
                  HD)).
Defined.

(** * Further properties of the code *)

(** ** Bytes and words *)

Lemma byte_in (x : int) : byte x -> x ∈ bytes256.
Proof.
  intros [H0 H1]. unfold bytes256. apply list_elem_of_fmap.
  exists (Z.to_nat x). split; [lia|]. apply list_elem_of_In, in_seq. lia.
Qed.

(** A boolean property of a byte holds when it holds of 0..255. *)
Lemma byte_check1 (P : int -> bool) :
  forallb P bytes256 = true -> ∀ a, byte a -> P a = true.
Proof.
  intros H a Ha. rewrite forallb_forall in H. apply H.
  apply list_elem_of_In, byte_in, Ha.
Qed.

Lemma byte_check2 (P : int -> int -> bool) :
  forallb (λ a, forallb (P a) bytes256) bytes256 = true ->
  ∀ a b, byte a -> byte b -> P a b = true.
Proof.
  intros H a b Ha Hb.
  pose proof (byte_check1 _ H a Ha) as H'. simpl in H'.
  exact (byte_check1 _ H' b Hb).
Qed.

Lemma byte_mask (x : int) : byte (Z.land x 0xFF).
Proof. rewrite mask8_mod. unfold byte. Z.div_mod_to_equations. lia. Qed.

Lemma byte_land (a b : int) : byte a -> byte b -> byte (Z.land a b).
Proof.
  intros Ha Hb.
  pose proof (byte_check2 (λ a b, (0 <=? Z.land a b) && (Z.land a b <=? 255))
                ltac:(vm_compute; reflexivity) a b Ha Hb) as H.
  apply andb_true_iff in H as [Hlo Hhi]. split; lia.
Qed.

Lemma byte_lor (a b : int) : byte a -> byte b -> byte (Z.lor a b).
Proof.
  intros Ha Hb.
  pose proof (byte_check2 (λ a b, (0 <=? Z.lor a b) && (Z.lor a b <=? 255))
                ltac:(vm_compute; reflexivity) a b Ha Hb) as H.
  apply andb_true_iff in H as [Hlo Hhi]. split; lia.
Qed.

Lemma byte_lxor (a b : int) : byte a -> byte b -> byte (Z.lxor a b).
Proof.
  intros Ha Hb.
  pose proof (byte_check2 (λ a b, (0 <=? Z.lxor a b) && (Z.lxor a b <=? 255))
                ltac:(vm_compute; reflexivity) a b Ha Hb) as H.
  apply andb_true_iff in H as [Hlo Hhi]. split; lia.
Qed.

Lemma byte_shiftr1 (a : int) : byte a -> byte (Z.shiftr a 1).
Proof.
  intros [H0 H1]. rewrite Z.shiftr_div_pow2 by lia. change (2 ^ 1) with 2.
  split; Z.div_mod_to_equations; lia.
Qed.

Lemma byte_ror (a c : int) :
  byte a -> bit c -> byte (Z.lor (Z.shiftr a 1) (Z.shiftl c 7)).
Proof.
  intros Ha Hc. apply byte_lor; [by apply byte_shiftr1|].
  destruct Hc as [-> | ->]; split; by vm_compute.
Qed.

Lemma bit_land1 (x : int) : bit (Z.land x 1).
Proof.
  change 1 with (Z.ones 1). rewrite Z.land_ones by lia. change (2 ^ 1) with 2.
  unfold bit. Z.div_mod_to_equations. lia.
Qed.

Lemma bit_if (b : bool) : bit (if b then 1 else 0).
Proof. destruct b; [by right | by left]. Qed.

Lemma word_lor (lo hi : int) :
  byte lo -> byte hi -> 0 <= Z.lor (Z.shiftl hi 8) lo <= 0xFFFF.
Proof.
  intros Hl Hh.
  pose proof (byte_check2
                (λ lo hi, (0 <=? Z.lor (Z.shiftl hi 8) lo)
                          && (Z.lor (Z.shiftl hi 8) lo <=? 0xFFFF))
                ltac:(vm_compute; reflexivity) lo hi Hl Hh) as H.
  apply andb_true_iff in H as [Hlo Hhi]. lia.
Qed.

Lemma word_lor' (lo hi : int) :
  byte lo -> byte hi -> 0 <= Z.lor lo (Z.shiftl hi 8) <= 0xFFFF.
Proof. rewrite Z.lor_comm. apply word_lor. Qed.

Lemma word_value (lo hi : int) :
  byte lo -> byte hi -> Z.lor (Z.shiftl hi 8) lo = hi * 256 + lo.
Proof.
  intros Hl Hh.
  pose proof (byte_check2
    (λ lo hi, Z.lor (Z.shiftl hi 8) lo =? hi * 256 + lo)
    ltac:(vm_compute; reflexivity) lo hi Hl Hh) as H.
  by apply Z.eqb_eq in H.
Qed.

Lemma mask16_mod (x : int) : Z.land x 0xFFFF = x mod 0x10000.
Proof. change 0xFFFF with (Z.ones 16). now rewrite Z.land_ones by lia. Qed.

Lemma mask16_range (x : int) : 0 <= Z.land x 0xFFFF <= 0xFFFF.
Proof.
  rewrite mask16_mod. pose proof (Z.mod_pos_bound x 0x10000 ltac:(lia)). lia.
Qed.

Lemma mask16_idem (x : int) :
  Z.land (Z.land x 0xFFFF) 0xFFFF = Z.land x 0xFFFF.
Proof. now rewrite <- Z.land_assoc. Qed.

Lemma succ_mask_ne (addr : int) :
  Z.land (addr + 1) 0xFFFF ≠ Z.land addr 0xFFFF.
Proof. rewrite !mask16_mod. Z.div_mod_to_equations. lia. Qed.

(** A 16-bit value is its low byte with its high byte above it. *)
Lemma word_split (value : int) :
  Z.lor (Z.land value 0xFF) (Z.shiftl (Z.land (Z.shiftr value 8) 0xFF) 8)
  = Z.land value 0xFFFF.
Proof.
  apply Z.bits_inj'. intros n Hn.
  rewrite Z.lor_spec, !Z.land_spec.
  change 0xFF with (Z.ones 8). change 0xFFFF with (Z.ones 16).
  destruct (Z.lt_ge_cases n 8) as [H8|H8].
  - rewrite Z.shiftl_spec_low by lia.
    rewrite !Z.ones_spec_low by lia. now rewrite orb_false_r.
  - rewrite Z.shiftl_spec by lia. rewrite Z.land_spec, Z.shiftr_spec by lia.
    replace (n - 8 + 8) with n by lia.
    rewrite (Z.ones_spec_high 8 n) by lia. rewrite andb_false_r. simpl.
    destruct (Z.lt_ge_cases n 16).
    + now rewrite !Z.ones_spec_low by lia.
    + now rewrite !Z.ones_spec_high by lia.
Qed.

Lemma word_join (x : int) :
  0 <= x <= 0xFFFF ->
  Z.lor (Z.shiftl (Z.land (Z.shiftr x 8) 0xFF) 8) (Z.land x 0xFF) = x.
Proof.
  intros Hx. rewrite Z.lor_comm, word_split. by apply mask16_id.
Qed.

Lemma getitem_elem (a : list int) (k v : int) : getitem a k = Some v -> v ∈ a.
Proof.
  unfold getitem. case_match; [|done]. apply list_elem_of_lookup_2.
Qed.

(** An index is refused exactly when it lies outside [-len, len). *)
Lemma getitem_None_iff (a : list int) (k : int) :
  getitem a k = None
  ↔ ¬ (- Z.of_nat (length a) <= k < Z.of_nat (length a)).
Proof.
  unfold getitem. cbv zeta.
  destruct (Z.ltb_spec k 0).
  - destruct (Z.leb_spec 0 (k + Z.of_nat (length a)));
      destruct (Z.ltb_spec (k + Z.of_nat (length a)) (Z.of_nat (length a)));
      simpl; try lia.
    + split; [intros Hn; apply lookup_ge_None in Hn; lia | lia].
    + split; [lia | done].
  - destruct (Z.leb_spec 0 k); [|lia].
    destruct (Z.ltb_spec k (Z.of_nat (length a))); simpl.
    + split; [intros Hn; apply lookup_ge_None in Hn; lia | lia].
    + split; [lia | done].
Qed.

Lemma setitem_Some (a a' : list int) (k b : int) :
  setitem a k b = Some a' ->
  ∃ i, (i < length a)%nat ∧ a' = <[i := b]> a ∧ byte b.
Proof.
  unfold setitem. case_match eqn:E; [|done]. intros [= <-].
  apply andb_true_iff in E as [E Hb]. apply andb_true_iff in E as [E1 E2].
  unfold is_byte in Hb. apply andb_true_iff in Hb as [Hb1 Hb2].
  eexists. split; [|split; [reflexivity|unfold byte; lia]]. lia.
Qed.

Lemma list_setitem_in_range (a : list int) (k b : int) :
  0 <= k < Z.of_nat (length a) ->
  list_setitem a k b = Some (<[Z.to_nat k := b]> a).
Proof.
  intros H. unfold list_setitem.
  destruct (Z.ltb_spec k 0); [lia|].
  destruct (Z.leb_spec 0 k); [|lia].
  destruct (Z.ltb_spec k (Z.of_nat (length a))); [|lia]. reflexivity.
Qed.

Lemma list_setitem_is_Some (a : list int) (k b : int) :
  is_Some (getitem a k) -> is_Some (list_setitem a k b).
Proof.
  unfold getitem, list_setitem.
  destruct (_ && _); [by eexists | by intros [? ?]].
Qed.

Lemma dict_get_elem {V : Type} (d : list (int * V)) (k : int) (v : V) :
  dict_get d k = Some v -> (k, v) ∈ d.
Proof.
  induction d as [|[k' v'] d IH]; simpl; [done|].
  destruct (Z.eqb_spec k' k) as [->|_].
  - intros [= ->]. left.
  - intros H. right. by apply IH.
Qed.

(** ** The bus: totality, round trips, overlays and callbacks *)

Lemma ram_with_length (cells : list (int * int)) :
  length (ram_with cells) = Z.to_nat 0x10000.
Proof.
  unfold ram_with. induction cells as [|[a b] cells IH]; cbn [foldr].
  - apply length_replicate.
  - now rewrite length_insert.
Qed.

Lemma bus_with_wf (cells : list (int * int)) : Memory.wf (bus_with cells).
Proof.
  split; [|constructor]. unfold bus_with. cbn [Memory.ram].
  rewrite ram_with_length. apply Z2Nat.id. lia.
Qed.

Lemma bus_with_plain_ram (cells : list (int * int)) (a : int) :
  plain_ram (bus_with cells) a.
Proof. done. Qed.

Lemma bus_with_stack_in_ram (cells : list (int * int)) :
  stack_in_ram (bus_with cells).
Proof. intros a _. apply bus_with_plain_ram. Qed.

Lemma byte_bus_bus_with (cells : list (int * int)) :
  Forall (λ e, byte e.2) cells -> byte_bus (bus_with cells) tt.
Proof.
  intros Hc. split; [|split].
  - intros a h w'. unfold bus_with. simpl. by rewrite lookup_empty.
  - unfold bus_with, ram_with. cbn [Memory.ram].
    induction Hc as [|[a b] cells Hb Hc IH]; cbn [foldr].
    + apply Forall_replicate. unfold byte. lia.
    + by apply Forall_insert.
  - constructor.
Qed.

Section BusAccess.
Context {W : Type}.
Implicit Types (m : Memory.t W) (w : W).

Lemma read_mask m w addr :
  Memory.read m w (Z.land addr 0xFFFF) = Memory.read m w addr.
Proof. unfold Memory.read. now rewrite mask16_idem. Qed.

Lemma write_mask m w addr value :
  Memory.write m w (Z.land addr 0xFFFF) value = Memory.write m w addr value.
Proof. unfold Memory.write. now rewrite mask16_idem. Qed.

(** Every address resolves: with 64 KiB of RAM and overlays of the size
    they record, a read never raises. *)
Lemma read_total m w addr : Memory.wf m -> is_Some (Memory.read m w addr).
Proof.
  intros [Hlen Hroms]. unfold Memory.read.
  pose proof (mask16_range addr) as Hr.
  destruct (Memory.io_read_handlers m !! Z.land addr 0xFFFF); [by eexists|].
  destruct (Memory.find_rom (Memory.roms m) (Z.land addr 0xFFFF))
    as [[ra d]|] eqn:Ef.
  - destruct (find_rom_Some _ _ _ _ Ef) as (sz & Hin & Hrange).
    rewrite Forall_forall in Hroms. specialize (Hroms _ Hin). simpl in Hroms.
    apply getitem_is_Some. lia.
  - apply getitem_is_Some. lia.
Qed.

Lemma write_total m w addr value :
  Memory.wf m ->
  ∃ m' w', Memory.write m w addr value = Some (m', w') ∧ Memory.wf m'.
Proof.
  intros [Hlen Hroms]. unfold Memory.write.
  pose proof (mask16_range addr) as Hr.
  destruct (Memory.io_write_handlers m !! Z.land addr 0xFFFF);
    [by eexists _, _|].
  destruct (Memory.find_rom (Memory.roms m) (Z.land addr 0xFFFF));
    [by eexists _, _|].
  rewrite setitem_in_range by (apply mask8_is_byte || lia).
  eexists _, _. split; [reflexivity|].
  split; [|done]. simpl. now rewrite length_insert.
Qed.

Lemma byte_bus_read m w addr v :
  byte_bus m w -> Memory.read m w addr = Some v -> byte v.
Proof.
  intros (Hh & Hram & Hrom). unfold Memory.read.
  destruct (Memory.io_read_handlers m !! Z.land addr 0xFFFF) as [h|] eqn:Eh.
  - intros [= <-]. by eapply Hh.
  - destruct (Memory.find_rom (Memory.roms m) (Z.land addr 0xFFFF))
      as [[ra d]|] eqn:Ef.
    + intros Hg. apply getitem_elem in Hg.
      destruct (find_rom_Some _ _ _ _ Ef) as (sz & Hin & _).
      rewrite Forall_forall in Hrom. specialize (Hrom _ Hin). simpl in Hrom.
      rewrite Forall_forall in Hrom. by apply Hrom.
    + intros Hg. apply getitem_elem in Hg.
      rewrite Forall_forall in Hram. by apply Hram.
Qed.

Lemma byte_bus_write m w addr value m' w' :
  byte_bus m w -> Memory.write m w addr value = Some (m', w') ->
  byte_bus m' w'.
Proof.
  intros (Hh & Hram & Hrom). unfold Memory.write.
  destruct (Memory.io_write_handlers m !! Z.land addr 0xFFFF);
    [by intros [= <- <-]|].
  destruct (Memory.find_rom (Memory.roms m) (Z.land addr 0xFFFF));
    [by intros [= <- <-]|].
  destruct (setitem _ _ _) as [ram'|] eqn:Es; [|done].
  intros [= <- <-]. split; [done|]. split; [|done]. simpl.
  destruct (setitem_Some _ _ _ _ Es) as (i & Hi & -> & Hb).
  by apply Forall_insert.
Qed.

(** A store to a RAM cell, at any integer address: the cell reads back the
    value masked to 8 bits, the other addresses read as before. *)
Lemma write_then_read m w addr value :
  Memory.wf m -> plain_ram m (Z.land addr 0xFFFF) ->
  let m' := stored m (Z.land addr 0xFFFF) (Z.land value 0xFF) in
  Memory.write m w addr value = Some (m', w)
  ∧ Memory.read m' w addr = Some (Z.land value 0xFF)
  ∧ ∀ a, Z.land a 0xFFFF ≠ Z.land addr 0xFFFF ->
         Memory.read m' w a = Memory.read m w a.
Proof.
  intros Hwf Hplain m'. pose proof (mask16_range addr) as Hr.
  split; [|split].
  - rewrite <- write_mask. by apply write_plain_ram.
  - rewrite <- read_mask. by apply read_stored_eq.
  - intros a Hne. rewrite <- (read_mask _ _ a), <- (read_mask m w a).
    apply read_stored_ne; [done | apply mask16_range | done].
Qed.

(** Registering under a base that is not registered yet keeps the overlay
    an address already resolves to. *)
Lemma find_rom_dict_set_old l a r d addr e :
  dict_get l addr = None -> Memory.find_rom l a = Some (r, d) ->
  Memory.find_rom (dict_set l addr e) a = Some (r, d).
Proof.
  induction l as [|[k [d' sz]] l IH]; simpl; [done|].
  destruct (Z.eqb_spec k addr) as [->|Hne]; [done|]. intros Hnone. simpl.
  destruct ((k <=? a) && (a <? k + sz)); [done|]. by apply IH.
Qed.

Lemma find_rom_dict_set_new l a addr data size :
  Memory.find_rom l a = None -> addr <= a < addr + size ->
  Memory.find_rom (dict_set l addr (data, size)) a = Some (addr, data).
Proof.
  intros Hnone Hr.
  assert (Hin : (addr <=? a) && (a <? addr + size) = true).
  { apply andb_true_iff. split; [apply Z.leb_le | apply Z.ltb_lt]; lia. }
  induction l as [|[k [d' sz]] l IH]; simpl.
  - now rewrite Hin.
  - simpl in Hnone.
    destruct ((k <=? a) && (a <? k + sz)) eqn:Hk; [done|].
    destruct (Z.eqb_spec k addr) as [->|Hne]; simpl.
    + now rewrite Hin.
    + rewrite Hk. by apply IH.
Qed.

Lemma load_rom_roms m data addr m' :
  Memory.load_rom m data addr = Some m' ->
  Memory.roms m' = dict_set (Memory.roms m) addr (data, Z.of_nat (length data))
  ∧ Memory.io_read_handlers m' = Memory.io_read_handlers m
  ∧ Memory.io_write_handlers m' = Memory.io_write_handlers m.
Proof.
  unfold Memory.load_rom. destruct (forallb is_byte data); [|done].
  destruct (Memory.copy_to_ram _ _ _ _); [|done]. by intros [= <-].
Qed.

Lemma load_rom_total m data addr :
  forallb is_byte data = true -> 0 <= addr ->
  is_Some (Memory.load_rom m data addr).
Proof.
  intros Hb Haddr. unfold Memory.load_rom. rewrite Hb.
  destruct (copy_to_ram_total data (Memory.ram m) addr 0 Hb Haddr)
    as (ram' & -> & _); [lia|]. by eexists.
Qed.

(** X1. A bus access never raises, whatever integer is given as address or
    value: on a bus with 64 KiB of RAM and overlays of the size they
    record (and callbacks that return), [read] returns a value for every
    address, the same as at the address reduced modulo $10000, and [write]
    returns and leaves such a bus. *)
Theorem bus_access_never_raises m w (addr value : int) :
  Memory.wf m ->
  (∃ b, Memory.read m w addr = Some b
        ∧ Memory.read m w (addr mod 0x10000) = Some b)
  ∧ ∃ m' w', Memory.write m w addr value = Some (m', w') ∧ Memory.wf m'.
Proof.
  intros Hwf. split.
  - destruct (read_total m w addr Hwf) as [b Hb]. exists b. split; [done|].
    rewrite <- mask16_mod. now rewrite read_mask.
  - by apply write_total.
Qed.

(** X2. When the read callbacks return bytes and RAM and the overlays hold
    bytes, every read returns a value in [0, 255], and a write, to RAM, to
    an overlay or through a callback, keeps the bus that way. *)
Theorem bus_values_are_bytes m w (addr value : int) :
  byte_bus m w ->
  (∀ b, Memory.read m w addr = Some b -> 0 <= b <= 255)
  ∧ (∀ m' w', Memory.write m w addr value = Some (m', w') ->
       byte_bus m' w').
Proof.
  intros Hb. split.
  - intros b. apply (byte_bus_read _ _ _ _ Hb).
  - intros m' w'. apply (byte_bus_write _ _ _ _ _ _ Hb).
Qed.

(** X3. Write then read on RAM: where the address (modulo $10000) has no
    callback and no overlay, [write] succeeds and leaves the devices alone,
    a [read] at the same address returns the value masked to 8 bits, and
    every address that differs modulo $10000 reads as before. *)
Theorem bus_write_read_round_trip m w (addr value : int) :
  Memory.wf m -> plain_ram m (Z.land addr 0xFFFF) ->
  ∃ m', Memory.write m w addr value = Some (m', w)
        ∧ Memory.read m' w addr = Some (Z.land value 0xFF)
        ∧ ∀ a, Z.land a 0xFFFF ≠ Z.land addr 0xFFFF ->
               Memory.read m' w a = Memory.read m w a.
Proof.
  intros Hwf Hplain. eexists. apply write_then_read; assumption.
Qed.

(** X4. [write_word] then [read_word] on RAM returns the value masked to
    16 bits, low byte at [addr] and high byte at [addr + 1] modulo $10000:
    a word written at $FFFF wraps to $0000. *)
Theorem word_write_read_round_trip m w (addr value : int) :
  Memory.wf m -> plain_ram m (Z.land addr 0xFFFF) ->
  plain_ram m (Z.land (addr + 1) 0xFFFF) ->
  ∃ m', Memory.write_word m w addr value = Some (m', w)
        ∧ Memory.read_word m' w addr = Some (Z.land value 0xFFFF)
        ∧ Memory.read m' w addr = Some (Z.land value 0xFF)
        ∧ Memory.wf m'.
Proof.
  intros Hwf Hlo Hhi. unfold Memory.write_word, Memory.read_word.
  destruct (write_then_read m w addr (Z.land value 0xFF) Hwf Hlo)
    as (-> & Hr1 & _).
  set (m1 := stored m _ _) in *.
  assert (Hwf1 : Memory.wf m1) by by apply stored_wf.
  assert (Hhi1 : plain_ram m1 (Z.land (addr + 1) 0xFFFF)) by done.
  destruct (write_then_read m1 w (addr + 1) (Z.land (Z.shiftr value 8) 0xFF)
              Hwf1 Hhi1) as (-> & Hr2 & Hframe).
  eexists. split; [reflexivity|].
  rewrite Hr2.
  rewrite (Hframe addr) by (intros E; by apply (succ_mask_ne addr)).
  rewrite Hr1. rewrite !mask8_idem. rewrite word_split.
  split; [done|]. split; [done | by apply stored_wf].
Qed.

(** X5. The overlay registered first keeps its addresses: when [load_rom]
    registers an image under a base that is not registered yet, an address
    that an existing overlay serves is still served by that overlay, and
    reads there return what they returned before. *)
Theorem later_overlay_never_shadows m w (data : list int) (addr a : int)
    m' rom_addr rom_data :
  dict_get (Memory.roms m) addr = None ->
  Memory.find_rom (Memory.roms m) (Z.land a 0xFFFF)
  = Some (rom_addr, rom_data) ->
  Memory.load_rom m data addr = Some m' ->
  Memory.find_rom (Memory.roms m') (Z.land a 0xFFFF)
  = Some (rom_addr, rom_data)
  ∧ Memory.read m' w a = Memory.read m w a.
Proof.
  intros Hnew Hfind Hload.
  destruct (load_rom_roms _ _ _ _ Hload) as (Hroms & Hrd & _).
  assert (Hfind' : Memory.find_rom (Memory.roms m') (Z.land a 0xFFFF)
                   = Some (rom_addr, rom_data)).
  { rewrite Hroms. by apply find_rom_dict_set_old. }
  split; [done|]. unfold Memory.read. now rewrite Hrd, Hfind, Hfind'.
Qed.

(** X6. A loaded image is readable and write-protected: after [load_rom]
    of a byte image at [addr], a cell [addr + i] of the image inside the
    address space, with no callback and outside the overlays registered
    before, reads as byte [i] of the image, and a write there changes
    nothing. *)
Theorem loaded_image_is_read_only m w (data : list int) (addr i b : int) :
  forallb is_byte data = true -> 0 <= addr -> addr + i <= 0xFFFF ->
  data !! Z.to_nat i = Some b -> 0 <= i ->
  Memory.io_read_handlers m !! (addr + i) = None ->
  Memory.io_write_handlers m !! (addr + i) = None ->
  Memory.find_rom (Memory.roms m) (addr + i) = None ->
  ∃ m', Memory.load_rom m data addr = Some m'
        ∧ Memory.read m' w (addr + i) = Some b
        ∧ ∀ value, Memory.write m' w (addr + i) value = Some (m', w).
Proof.
  intros Hb Haddr Hhi Hi Hi0 Hrd Hwr Hfind.
  destruct (load_rom_total m data addr Hb Haddr) as [m' Hload].
  exists m'. split; [done|].
  destruct (load_rom_roms _ _ _ _ Hload) as (Hroms & Hrd' & Hwr').
  assert (Hlen : i < Z.of_nat (length data)).
  { apply lookup_lt_Some in Hi. lia. }
  assert (Hfind' : Memory.find_rom (Memory.roms m') (addr + i)
                   = Some (addr, data)).
  { rewrite Hroms. apply find_rom_dict_set_new; [done | lia]. }
  split.
  - unfold Memory.read. rewrite mask16_id by lia.
    rewrite Hrd', Hrd, Hfind'. rewrite getitem_in_range by lia.
    now replace (addr + i - addr) with i by lia.
  - intros value. unfold Memory.write. rewrite mask16_id by lia.
    now rewrite Hwr', Hwr, Hfind'.
Qed.

(** X7. After [register_io_handler(addr, read_handler)], a read at any
    integer address equal to [addr] modulo $10000 returns the callback's
    result, every other read is unchanged, and a callback registered under
    an [addr] outside [0, $FFFF] is never reached. *)
Theorem registered_callback_dispatch m w (addr a : int) (h : W -> int)
    (wh : option (int -> W -> W)) :
  let m' := Memory.register_io_handler m addr (Some h) wh in
  (Z.land a 0xFFFF = addr -> Memory.read m' w a = Some (h w))
  ∧ (Z.land a 0xFFFF ≠ addr -> Memory.read m' w a = Memory.read m w a)
  ∧ (¬ 0 <= addr <= 0xFFFF -> Memory.read m' w a = Memory.read m w a).
Proof.
  intros m'.
  assert (Hne : Z.land a 0xFFFF ≠ addr ->
                Memory.read m' w a = Memory.read m w a).
  { intros Hne. unfold Memory.read. simpl.
    now rewrite lookup_insert_ne by done. }
  split; [|split; [exact Hne|]].
  - intros <-. unfold Memory.read. simpl. now rewrite lookup_insert_eq.
  - intros Hout. apply Hne. pose proof (mask16_range a). lia.
Qed.

End BusAccess.

(** Address -1 is $FFFF; the write of $1FF stores $FF. *)
Lemma bus_access_never_raises_witness :
  (∃ b, Memory.read (bus_with [(0xFFFF, 0x42)]) tt (-1) = Some b
        ∧ Memory.read (bus_with [(0xFFFF, 0x42)]) tt ((-1) mod 0x10000)
          = Some b)
  ∧ ∃ m' w', Memory.write (bus_with [(0xFFFF, 0x42)]) tt (-1) 0x1FF
             = Some (m', w') ∧ Memory.wf m'.
Proof.
  apply (bus_access_never_raises (bus_with [(0xFFFF, 0x42)]) tt (-1) 0x1FF).
  apply bus_with_wf.
Defined.

(** A RAM cell holding $42. *)
Lemma bus_values_are_bytes_witness :
  byte_bus (bus_with [(0x0200, 0x42)]) tt
  ∧ ∃ b, Memory.read (bus_with [(0x0200, 0x42)]) tt 0x0200 = Some b
         ∧ 0 <= b <= 255.
Proof.
  assert (Hb : byte_bus (bus_with [(0x0200, 0x42)]) tt).
  { apply byte_bus_bus_with. constructor; [|constructor].
    unfold byte. simpl. lia. }
  split; [exact Hb|].
  destruct (read_total (bus_with [(0x0200, 0x42)]) tt 0x0200
              (bus_with_wf _)) as [b Hr].
  exists b. split; [exact Hr|].
  exact (proj1 (bus_values_are_bytes (bus_with [(0x0200, 0x42)]) tt
                  0x0200 0 Hb) b Hr).
Defined.

(** $11234 is $1234; $1FF is stored as $FF. *)
Lemma bus_write_read_round_trip_witness :
  ∃ m', Memory.write (bus_with []) tt 0x11234 0x1FF = Some (m', tt)
        ∧ Memory.read m' tt 0x11234 = Some (Z.land 0x1FF 0xFF).
Proof.
  destruct (bus_write_read_round_trip (bus_with []) tt 0x11234 0x1FF
              (bus_with_wf _) (bus_with_plain_ram _ _))
    as (m' & Hw & Hr & _).
  exists m'. split; [exact Hw | exact Hr].
Defined.

(** A word at the last address: the high byte lands at $0000. *)
Lemma word_write_read_round_trip_witness :
  ∃ m', Memory.write_word (bus_with []) tt 0xFFFF 0x1234 = Some (m', tt)
        ∧ Memory.read_word m' tt 0xFFFF = Some (Z.land 0x1234 0xFFFF).
Proof.
  destruct (word_write_read_round_trip (bus_with []) tt 0xFFFF 0x1234
              (bus_with_wf _) (bus_with_plain_ram _ _)
              (bus_with_plain_ram _ _))
    as (m' & Hw & Hr & _).
  exists m'. split; [exact Hw | exact Hr].
Defined.

(** A second image registered at $C002, inside the overlay at $C000. *)
Lemma later_overlay_never_shadows_witness :
  ∃ m', Memory.load_rom overlay_bus [0x11; 0x22] 0xC002 = Some m'
        ∧ Memory.read m' tt 0xC002 = Memory.read overlay_bus tt 0xC002.
Proof.
  destruct (load_rom_total overlay_bus [0x11; 0x22] 0xC002 eq_refl
              ltac:(lia)) as [m' Hl].
  exists m'. split; [exact Hl|].
  exact (proj2 (later_overlay_never_shadows overlay_bus tt [0x11; 0x22]
                  0xC002 0xC002 m' 0xC000 [0xA9; 0x93; 0x20; 0xD2]
                  eq_refl eq_refl Hl)).
Defined.

(** The second byte of a two-byte image at $C000. *)
Lemma loaded_image_is_read_only_witness :
  ∃ m', Memory.load_rom (bus_with []) [0xA9; 0x93] 0xC000 = Some m'
        ∧ Memory.read m' tt (0xC000 + 1) = Some 0x93
        ∧ ∀ value, Memory.write m' tt (0xC000 + 1) value = Some (m', tt).
Proof.
  apply (loaded_image_is_read_only (bus_with []) tt [0xA9; 0x93] 0xC000 1
           0x93); (reflexivity || lia).
Defined.

(** A callback at $8000 answers at $18000; one at $10000 never answers. *)
Lemma registered_callback_dispatch_witness :
  Memory.read
    (Memory.register_io_handler (bus_with []) 0x8000
       (Some (λ _ : unit, 0x55)) None) tt 0x18000
  = Some 0x55
  ∧ Memory.read
      (Memory.register_io_handler (bus_with []) 0x10000
         (Some (λ _ : unit, 0x55)) None) tt 0x0000
    = Memory.read (bus_with []) tt 0x0000.
Proof.
  split.
  - apply (proj1 (registered_callback_dispatch (bus_with []) tt 0x8000
                    0x18000 (λ _, 0x55) None)).
    reflexivity.
  - apply (proj2 (proj2 (registered_callback_dispatch (bus_with []) tt
                           0x10000 0x0000 (λ _, 0x55) None))).
    lia.
Defined.

(** ** The video buffer: round trip, rejected values, [clear] *)

Lemma fill_spaces_lookup (n : nat) : ∀ (mem : list int) (i : int),
  0 <= i -> (Z.to_nat i + n <= length mem)%nat ->
  ∃ mem', VideoRAM.fill_spaces mem i n = Some mem'
          ∧ length mem' = length mem
          ∧ ∀ k : nat, mem' !! k
              = if decide (Z.to_nat i <= k < Z.to_nat i + n)%nat
                then Some 0x20 else mem !! k.
Proof.
  induction n as [|n IH]; intros mem i Hi Hlen.
  - exists mem. split; [done|]. split; [done|]. intros k.
    destruct (decide _); [lia | done].
  - simpl. rewrite setitem_in_range by (done || lia).
    destruct (IH (<[Z.to_nat i := 0x20]> mem) (i + 1) ltac:(lia))
      as (mem' & -> & Hl & Hk); [rewrite length_insert; lia|].
    exists mem'. split; [done|]. rewrite length_insert in Hl.
    split; [done|]. intros k. rewrite Hk.
    destruct (decide (Z.to_nat (i + 1) <= k < Z.to_nat (i + 1) + n)%nat).
    + destruct (decide _); [done | lia].
    + destruct (decide (k = Z.to_nat i)) as [->|Hne].
      * rewrite list_lookup_insert_eq by lia.
        destruct (decide _); [done | lia].
      * rewrite list_lookup_insert_ne by done.
        destruct (decide _); [lia | done].
Qed.

Lemma screen_of_wf (b : int) : VideoRAM.wf (screen_of b).
Proof. split; reflexivity. Qed.

(** X8. A write of a byte inside the buffer is read back; the other cells
    read as before; the dirty flag is set when the value differs from the
    one stored and is left as it was when they are equal. *)
Theorem VideoRAM_write_then_read (v : VideoRAM.t) (addr value : int) :
  VideoRAM.wf v -> 0 <= addr < VideoRAM.size v -> is_byte value = true ->
  ∃ old v',
    VideoRAM.read v addr = Some old
    ∧ VideoRAM.write v addr value = Some v'
    ∧ VideoRAM.read v' addr = Some value
    ∧ (∀ a, a ≠ addr -> VideoRAM.read v' a = VideoRAM.read v a)
    ∧ VideoRAM.dirty v' = VideoRAM.dirty v || negb (old =? value)
    ∧ VideoRAM.wf v'.
Proof.
  intros [Hsz Hlen] Hr Hb.
  assert (Hin : (0 <=? addr) && (addr <? VideoRAM.size v) = true).
  { apply andb_true_iff. split; [apply Z.leb_le | apply Z.ltb_lt]; lia. }
  destruct (getitem_is_Some (VideoRAM.memory v) addr ltac:(lia)) as [old Hold].
  exists old. unfold VideoRAM.write, VideoRAM.read. rewrite Hin, Hold.
  destruct (Z.eqb_spec old value) as [->|Hne]; simpl.
  - exists v. rewrite Hin. rewrite orb_false_r. done.
  - rewrite setitem_in_range by (done || lia).
    eexists. split; [done|]. split; [done|]. simpl. rewrite Hin.
    split; [|split; [|split]].
    + rewrite getitem_in_range by (rewrite length_insert; lia).
      apply list_lookup_insert_eq. lia.
    + intros a Ha.
      destruct ((0 <=? a) && (a <? VideoRAM.size v)) eqn:Ea; [|done].
      apply andb_true_iff in Ea as [E1 E2].
      apply Z.leb_le in E1. apply Z.ltb_lt in E2.
      rewrite !getitem_in_range by (rewrite ?length_insert; lia).
      apply list_lookup_insert_ne. lia.
    + now rewrite orb_true_r.
    + split; [done|]. simpl. now rewrite length_insert.
Qed.

(** X9. [VideoRAM.write] does not mask its value: inside a buffer of bytes,
    a value outside [0, 255] raises (the byte array refuses it), where
    [Memory.write] masks to 8 bits before it calls the device. *)
Theorem VideoRAM_write_rejects_non_byte (v : VideoRAM.t) (addr value : int) :
  VideoRAM.wf v -> 0 <= addr < VideoRAM.size v ->
  Forall (λ b, 0 <= b <= 255) (VideoRAM.memory v) ->
  ¬ 0 <= value <= 255 ->
  VideoRAM.write v addr value = None.
Proof.
  intros [Hsz Hlen] Hr Hbytes Hv.
  assert (Hin : (0 <=? addr) && (addr <? VideoRAM.size v) = true).
  { apply andb_true_iff. split; [apply Z.leb_le | apply Z.ltb_lt]; lia. }
  destruct (getitem_is_Some (VideoRAM.memory v) addr ltac:(lia)) as [old Hold].
  unfold VideoRAM.write. rewrite Hin, Hold.
  assert (Hob : 0 <= old <= 255).
  { apply getitem_elem in Hold. rewrite Forall_forall in Hbytes.
    by apply Hbytes. }
  destruct (Z.eqb_spec old value) as [->|Hne]; [lia|]. simpl.
  unfold setitem. destruct (is_byte value) eqn:Eb; [|by rewrite andb_false_r].
  unfold is_byte in Eb. apply andb_true_iff in Eb as [E1 E2].
  apply Z.leb_le in E1. apply Z.ltb_lt in E2. lia.
Qed.

(** X10. [clear] never raises on a buffer as the constructor makes it: it
    leaves [size] cells all holding $20 and the dirty flag set, so every
    read inside the buffer returns $20 (and 0 outside, as before). *)
Theorem VideoRAM_clear_fills_spaces (v : VideoRAM.t) :
  VideoRAM.wf v ->
  ∃ v', VideoRAM.clear v = Some v'
        ∧ VideoRAM.memory v' = replicate (Z.to_nat (VideoRAM.size v)) 0x20
        ∧ VideoRAM.dirty v' = true
        ∧ VideoRAM.wf v'
        ∧ ∀ addr, VideoRAM.read v' addr
                  = Some (if (0 <=? addr) && (addr <? VideoRAM.size v)
                          then 0x20 else 0).
Proof.
  intros [Hsz Hlen]. unfold VideoRAM.clear.
  destruct (fill_spaces_lookup (Z.to_nat (VideoRAM.size v))
              (VideoRAM.memory v) 0 ltac:(lia) ltac:(lia))
    as (mem' & -> & Hl & Hk).
  assert (Hmem : mem' = replicate (Z.to_nat (VideoRAM.size v)) 0x20).
  { apply list_eq. intros k. rewrite Hk.
    destruct (decide _) as [Hd|Hd].
    - symmetry. apply lookup_replicate. split; [done | lia].
    - rewrite !lookup_ge_None_2; [done | rewrite length_replicate; lia | lia]. }
  eexists. split; [reflexivity|]. simpl.
  split; [done|]. split; [done|]. split; [split; [done | simpl; lia]|].
  intros addr. unfold VideoRAM.read. simpl.
  destruct ((0 <=? addr) && (addr <? VideoRAM.size v)) eqn:Ea; [|done].
  apply andb_true_iff in Ea as [E1 E2].
  apply Z.leb_le in E1. apply Z.ltb_lt in E2.
  rewrite getitem_in_range by lia. rewrite Hmem.
  apply lookup_replicate. split; [done | lia].
Qed.

(** An "A" written over a space in the top left corner. *)
Lemma VideoRAM_write_then_read_witness :
  ∃ old v',
    VideoRAM.read (screen_of 0x20) 0 = Some old
    ∧ VideoRAM.write (screen_of 0x20) 0 0x41 = Some v'
    ∧ VideoRAM.read v' 0 = Some 0x41.
Proof.
  destruct (VideoRAM_write_then_read (screen_of 0x20) 0 0x41
              (screen_of_wf _) ltac:(simpl; lia) eq_refl)
    as (old & v' & H1 & H2 & H3 & _).
  exists old, v'. split; [exact H1|]. split; [exact H2 | exact H3].
Defined.

(** 256 does not fit a cell. *)
Lemma VideoRAM_write_rejects_non_byte_witness :
  VideoRAM.write (screen_of 0x20) 0 256 = None.
Proof.
  apply (VideoRAM_write_rejects_non_byte (screen_of 0x20) 0 256
           (screen_of_wf _)).
  - simpl. lia.
  - apply Forall_replicate. lia.
  - lia.
Defined.

(** The last cell of a zeroed screen after [clear]. *)
Lemma VideoRAM_clear_fills_spaces_witness :
  ∃ v', VideoRAM.clear (screen_of 0) = Some v'
        ∧ VideoRAM.dirty v' = true
        ∧ VideoRAM.read v' 999
          = Some (if (0 <=? 999) && (999 <? VideoRAM.size (screen_of 0))
                  then 0x20 else 0).
Proof.
  destruct (VideoRAM_clear_fills_spaces (screen_of 0) (screen_of_wf _))
    as (v' & H1 & _ & H2 & _ & H3).
  exists v'. split; [exact H1|]. split; [exact H2 | exact (H3 999)].
Defined.

(** ** The VIA registers *)

Lemma mask4_range (x : int) : 0 <= Z.land x 0x0F <= 15.
Proof.
  assert (H : Z.land x 0x0F = x mod 16).
  { change 0x0F with (Z.ones 4). now rewrite Z.land_ones by lia. }
  rewrite H. pose proof (Z.mod_pos_bound x 16 ltac:(lia)). lia.
Qed.

Lemma mask7_range (x : int) : 0 <= Z.land x 0x7F <= 0x7F.
Proof.
  assert (H : Z.land x 0x7F = x mod 128).
  { change 0x7F with (Z.ones 7). now rewrite Z.land_ones by lia. }
  rewrite H. pose proof (Z.mod_pos_bound x 128 ltac:(lia)). lia.
Qed.

Lemma high_byte_mask (x : int) :
  Z.land x 0xFF00 = Z.shiftl (Z.land (Z.shiftr x 8) 0xFF) 8.
Proof.
  apply Z.bits_inj'. intros n Hn. rewrite Z.land_spec.
  destruct (Z.lt_ge_cases n 8) as [H8|H8].
  - rewrite Z.shiftl_spec_low by lia.
    change 0xFF00 with (Z.shiftl 0xFF 8). rewrite Z.shiftl_spec_low by lia.
    apply andb_false_r.
  - rewrite Z.shiftl_spec by lia. rewrite Z.land_spec, Z.shiftr_spec by lia.
    replace (n - 8 + 8) with n by lia.
    change 0xFF00 with (Z.shiftl 0xFF 8).
    now rewrite (Z.shiftl_spec 0xFF) by lia.
Qed.

Lemma latch_low_range (latch value : int) :
  byte value -> 0 <= Z.lor (Z.land latch 0xFF00) value <= 0xFFFF.
Proof.
  intros Hv. rewrite high_byte_mask. apply word_lor; [done | apply byte_mask].
Qed.

Lemma latch_high_range (latch value : int) :
  byte value -> 0 <= Z.lor (Z.shiftl value 8) (Z.land latch 0xFF) <= 0xFFFF.
Proof. intros Hv. apply word_lor; [apply byte_mask | done]. Qed.

Lemma latch_low_byte (latch value : int) :
  byte value -> Z.land (Z.lor (Z.land latch 0xFF00) value) 0xFF = value.
Proof.
  intros Hv. rewrite Z.land_lor_distr_l, <- Z.land_assoc.
  change (Z.land 0xFF00 0xFF) with 0. rewrite Z.land_0_r, Z.lor_0_l.
  rewrite mask8_mod. apply Z.mod_small. unfold byte in Hv. lia.
Qed.

Lemma flags_clear_range (s x : int) :
  0 <= s <= 0x7F -> byte x -> 0 <= Z.land s (Z.lnot x) <= 0x7F.
Proof.
  intros Hs Hx.
  pose proof (byte_check2
    (λ s x, implb (s <=? 0x7F) ((0 <=? Z.land s (Z.lnot x))
                                 && (Z.land s (Z.lnot x) <=? 0x7F)))
    ltac:(vm_compute; reflexivity) s x ltac:(unfold byte; lia) Hx) as H.
  simpl in H. destruct (Z.leb_spec s 0x7F); [|lia]. simpl in H.
  apply andb_true_iff in H as [Hlo Hhi]. lia.
Qed.

Lemma flags_set_range (s x : int) :
  0 <= s <= 0x7F -> 0 <= x <= 0x7F -> 0 <= Z.lor s x <= 0x7F.
Proof.
  intros Hs Hx.
  pose proof (byte_check2
    (λ s x, implb ((s <=? 0x7F) && (x <=? 0x7F))
                  ((0 <=? Z.lor s x) && (Z.lor s x <=? 0x7F)))
    ltac:(vm_compute; reflexivity) s x ltac:(unfold byte; lia)
    ltac:(unfold byte; lia)) as H.
  simpl in H. destruct (Z.leb_spec s 0x7F); [|lia].
  destruct (Z.leb_spec x 0x7F); [|lia]. simpl in H.
  apply andb_true_iff in H as [Hlo Hhi]. lia.
Qed.

Lemma input_mask_byte (i d : int) :
  byte i -> byte d -> byte (Z.land i (Z.lnot d)).
Proof.
  intros Hi Hd.
  pose proof (byte_check2
    (λ i d, (0 <=? Z.land i (Z.lnot d)) && (Z.land i (Z.lnot d) <=? 255))
    ltac:(vm_compute; reflexivity) i d Hi Hd) as H.
  apply andb_true_iff in H as [Hlo Hhi]. unfold byte. lia.
Qed.

(** Bit by bit, a port read takes the output latch where the direction
    bit is 1 and the input where it is 0. *)
Lemma port_mix_bits (p d i : int) (n : int) :
  0 <= n ->
  Z.testbit (Z.lor (Z.land p d) (Z.land i (Z.lnot d))) n
  = if Z.testbit d n then Z.testbit p n else Z.testbit i n.
Proof.
  intros Hn. rewrite Z.lor_spec, !Z.land_spec, Z.lnot_spec by done.
  destruct (Z.testbit d n), (Z.testbit p n), (Z.testbit i n); reflexivity.
Qed.

(** Unfold the VIA's setters, keep the integer operations folded. *)
Ltac via_simp :=
  cbn -[Z.land Z.lor Z.lxor Z.lnot Z.shiftl Z.shiftr Z.testbit Z.eqb Z.ltb
        Z.leb Z.add Z.sub setitem getitem byte].

Ltac via_simp_in H :=
  cbn -[Z.land Z.lor Z.lxor Z.lnot Z.shiftl Z.shiftr Z.testbit Z.eqb Z.ltb
        Z.leb Z.add Z.sub setitem getitem byte] in H.

Lemma via_ok_init {E : Type} : via_ok (VIA.init (E:=E)).
Proof.
  unfold via_ok, byte. simpl.
  split; [done|]. split; [repeat constructor; lia|]. split_and!; lia.
Qed.

Section ViaRegisters.
Context {E : Type}.
Implicit Types (v : VIA.t E) (e : E).

Lemma VIA_write_ok v e addr value :
  via_ok v -> ∃ v' e', VIA.write v e addr value = Some (v', e') ∧ via_ok v'.
Proof.
  intros (Hl & Hrs & Hpa & Hpb & Hda & Hdb & Ht1 & Hlt & Ht2 & Hsr & Hfs & Hen).
  unfold VIA.write.
  pose proof (mask4_range addr) as Hreg.
  pose proof (byte_mask value) as Hval.
  pose proof (mask8_is_byte value) as Hvb.
  set (reg := Z.land addr 0x0F) in *. set (val := Z.land value 0xFF) in *.
  assert (Hins : Forall byte (<[Z.to_nat reg := val]> (VIA.registers v)))
    by by apply Forall_insert.
  clearbody reg val.
  pose proof (latch_low_range (VIA.timer1_latch v) val Hval).
  pose proof (latch_high_range (VIA.timer1_latch v) val Hval).
  pose proof (latch_low_range (VIA.timer2_counter v) val Hval).
  pose proof (latch_high_range (VIA.timer2_counter v) val Hval).
  pose proof (flags_clear_range (VIA.irq_status v) 0x40 Hfs ltac:(split; lia)).
  pose proof (flags_clear_range (VIA.irq_status v) 0x20 Hfs ltac:(split; lia)).
  pose proof (flags_clear_range (VIA.irq_status v) val Hfs Hval).
  pose proof (mask7_range val) as H7.
  pose proof (flags_clear_range (VIA.irq_enable v) (Z.land val 0x7F) Hen
                ltac:(split; lia)).
  pose proof (flags_set_range (VIA.irq_enable v) (Z.land val 0x7F) Hen H7).
  repeat match goal with
  | |- context [if ?r =? ?k then _ else _] =>
      destruct (Z.eqb_spec r k); via_simp
  | |- context [if negb ?b then _ else _] => destruct b; via_simp
  end.
  all: rewrite setitem_in_range by (done || lia).
  all: eexists _, _; split; [reflexivity|].
  all: unfold via_ok; via_simp; rewrite ?length_insert.
  all: split_and!; first [assumption | lia].
Qed.

Lemma VIA_update_timers_ok v cycles :
  via_ok v -> 0 <= cycles -> via_ok (VIA.update_timers v cycles).1.
Proof.
  intros (Hl & Hrs & Hpa & Hpb & Hda & Hdb & Ht1 & Hlt & Ht2 & Hsr & Hfs & Hen)
         Hc.
  pose proof (flags_set_range (VIA.irq_status v) 0x40 Hfs ltac:(lia)).
  pose proof (flags_set_range (VIA.irq_status v) 0x20 Hfs ltac:(lia)).
  pose proof (flags_set_range (Z.lor (VIA.irq_status v) 0x40) 0x20
                ltac:(assumption) ltac:(lia)).
  unfold VIA.update_timers.
  destruct (Z.ltb_spec 0 (VIA.timer1_counter v));
    [destruct (Z.leb_spec (VIA.timer1_counter v) cycles)|]; via_simp;
    try (destruct (negb _); via_simp);
    (destruct (Z.ltb_spec 0 (VIA.timer2_counter v));
     [destruct (Z.leb_spec (VIA.timer2_counter v) cycles)|]); via_simp;
    try (destruct (negb _); via_simp).
  all: unfold via_ok; via_simp; split_and!; first [assumption | lia].
Qed.

Lemma VIA_read_byte v e addr :
  via_ok v -> byte (port_input (VIA.read_port_a v) e) ->
  byte (port_input (VIA.read_port_b v) e) ->
  ∃ b, VIA.read v e addr = Some b ∧ byte b.
Proof.
  intros (Hl & Hrs & Hpa & Hpb & Hda & Hdb & Ht1 & Hlt & Ht2 & Hsr & Hfs & Hen)
         Hia Hib.
  unfold VIA.read. pose proof (mask4_range addr) as Hreg.
  set (reg := Z.land addr 0x0F) in *. clearbody reg.
  repeat match goal with
  | |- context [if ?r =? ?k then _ else _] =>
      destruct (Z.eqb_spec r k); via_simp
  end.
  all: try (eexists; split; [reflexivity|]).
  1, 2: apply byte_lor; [by apply byte_land | by apply input_mask_byte].
  all: try assumption.
  all: try apply byte_mask.
  1, 2: unfold byte; lia.
  destruct (getitem_is_Some (VIA.registers v) reg ltac:(lia)) as [b Hb].
  exists b. split; [done|]. apply getitem_elem in Hb.
  rewrite Forall_forall in Hrs. by apply Hrs.
Qed.

(** X11. The VIA keeps its state in range and never raises: with sixteen
    register bytes, ports, direction and shift registers in [0, 255], the
    timers and the latch in [0, $FFFF] and IFR, IER in [0, $7F] (bit 7 of
    neither is ever set), a write of any value to any address succeeds and
    keeps all of this, as does [update_timers] for a non-negative cycle
    count; and with port inputs in [0, 255] every register read returns a
    byte. *)
Theorem VIA_state_stays_in_range v e (addr value cycles : int) :
  via_ok v ->
  (∃ v' e', VIA.write v e addr value = Some (v', e') ∧ via_ok v')
  ∧ (0 <= cycles -> via_ok (VIA.update_timers v cycles).1)
  ∧ (0 <= port_input (VIA.read_port_a v) e <= 255 ->
     0 <= port_input (VIA.read_port_b v) e <= 255 ->
     ∃ b, VIA.read v e addr = Some b ∧ 0 <= b <= 255).
Proof.
  intros Hok. split; [by apply VIA_write_ok|].
  split; [by apply VIA_update_timers_ok|]. by apply VIA_read_byte.
Qed.

(** X12. A read of port A (register 1) or port B (register 0) mixes, bit by
    bit, the output latch and the input: bit [n] of the result is bit [n]
    of the latch where the data direction bit is 1 and bit [n] of the
    input (the callback's value, $FF without a callback) where it is 0. *)
Theorem VIA_port_read_mixes_by_direction v e (addr : int) :
  (Z.land addr 0x0F = 1 ->
   ∃ r, VIA.read v e addr = Some r
        ∧ ∀ n, 0 <= n ->
            Z.testbit r n
            = if Z.testbit (VIA.ddr_a v) n then Z.testbit (VIA.port_a v) n
              else Z.testbit (port_input (VIA.read_port_a v) e) n)
  ∧ (Z.land addr 0x0F = 0 ->
     ∃ r, VIA.read v e addr = Some r
          ∧ ∀ n, 0 <= n ->
              Z.testbit r n
              = if Z.testbit (VIA.ddr_b v) n then Z.testbit (VIA.port_b v) n
                else Z.testbit (port_input (VIA.read_port_b v) e) n).
Proof.
  split; intros Hreg; unfold VIA.read; rewrite Hreg; via_simp;
    (eexists; split; [reflexivity|]); intros n Hn; by apply port_mix_bits.
Qed.

(** X13. Programming Timer 1 through registers 4 and 5: the write of the
    low byte leaves the counter alone; after the write of the high byte the
    latch and the counter both hold [hi * 256 + lo] (each byte masked to 8
    bits), IFR bit 6 is clear, and registers 4 and 5 read back [lo] and
    [hi]. *)
Theorem VIA_timer1_programming v e (lo hi : int) :
  length (VIA.registers v) = 16%nat ->
  ∃ v1 v2,
    VIA.write v e 0x4 lo = Some (v1, e)
    ∧ VIA.write v1 e 0x5 hi = Some (v2, e)
    ∧ VIA.timer1_counter v1 = VIA.timer1_counter v
    ∧ VIA.timer1_latch v2 = (hi mod 256) * 256 + lo mod 256
    ∧ VIA.timer1_counter v2 = VIA.timer1_latch v2
    ∧ Z.testbit (VIA.irq_status v2) 6 = false
    ∧ VIA.read v2 e 0x4 = Some (lo mod 256)
    ∧ VIA.read v2 e 0x5 = Some (hi mod 256).
Proof.
  intros Hl. unfold VIA.write.
  change (Z.land 0x4 0x0F) with 4. change (Z.land 0x5 0x0F) with 5.
  via_simp. change (4 =? 0) with false. change (4 =? 1) with false.
  change (4 =? 2) with false. change (4 =? 3) with false.
  change (4 =? 4) with true. via_simp.
  rewrite setitem_in_range by (apply mask8_is_byte || lia).
  eexists _, _. split; [reflexivity|]. via_simp.
  change (5 =? 0) with false. change (5 =? 1) with false.
  change (5 =? 2) with false. change (5 =? 3) with false.
  change (5 =? 4) with false. change (5 =? 5) with true. via_simp.
  rewrite setitem_in_range
    by (apply mask8_is_byte || rewrite length_insert; lia).
  split; [reflexivity|]. via_simp. split; [reflexivity|].
  pose proof (byte_mask lo) as Hlo. pose proof (byte_mask hi) as Hhi.
  rewrite latch_low_byte by done.
  assert (Hlatch : Z.lor (Z.shiftl (Z.land hi 0xFF) 8) (Z.land lo 0xFF)
                   = hi mod 256 * 256 + lo mod 256).
  { rewrite word_value by done. now rewrite !mask8_mod. }
  split; [exact Hlatch|]. split; [reflexivity|].
  split.
  { rewrite Z.land_spec, Z.lnot_spec by lia.
    change (Z.testbit 0x40 6) with true. apply andb_false_r. }
  unfold VIA.read. change (Z.land 0x4 0x0F) with 4.
  change (Z.land 0x5 0x0F) with 5. via_simp.
  change (4 =? 0) with false. change (4 =? 1) with false.
  change (4 =? 2) with false. change (4 =? 3) with false.
  change (4 =? 4) with true.
  change (5 =? 0) with false. change (5 =? 1) with false.
  change (5 =? 2) with false. change (5 =? 3) with false.
  change (5 =? 4) with false. change (5 =? 5) with true. via_simp.
  rewrite Hlatch.
  assert (H1 : 0 <= lo mod 256 < 256) by (apply Z.mod_pos_bound; lia).
  assert (H2 : 0 <= hi mod 256 < 256) by (apply Z.mod_pos_bound; lia).
  split; f_equal.
  - rewrite mask8_mod. Z.div_mod_to_equations. lia.
  - rewrite Z.shiftr_div_pow2 by lia. rewrite mask8_mod.
    change (2 ^ 8) with 256. Z.div_mod_to_equations. lia.
Qed.

(** X14. The interrupt flag register is write-one-to-clear: a write to
    register $D clears exactly the IFR bits that are 1 in the low 8 bits
    of the value written, and leaves IER and both counters as they
    were. *)
Theorem VIA_interrupt_flags_write_one_to_clear v e (addr value : int) :
  length (VIA.registers v) = 16%nat -> Z.land addr 0x0F = 0xD ->
  ∃ v', VIA.write v e addr value = Some (v', e)
        ∧ (∀ n, 0 <= n ->
             Z.testbit (VIA.irq_status v') n
             = Z.testbit (VIA.irq_status v) n
               && negb (Z.testbit value n && (n <? 8)))
        ∧ VIA.irq_enable v' = VIA.irq_enable v
        ∧ VIA.timer1_counter v' = VIA.timer1_counter v
        ∧ VIA.timer2_counter v' = VIA.timer2_counter v.
Proof.
  intros Hl Hreg. unfold VIA.write. rewrite Hreg. via_simp.
  change (13 =? 0) with false. change (13 =? 1) with false.
  change (13 =? 2) with false. change (13 =? 3) with false.
  change (13 =? 4) with false. change (13 =? 5) with false.
  change (13 =? 6) with false. change (13 =? 7) with false.
  change (13 =? 8) with false. change (13 =? 9) with false.
  change (13 =? 10) with false. change (13 =? 13) with true. via_simp.
  rewrite setitem_in_range by (apply mask8_is_byte || lia).
  eexists. split; [reflexivity|]. via_simp.
  split; [|done]. intros n Hn.
  rewrite Z.land_spec, Z.lnot_spec, Z.land_spec by done.
  change 0xFF with (Z.ones 8). rewrite Z.testbit_ones_nonneg by (done || lia).
  reflexivity.
Qed.

(** X15. [update_timers] is additive while no timer expires: when each
    timer is stopped or stays above [c1 + c2], a call with [c1] followed by
    a call with [c2] leaves the VIA that one call with [c1 + c2] leaves,
    and no call reports an interrupt. *)
Theorem update_timers_splits_over_cycles v (c1 c2 : int) :
  0 <= c1 -> 0 <= c2 ->
  VIA.timer1_counter v <= 0 ∨ c1 + c2 < VIA.timer1_counter v ->
  VIA.timer2_counter v <= 0 ∨ c1 + c2 < VIA.timer2_counter v ->
  VIA.update_timers (VIA.update_timers v c1).1 c2
  = VIA.update_timers v (c1 + c2)
  ∧ (VIA.update_timers v c1).2 = false
  ∧ (VIA.update_timers v (c1 + c2)).2 = false.
Proof.
  intros H1 H2 Ht1 Ht2. unfold VIA.update_timers. via_simp.
  repeat match goal with
  | |- context [if 0 <? ?x then _ else _] =>
      lazymatch x with
      | context [if _ then _ else _] => fail
      | _ => idtac
      end;
      let H := fresh in
      destruct (Z.ltb_spec 0 x) as [H|H]; via_simp; via_simp_in H; try lia
  | |- context [if ?x <=? ?y then _ else _] =>
      lazymatch x with
      | context [if _ then _ else _] => fail
      | _ => idtac
      end;
      let H := fresh in
      destruct (Z.leb_spec x y) as [H|H]; via_simp; via_simp_in H; try lia
  end.
  all: split; [|split; reflexivity].
  all: try reflexivity.
  all: unfold VIA.set_timer1_counter, VIA.set_timer2_counter; via_simp.
  all: f_equal; f_equal; lia.
Qed.

End ViaRegisters.

(** A fresh VIA: $1C0 written at address $1E sets IER bit 6. *)
Lemma VIA_state_stays_in_range_witness :
  ∃ v' e', VIA.write (VIA.init (E:=unit)) tt 0x1E 0x1C0 = Some (v', e')
           ∧ via_ok v'.
Proof.
  exact (proj1 (VIA_state_stays_in_range (VIA.init (E:=unit)) tt 0x1E 0x1C0
                  0 via_ok_init)).
Defined.

(** Port A with the low nibble as outputs holding $5 and nothing
    connected: the inputs read 1. *)
Lemma VIA_port_read_mixes_by_direction_witness :
  let v := VIA.set_ddr_a 0x0F (VIA.set_port_a 0xA5 (VIA.init (E:=unit))) in
  ∃ r, VIA.read v tt 0x11 = Some r
       ∧ Z.testbit r 1 = false ∧ Z.testbit r 6 = true.
Proof.
  intros v.
  destruct (proj1 (VIA_port_read_mixes_by_direction v tt 0x11) eq_refl)
    as (r & Hr & Hbits).
  exists r. split; [exact Hr|].
  split; [exact (Hbits 1 ltac:(lia)) | exact (Hbits 6 ltac:(lia))].
Defined.

(** Timer 1 loaded with $1234. *)
Lemma VIA_timer1_programming_witness :
  ∃ v1 v2,
    VIA.write (VIA.init (E:=unit)) tt 0x4 0x34 = Some (v1, tt)
    ∧ VIA.write v1 tt 0x5 0x12 = Some (v2, tt)
    ∧ VIA.timer1_counter v2 = 0x12 mod 256 * 256 + 0x34 mod 256.
Proof.
  destruct (VIA_timer1_programming (VIA.init (E:=unit)) tt 0x34 0x12 eq_refl)
    as (v1 & v2 & H1 & H2 & _ & H4 & H5 & _).
  exists v1, v2. split; [exact H1|]. split; [exact H2|].
  rewrite H5. exact H4.
Defined.

(** Both timer flags set; $40 written to IFR acknowledges Timer 1 only. *)
Lemma VIA_interrupt_flags_write_one_to_clear_witness :
  let v := VIA.set_irq_status 0x60 (VIA.init (E:=unit)) in
  ∃ v', VIA.write v tt 0xD 0x40 = Some (v', tt)
        ∧ Z.testbit (VIA.irq_status v') 6 = false
        ∧ Z.testbit (VIA.irq_status v') 5 = true.
Proof.
  intros v.
  destruct (VIA_interrupt_flags_write_one_to_clear v tt 0xD 0x40
              eq_refl eq_refl) as (v' & Hw & Hbits & _).
  exists v'. split; [exact Hw|].
  split; [exact (Hbits 6 ltac:(lia)) | exact (Hbits 5 ltac:(lia))].
Defined.

(** Timer 1 at 100: 3 cycles, then 4, as 7 at once. *)
Lemma update_timers_splits_over_cycles_witness :
  let v := VIA.set_timer1_counter 100 (VIA.init (E:=unit)) in
  VIA.update_timers (VIA.update_timers v 3).1 4 = VIA.update_timers v (3 + 4).
Proof.
  intros v.
  apply (update_timers_splits_over_cycles v 3 4); simpl; lia.
Defined.

(** ** The keyboard matrix and its port *)

Lemma key_bit (old col n : int) (is_down : bool) :
  0 <= col -> 0 <= n ->
  Z.testbit (if is_down then Z.land old (Z.lnot (Z.shiftl 1 col))
             else Z.lor old (Z.shiftl 1 col)) n
  = if n =? col then negb is_down else Z.testbit old n.
Proof.
  intros Hc Hn. rewrite Z.shiftl_1_l.
  destruct is_down.
  - rewrite Z.land_spec, Z.lnot_spec, Z.pow2_bits_eqb by done.
    rewrite (Z.eqb_sym col n). destruct (n =? col); simpl;
      [apply andb_false_r | apply andb_true_r].
  - rewrite Z.lor_spec, Z.pow2_bits_eqb by done.
    rewrite (Z.eqb_sym col n). destruct (n =? col); simpl;
      [apply orb_true_r | apply orb_false_r].
Qed.

Lemma key_byte (old col : int) (is_down : bool) :
  byte old -> 0 <= col <= 7 ->
  byte (if is_down then Z.land old (Z.lnot (Z.shiftl 1 col))
        else Z.lor old (Z.shiftl 1 col)).
Proof.
  intros Ho Hc.
  pose proof (byte_check2
    (λ old col, implb (col <=? 7)
       ((0 <=? Z.land old (Z.lnot (Z.shiftl 1 col)))
        && (Z.land old (Z.lnot (Z.shiftl 1 col)) <=? 255)
        && (0 <=? Z.lor old (Z.shiftl 1 col))
        && (Z.lor old (Z.shiftl 1 col) <=? 255)))
    ltac:(vm_compute; reflexivity) old col Ho ltac:(unfold byte; lia)) as H.
  simpl in H. destruct (Z.leb_spec col 7); [|lia]. simpl in H.
  apply andb_true_iff in H as [H H4]. apply andb_true_iff in H as [H H3].
  apply andb_true_iff in H as [H1 H2].
  destruct is_down; unfold byte; lia.
Qed.

Lemma key_map_get_elem d name p :
  PETKeyboard.key_map_get d name = Some p -> (name, p) ∈ d.
Proof.
  induction d as [|[k q] d IH]; simpl; [done|].
  destruct (String.eqb_spec k name) as [->|_].
  - intros [= ->]. left.
  - intros H. right. by apply IH.
Qed.

(** Every named key sits in rows 0..9 and columns 0..7. *)
Lemma key_map_positions name row col :
  PETKeyboard.key_map_get PETKeyboard.key_map name = Some (row, col) ->
  0 <= row <= 9 ∧ 0 <= col <= 7.
Proof.
  intros H. apply key_map_get_elem in H.
  assert (Hall : Forall (λ e, 0 <= e.2.1 <= 9 ∧ 0 <= e.2.2 <= 7)
                        PETKeyboard.key_map).
  { unfold PETKeyboard.key_map. repeat (constructor; [simpl; lia|]).
    constructor. }
  rewrite Forall_forall in Hall. apply (Hall _ H).
Qed.

Lemma set_key_position k row col is_down :
  0 <= row < Z.of_nat (length (PETKeyboard.matrix k)) -> 0 <= col ->
  ∃ old,
    PETKeyboard.matrix k !! Z.to_nat row = Some old
    ∧ PETKeyboard._set_key k (PETKeyboard.Position row col) is_down
      = Some (PETKeyboard.mk
                (<[Z.to_nat row :=
                     if is_down then Z.land old (Z.lnot (Z.shiftl 1 col))
                     else Z.lor old (Z.shiftl 1 col)]>
                   (PETKeyboard.matrix k))).
Proof.
  intros Hr Hc. unfold PETKeyboard._set_key.
  rewrite getitem_in_range by done.
  destruct (lookup_lt_is_Some_2 (PETKeyboard.matrix k) (Z.to_nat row)
              ltac:(lia)) as [old Hold].
  exists old. split; [done|]. rewrite Hold.
  destruct (Z.ltb_spec col 0); [lia|].
  now rewrite list_setitem_in_range by done.
Qed.

Lemma read_row_in_range k row :
  0 <= row < Z.of_nat (length (PETKeyboard.matrix k)) ->
  PETKeyboard.read_row k row = PETKeyboard.matrix k !! Z.to_nat row.
Proof.
  intros Hr. unfold PETKeyboard.read_row.
  destruct (Z.leb_spec 0 row); [|lia].
  destruct (Z.ltb_spec row (Z.of_nat (length (PETKeyboard.matrix k)))); [|lia].
  simpl. by apply getitem_in_range.
Qed.

(** [read_row] never raises: the guard bounds the index. *)
Lemma read_row_total k row : is_Some (PETKeyboard.read_row k row).
Proof.
  unfold PETKeyboard.read_row.
  destruct ((0 <=? row) && (row <? _)) eqn:E; [|by eexists].
  apply andb_true_iff in E as [E1 E2].
  apply Z.leb_le in E1. apply Z.ltb_lt in E2. by apply getitem_is_Some.
Qed.

(** X16. Pressing or releasing the key at [(row, col)], with [row] inside
    the matrix and [col >= 0]: [read_row(row)] then has bit [col] clear
    for a key down and set for a key up, its other bits as before; the
    other rows read as before and the matrix keeps its number of rows. *)
Theorem set_key_then_read_row (k : PETKeyboard.t) (row col : int)
    (is_down : bool) :
  0 <= row < Z.of_nat (length (PETKeyboard.matrix k)) -> 0 <= col ->
  ∃ k' old new,
    PETKeyboard._set_key k (PETKeyboard.Position row col) is_down = Some k'
    ∧ PETKeyboard.read_row k row = Some old
    ∧ PETKeyboard.read_row k' row = Some new
    ∧ (∀ n, 0 <= n ->
         Z.testbit new n = if n =? col then negb is_down else Z.testbit old n)
    ∧ (∀ r, r ≠ row -> PETKeyboard.read_row k' r = PETKeyboard.read_row k r)
    ∧ length (PETKeyboard.matrix k') = length (PETKeyboard.matrix k).
Proof.
  intros Hr Hc.
  destruct (set_key_position k row col is_down Hr Hc) as (old & Hold & Hset).
  eexists _, old, _. split; [exact Hset|].
  split; [by rewrite read_row_in_range|].
  split.
  { rewrite read_row_in_range by (simpl; rewrite length_insert; lia).
    simpl. apply list_lookup_insert_eq. lia. }
  split; [intros n Hn; by apply key_bit|].
  split; [|simpl; by rewrite length_insert].
  intros r Hne. unfold PETKeyboard.read_row. simpl. rewrite length_insert.
  destruct ((0 <=? r) && (r <? _)) eqn:E; [|done].
  apply andb_true_iff in E as [E1 E2].
  apply Z.leb_le in E1. apply Z.ltb_lt in E2.
  rewrite !getitem_in_range by (rewrite ?length_insert; lia).
  apply list_lookup_insert_ne. lia.
Qed.

(** X17. [_set_key] on a [(row, col)] tuple raises exactly when [row] is
    outside [-len, len) of the matrix (a negative row inside counts from
    the last row) or [col] is negative. *)
Theorem set_key_raises_iff (k : PETKeyboard.t) (row col : int)
    (is_down : bool) :
  PETKeyboard._set_key k (PETKeyboard.Position row col) is_down = None
  ↔ ¬ (- Z.of_nat (length (PETKeyboard.matrix k)) <= row
       < Z.of_nat (length (PETKeyboard.matrix k)))
    ∨ col < 0.
Proof.
  unfold PETKeyboard._set_key.
  destruct (getitem (PETKeyboard.matrix k) row) as [old|] eqn:Hg.
  - assert (Hin : - Z.of_nat (length (PETKeyboard.matrix k)) <= row
                  < Z.of_nat (length (PETKeyboard.matrix k))).
    { destruct (decide (- Z.of_nat (length (PETKeyboard.matrix k)) <= row
                        < Z.of_nat (length (PETKeyboard.matrix k))))
        as [|Hn]; [done|].
      apply getitem_None_iff in Hn. congruence. }
    destruct (Z.ltb_spec col 0); [split; [by right | done]|].
    destruct (list_setitem_is_Some (PETKeyboard.matrix k) row
                (if is_down then Z.land old (Z.lnot (Z.shiftl 1 col))
                 else Z.lor old (Z.shiftl 1 col)) ltac:(by eexists))
      as [m' ->].
    split; [done | lia].
  - apply getitem_None_iff in Hg. split; [by left | done].
Qed.

(** X18. [_set_key] on a key name never raises on the ten-row matrix: a
    name of [key_map] addresses a row in 0..9 and a column in 0..7, so the
    matrix keeps ten rows and rows in [0, 255] stay so; a name that is not
    in [key_map] leaves the keyboard as it was. *)
Theorem named_key_never_raises (k : PETKeyboard.t) (name : string)
    (is_down : bool) :
  length (PETKeyboard.matrix k) = 10%nat ->
  ∃ k', PETKeyboard._set_key k (PETKeyboard.Name name) is_down = Some k'
        ∧ length (PETKeyboard.matrix k') = 10%nat
        ∧ (PETKeyboard.key_map_get PETKeyboard.key_map name = None -> k' = k)
        ∧ (Forall (λ b, 0 <= b <= 255) (PETKeyboard.matrix k) ->
           Forall (λ b, 0 <= b <= 255) (PETKeyboard.matrix k')).
Proof.
  intros Hl. unfold PETKeyboard._set_key.
  destruct (PETKeyboard.key_map_get PETKeyboard.key_map name)
    as [[row col]|] eqn:Hk; [|by exists k].
  destruct (key_map_positions _ _ _ Hk) as [Hrow Hcol].
  destruct (set_key_position k row col is_down ltac:(lia) ltac:(lia))
    as (old & Hold & Hset).
  unfold PETKeyboard._set_key in Hset. rewrite Hset.
  eexists. split; [reflexivity|]. simpl. rewrite length_insert.
  split; [done|]. split; [done|]. intros Hb.
  apply Forall_insert; [done|].
  apply key_byte; [|done]. rewrite Forall_forall in Hb. apply Hb.
  by eapply list_elem_of_lookup_2.
Qed.


(** The "W" key, row 1 column 1, pressed on a fresh keyboard. *)
Lemma set_key_then_read_row_witness :
  ∃ k' new,
    PETKeyboard._set_key PETKeyboard.init (PETKeyboard.Position 1 1) true
    = Some k'
    ∧ PETKeyboard.read_row k' 1 = Some new
    ∧ Z.testbit new 1 = false ∧ Z.testbit new 0 = true.
Proof.
  destruct (set_key_then_read_row PETKeyboard.init 1 1 true
              ltac:(simpl; lia) ltac:(lia))
    as (k' & old & new & H1 & H2 & H3 & Hbits & _).
  assert (Hold : old = 0xFF).
  { assert (H : PETKeyboard.read_row PETKeyboard.init 1 = Some 0xFF)
      by reflexivity.
    rewrite H in H2. by injection H2. }
  exists k', new. split; [exact H1|]. split; [exact H3|].
  split; [exact (Hbits 1 ltac:(lia))|].
  rewrite (Hbits 0 ltac:(lia)), Hold. reflexivity.
Defined.

(** Row 10 is past the ten rows of the matrix. *)
Lemma set_key_raises_iff_witness :
  PETKeyboard._set_key PETKeyboard.init (PETKeyboard.Position 10 0) true
  = None.
Proof.
  apply (proj2 (set_key_raises_iff PETKeyboard.init 10 0 true)).
  left. simpl. lia.
Defined.

(** CTRL pressed on a fresh keyboard. *)
Lemma named_key_never_raises_witness :
  ∃ k', PETKeyboard._set_key PETKeyboard.init (PETKeyboard.Name "CTRL") true
        = Some k'
        ∧ length (PETKeyboard.matrix k') = 10%nat.
Proof.
  destruct (named_key_never_raises PETKeyboard.init "CTRL" true eq_refl)
    as (k' & H1 & H2 & _).
  exists k'. split; [exact H1 | exact H2].
Defined.


(** ** Every instruction: clock, interrupt lines, ranges, totality *)

Lemma add_with_carry_frame c v : same_frame c (CPU6502._add_with_carry c v).
Proof.
  unfold CPU6502._add_with_carry, same_frame.
  repeat case_match; simplify_eq; repeat split; reflexivity.
Qed.

Lemma subtract_with_carry_frame c v :
  same_frame c (CPU6502._subtract_with_carry c v).
Proof.
  unfold CPU6502._subtract_with_carry.
  destruct (negb _); [|apply add_with_carry_frame].
  unfold same_frame. repeat case_match; simplify_eq; repeat split; reflexivity.
Qed.

Lemma add_with_carry_regs c v :
  regs_ok c -> regs_ok (CPU6502._add_with_carry c v).
Proof.
  intros (HA & HX & HY & HS & HC & HZ & HI & HD & HB & HV & HN).
  unfold CPU6502._add_with_carry, CPU6502.update_ZN.
  repeat case_match; simplify_eq; unfold regs_ok; cbn;
    split_and!; first [assumption | apply byte_mask | by left | by right].
Qed.

Lemma subtract_with_carry_regs c v :
  regs_ok c -> regs_ok (CPU6502._subtract_with_carry c v).
Proof.
  intros Hc. unfold CPU6502._subtract_with_carry.
  destruct (negb _); [|by apply add_with_carry_regs].
  destruct Hc as (HA & HX & HY & HS & HC & HZ & HI & HD & HB & HV & HN).
  repeat case_match; simplify_eq; unfold regs_ok; cbn;
    split_and!; first [assumption | by left | by right].
Qed.

Lemma regs_ok_init : regs_ok CPU6502.init.
Proof. unfold regs_ok, byte, bit. simpl. split_and!; (lia || by left). Qed.

(** Symbolic execution of an instruction in a hypothesis: one case per
    outcome of each bus access and each test. *)
Ltac simp_in H :=
  cbn -[Z.add Z.sub Z.mul Z.opp Z.land Z.lor Z.lxor Z.lnot Z.shiftl Z.shiftr
        Z.eqb Z.ltb Z.leb Z.testbit Z.b2z dict_get Memory.read Memory.write
        CPU6502.get_status CPU6502._add_with_carry
        CPU6502._subtract_with_carry] in H.

Ltac unfold_instr H :=
  unfold CPU6502._branch, CPU6502.indirect in H;
  unfold CPU6502.immediate, CPU6502.zeropage, CPU6502.zeropageX,
    CPU6502.zeropageY, CPU6502.absolute, CPU6502.absoluteX,
    CPU6502.absoluteY, CPU6502.indirectX, CPU6502.indirectY in H;
  unfold CPU6502.bind, CPU6502.ret, CPU6502.get, CPU6502.modify,
    CPU6502.mem_read, CPU6502.mem_write, CPU6502.incr_PC, CPU6502.decr_SP,
    CPU6502.incr_SP, CPU6502.add_cycles in H;
  simp_in H.

Ltac split_matches H :=
  repeat match type of H with
  | context [Memory.read ?m ?w ?a] =>
      destruct (Memory.read m w a) eqn:?; [|discriminate H]; simp_in H
  | context [Memory.write ?m ?w ?a ?v] =>
      destruct (Memory.write m w a v) as [[? ?]|] eqn:?; [|discriminate H];
      simp_in H
  | context [if ?b then _ else _] =>
      lazymatch type of b with bool => destruct b eqn:?; simp_in H end
  end.

Ltac simp_goal :=
  cbn -[Z.add Z.sub Z.mul Z.opp Z.land Z.lor Z.lxor Z.lnot Z.shiftl Z.shiftr
        Z.eqb Z.ltb Z.leb Z.testbit Z.b2z byte bit dict_get
        Memory.read Memory.write
        CPU6502.get_status CPU6502._add_with_carry
        CPU6502._subtract_with_carry].

(** Rewrite the fields the ADC/SBC helpers leave alone. *)
Ltac use_frames :=
  simp_goal;
  repeat match goal with
  | |- context [CPU6502._add_with_carry ?c ?v] =>
      lazymatch goal with
      | _ : same_frame c (CPU6502._add_with_carry c v) |- _ => fail
      | _ => pose proof (add_with_carry_frame c v)
      end
  | |- context [CPU6502._subtract_with_carry ?c ?v] =>
      lazymatch goal with
      | _ : same_frame c (CPU6502._subtract_with_carry c v) |- _ => fail
      | _ => pose proof (subtract_with_carry_frame c v)
      end
  end;
  repeat match goal with
  | H : same_frame _ _ |- _ =>
      let E1 := fresh in let E2 := fresh in let E3 := fresh in
      let E4 := fresh in let E5 := fresh in
      destruct H as (E1 & E2 & E3 & E4 & E5);
      rewrite ?E1, ?E2, ?E3, ?E4, ?E5; clear E1 E2 E3 E4 E5
  end.

Ltac clock_solver :=
  use_frames; simp_goal;
  repeat match goal with
         | |- context [Z.b2z ?b] => destruct b; cbn [Z.b2z]
         end;
  split_and!; first [lia | reflexivity].

(** From the invariant of the bus before an access to the byte read and
    to the invariant after a write. *)
Ltac chain_bus Hread Hwrite :=
  repeat match goal with
  | Hw : Memory.write ?m ?w _ _ = Some (?m', ?w'), Hi : ?Inv ?m ?w |- _ =>
      lazymatch goal with
      | _ : Inv m' w' |- _ => fail
      | _ => pose proof (Hwrite _ _ _ _ _ _ Hi Hw)
      end
  end;
  repeat match goal with
  | Hr : Memory.read ?m ?w _ = Some ?v, Hi : ?Inv ?m ?w |- _ =>
      lazymatch goal with
      | _ : byte v |- _ => fail
      | _ => pose proof (Hread _ _ _ _ Hi Hr)
      end
  end.

Ltac pc_solver :=
  repeat match goal with
  | |- context [Z.lor (Z.shiftl ?h 8) ?l] =>
      lazymatch goal with
      | _ : 0 <= Z.lor (Z.shiftl h 8) l <= 0xFFFF |- _ => fail
      | _ => pose proof (word_lor l h ltac:(assumption) ltac:(assumption))
      end
  | |- context [Z.lor ?l (Z.shiftl ?h 8)] =>
      lazymatch goal with
      | _ : 0 <= Z.lor l (Z.shiftl h 8) <= 0xFFFF |- _ => fail
      | _ => pose proof (word_lor' l h ltac:(assumption) ltac:(assumption))
      end
  | |- context [Z.land ?x 0xFFFF] =>
      lazymatch goal with
      | _ : 0 <= Z.land x 0xFFFF <= 0xFFFF |- _ => fail
      | _ => pose proof (mask16_range x)
      end
  end; lia.

Ltac range_solver :=
  first [ assumption | apply byte_mask | apply bit_land1 | apply bit_if
        | apply byte_land; assumption | apply byte_lor; assumption
        | apply byte_lxor; assumption | apply byte_shiftr1; assumption
        | apply byte_ror; assumption
        | left; reflexivity | right; reflexivity
        | pc_solver ].

Ltac regs_solver Hread Hwrite :=
  let HInv := fresh "HInv" in let Hregs := fresh "Hregs" in
  let HPC := fresh "HPC" in
  simp_goal; intros HInv Hregs HPC; chain_bus Hread Hwrite;
  repeat match goal with
  | |- context [CPU6502._add_with_carry ?c ?v] =>
      lazymatch goal with
      | _ : regs_ok (CPU6502._add_with_carry c v) |- _ => fail
      | _ => pose proof (add_with_carry_regs c v Hregs)
      end
  | |- context [CPU6502._subtract_with_carry ?c ?v] =>
      lazymatch goal with
      | _ : regs_ok (CPU6502._subtract_with_carry c v) |- _ => fail
      | _ => pose proof (subtract_with_carry_regs c v Hregs)
      end
  end;
  use_frames;
  unfold regs_ok in *; simp_goal;
  repeat match goal with H : _ ∧ _ |- _ => destruct H end;
  split_and!; range_solver.

Ltac instr_tac Hread Hwrite :=
  let s := fresh "s" in let s' := fresh "s'" in let H := fresh "H" in
  intros s s' H; destruct s as [c m w];
  unfold_instr H; split_matches H; injection H as <-;
  (split; [clock_solver | regs_solver Hread Hwrite]).

(** Symbolic execution in the goal, on a bus where every access
    returns. *)
Ltac unfold_goal :=
  unfold CPU6502._branch, CPU6502.indirect;
  unfold CPU6502.immediate, CPU6502.zeropage, CPU6502.zeropageX,
    CPU6502.zeropageY, CPU6502.absolute, CPU6502.absoluteX,
    CPU6502.absoluteY, CPU6502.indirectX, CPU6502.indirectY;
  unfold CPU6502.bind, CPU6502.ret, CPU6502.get, CPU6502.modify,
    CPU6502.mem_read, CPU6502.mem_write, CPU6502.incr_PC, CPU6502.decr_SP,
    CPU6502.incr_SP, CPU6502.add_cycles;
  simp_goal.

Ltac run_total :=
  repeat match goal with
  | Hwf : Memory.wf ?m |- context [Memory.read ?m ?w ?a] =>
      let v := fresh "v" in let E := fresh "E" in
      destruct (read_total m w a Hwf) as [v E]; rewrite E; clear E; simp_goal
  | Hwf : Memory.wf ?m |- context [Memory.write ?m ?w ?a ?v] =>
      let m' := fresh "m" in let w' := fresh "w" in
      let E := fresh "E" in let Hwf' := fresh "Hwf" in
      destruct (write_total m w a v Hwf) as (m' & w' & E & Hwf');
      rewrite E; clear E; simp_goal
  | |- context [if ?b then _ else _] =>
      lazymatch type of b with bool => destruct b; simp_goal end
  end.

Ltac total_tac :=
  let s := fresh "s" in let Hwf := fresh "Hwf" in
  intros s Hwf; destruct s as [c m w]; cbn [CPU6502.memory] in Hwf;
  unfold_goal; run_total;
  eexists; (split; [reflexivity | assumption]).

Section EveryInstruction.
Context {W : Type} (Inv : Memory.t W -> W -> Prop).
Hypothesis Hread :
  ∀ m w a v, Inv m w -> Memory.read m w a = Some v -> byte v.
Hypothesis Hwrite :
  ∀ m w a v m' w', Inv m w -> Memory.write m w a v = Some (m', w') -> Inv m' w'.

(** Each of the 151 entries of the opcode table adds between 2 and 7
    cycles, leaves the running total and the interrupt lines alone, and
    keeps the registers in range on a bus whose reads are bytes. *)
Lemma instructions_ok :
  Forall (λ e, instr_ok Inv e.2) CPU6502.instructions.
Proof.
  unfold CPU6502.instructions.
  repeat (apply Forall_cons; split;
          [ cbn [snd];
            lazymatch goal with |- instr_ok _ (?f _) => unfold f end;
            instr_tac Hread Hwrite
          | ]).
  constructor.
Qed.

Lemma step_ok (s s' : CPU6502.machine W) (n : int) :
  CPU6502.step s = Some (n, s') ->
  (2 <= n <= 7
   ∧ CPU6502.cycles (CPU6502.cpu s') = n
   ∧ CPU6502.total_cycles (CPU6502.cpu s')
     = CPU6502.total_cycles (CPU6502.cpu s) + n
   ∧ CPU6502.nmi_pending (CPU6502.cpu s') = false
   ∧ CPU6502.irq_pending (CPU6502.cpu s')
     = if CPU6502.nmi_pending (CPU6502.cpu s)
       then CPU6502.irq_pending (CPU6502.cpu s)
       else CPU6502.irq_pending (CPU6502.cpu s)
            && negb (CPU6502.I (CPU6502.cpu s) =? 0))
  ∧ (Inv (CPU6502.memory s) (CPU6502.devices s) ->
     regs_ok (CPU6502.cpu s) ->
     0 <= CPU6502.PC (CPU6502.cpu s) <= 0xFFFF ->
     regs_ok (CPU6502.cpu s')
     ∧ 0 <= CPU6502.PC (CPU6502.cpu s') <= 0x10002
     ∧ Inv (CPU6502.memory s') (CPU6502.devices s')).
Proof.
  intros H. destruct s as [c m w].
  unfold CPU6502.step, CPU6502._handle_nmi, CPU6502._handle_irq in H.
  unfold_instr H. split_matches H.
  all: match type of H with
       | context [dict_get CPU6502.instructions ?op] =>
           destruct (dict_get CPU6502.instructions op) eqn:Hop
       end.
  all: try match type of Hop with
       | _ = Some ?i =>
           apply dict_get_elem in Hop;
           pose proof (proj1 (Forall_forall _ _) instructions_ok _ Hop) as Hi;
           cbn [snd] in Hi;
           match type of H with
           | context [i ?s1] =>
               destruct (i s1) as [[[] s2]|] eqn:Hrun; [|discriminate H];
               destruct (Hi _ _ Hrun) as [(Hcy & Htot & Hirq & Hnmi) Hreg];
               clear Hi Hrun; simp_in H; injection H as <- <-;
               revert Hcy Htot Hirq Hnmi Hreg; simp_goal;
               intros Hcy Htot Hirq Hnmi Hreg
           end
       end.
  all: try (simp_in H; injection H as <- <-).
  all: split;
       [ simp_goal;
         repeat match goal with
                | H : CPU6502.nmi_pending _ = _ |- _ => rewrite H
                | H : CPU6502.irq_pending _ = _ |- _ => rewrite H
                end;
         repeat match goal with
                | H : _ && _ = _ |- _ => revert H
                end;
         repeat match goal with
                | |- context [CPU6502.irq_pending ?x] =>
                    destruct (CPU6502.irq_pending x)
                | |- context [CPU6502.I ?x =? 0] =>
                    destruct (CPU6502.I x =? 0)
                end;
         simpl; intros; split_and!; first [lia | reflexivity | discriminate]
       |].
  all: simp_goal; intros HInv Hregs HPC; chain_bus Hread Hwrite.
  all: try (lazymatch type of Hreg with
            | ?P1 -> ?P2 -> ?P3 -> _ =>
                assert (Hp1 : P1) by assumption;
                assert (Hp2 : P2)
                  by (unfold regs_ok in *; simp_goal;
                      repeat match goal with
                             | H : _ ∧ _ |- _ => destruct H
                             end;
                      split_and!; range_solver);
                assert (Hp3 : P3) by pc_solver;
                destruct (Hreg Hp1 Hp2 Hp3) as (Hr & Hp & Hi');
                split; [exact Hr | split; [exact Hp | exact Hi']]
            end).
  all: unfold regs_ok in *; simp_goal;
       repeat match goal with H : _ ∧ _ |- _ => destruct H end;
       split_and!; range_solver.
Qed.

End EveryInstruction.

Section EveryStep.
Context {W : Type}.
Implicit Types (s : CPU6502.machine W).

Lemma instructions_total :
  Forall (λ e, instr_total (W:=W) e.2) CPU6502.instructions.
Proof.
  unfold CPU6502.instructions.
  repeat (apply Forall_cons; split;
          [ cbn [snd];
            lazymatch goal with |- instr_total (?f _) => unfold f end;
            total_tac
          | ]).
  constructor.
Qed.

(** X20. The clock of [step]: whatever it executes, an entry of the opcode
    table, an unknown opcode or an interrupt entry before either, the
    value returned lies in [2, 7], the per-instruction counter holds it
    afterwards, and the running total grows by exactly that much. *)
Theorem step_clock s s' (n : int) :
  CPU6502.step s = Some (n, s') ->
  2 <= n <= 7
  ∧ CPU6502.cycles (CPU6502.cpu s') = n
  ∧ CPU6502.total_cycles (CPU6502.cpu s')
    = CPU6502.total_cycles (CPU6502.cpu s) + n.
Proof.
  intros H.
  destruct (step_ok (λ _ _, False) ltac:(done) ltac:(done) s s' n H)
    as [(H1 & H2 & H3 & _) _].
  split; [exact H1 | split; [exact H2 | exact H3]].
Qed.

(** X21. The interrupt lines across [step]: no instruction touches them;
    [nmi_pending] is clear afterwards; [irq_pending] is cleared only when
    the IRQ is taken (no NMI pending and I = 0), so an IRQ masked by I or
    pre-empted by an NMI stays pending. *)
Theorem step_interrupt_lines s s' (n : int) :
  CPU6502.step s = Some (n, s') ->
  CPU6502.nmi_pending (CPU6502.cpu s') = false
  ∧ CPU6502.irq_pending (CPU6502.cpu s')
    = if CPU6502.nmi_pending (CPU6502.cpu s)
      then CPU6502.irq_pending (CPU6502.cpu s)
      else CPU6502.irq_pending (CPU6502.cpu s)
           && negb (CPU6502.I (CPU6502.cpu s) =? 0).
Proof.
  intros H.
  destruct (step_ok (λ _ _, False) ltac:(done) ltac:(done) s s' n H)
    as [(_ & _ & _ & H4 & H5) _].
  split; [exact H4 | exact H5].
Qed.

(** X22. The register ranges across [step], on a bus whose reads are
    bytes: from A, X, Y, SP in [0, 255], flags in {0, 1} and PC in
    [0, $FFFF], any step leaves A, X, Y, SP in [0, 255] and the flags in
    {0, 1}; PC stays in [0, $10002] (it is not masked after the fetch and
    operand increments); the bus still reads bytes. *)
Theorem step_keeps_registers_in_range s s' (n : int) :
  byte_bus (CPU6502.memory s) (CPU6502.devices s) ->
  regs_ok (CPU6502.cpu s) ->
  0 <= CPU6502.PC (CPU6502.cpu s) <= 0xFFFF ->
  CPU6502.step s = Some (n, s') ->
  regs_ok (CPU6502.cpu s')
  ∧ 0 <= CPU6502.PC (CPU6502.cpu s') <= 0x10002
  ∧ byte_bus (CPU6502.memory s') (CPU6502.devices s').
Proof.
  intros Hb Hr Hpc H.
  exact (proj2 (step_ok byte_bus byte_bus_read byte_bus_write s s' n H)
               Hb Hr Hpc).
Qed.

(** X23. [step] never raises on a bus with 64 KiB of RAM and overlays of
    the size they record (and callbacks that return): for every CPU state,
    pending interrupts and out-of-range registers included, it returns,
    and leaves such a bus. *)
Theorem step_never_raises s :
  Memory.wf (CPU6502.memory s) ->
  ∃ n s', CPU6502.step s = Some (n, s') ∧ Memory.wf (CPU6502.memory s').
Proof.
  intros Hwf. destruct s as [c m w]. cbn [CPU6502.memory] in Hwf.
  unfold CPU6502.step, CPU6502._handle_nmi, CPU6502._handle_irq.
  unfold_goal. run_total.
  all: match goal with
       | |- context [dict_get CPU6502.instructions ?op] =>
           destruct (dict_get CPU6502.instructions op) eqn:Hop
       end.
  all: simp_goal.
  all: try match type of Hop with
       | _ = Some ?i =>
           apply dict_get_elem in Hop;
           pose proof (proj1 (Forall_forall _ _) instructions_total _ Hop)
             as Hi;
           cbn [snd] in Hi;
           match goal with
           | |- context [i ?s1] =>
               let Hs := fresh "Hs" in
               assert (Hs : Memory.wf (CPU6502.memory s1))
                 by (cbn [CPU6502.memory]; assumption);
               destruct (Hi s1 Hs) as (s2 & E & Hwf');
               rewrite E; simp_goal
           end
       end.
  all: eexists _, _; (split; [reflexivity | assumption]).
Qed.

(** X24. An opcode that is not in the table is a two-cycle NOP: with no
    interrupt taken, [step] returns 2, moves PC past the opcode byte,
    counts 2 cycles and leaves every other register, the bus and the
    devices as they were. *)
Theorem illegal_opcode_is_two_cycle_nop s (opcode : int) :
  no_interrupt (CPU6502.cpu s) ->
  peek s (CPU6502.PC (CPU6502.cpu s)) = Some opcode ->
  dict_get (CPU6502.instructions (W:=W)) opcode = None ->
  CPU6502.step s
  = Some (2, CPU6502.mkMachine
               (CPU6502.set_total_cycles
                  (CPU6502.total_cycles (CPU6502.cpu s) + 2)
                  (CPU6502.set_cycles 2
                     (CPU6502.set_PC (CPU6502.PC (CPU6502.cpu s) + 1)
                        (CPU6502.cpu s))))
               (CPU6502.memory s) (CPU6502.devices s)).
Proof.
  destruct s as [c m w]. unfold no_interrupt, peek.
  cbn [CPU6502.cpu CPU6502.memory CPU6502.devices].
  intros [Hn Hi] Hop Hnone.
  unfold CPU6502.step. run. rewrite Hn, Hi. run. rewrite Hop. run.
  rewrite Hnone. run. reflexivity.
Qed.

End EveryStep.

(** The NOP in the last byte of the address space. *)
Lemma last_byte_step :
  CPU6502.step last_byte_scenario = Some (2, last_byte_after).
Proof.
  assert (Hr : Memory.read (bus_with [(0xFFFF, 0xEA)]) tt 0xFFFF = Some 0xEA)
    by (vm_compute; reflexivity).
  assert (Hd : dict_get (CPU6502.instructions (W:=unit)) 0xEA
               = Some CPU6502.NOP) by reflexivity.
  unfold last_byte_after, last_byte_scenario, machine_at.
  revert Hr. generalize (bus_with [(0xFFFF, 0xEA)]). intros m Hr.
  unfold CPU6502.step. run. rewrite Hr. run. rewrite Hd.
  unfold CPU6502.NOP. run. reflexivity.
Qed.

Lemma step_clock_witness :
  2 <= 2 <= 7
  ∧ CPU6502.cycles (CPU6502.cpu last_byte_after) = 2
  ∧ CPU6502.total_cycles (CPU6502.cpu last_byte_after)
    = CPU6502.total_cycles (CPU6502.cpu last_byte_scenario) + 2.
Proof.
  exact (step_clock last_byte_scenario last_byte_after 2 last_byte_step).
Defined.

Lemma step_interrupt_lines_witness :
  CPU6502.nmi_pending (CPU6502.cpu last_byte_after) = false.
Proof.
  exact (proj1 (step_interrupt_lines last_byte_scenario last_byte_after 2
                  last_byte_step)).
Defined.

(** PC leaves the 16-bit range, the registers stay in theirs. *)
Lemma step_keeps_registers_in_range_witness :
  regs_ok (CPU6502.cpu last_byte_after)
  ∧ 0 <= CPU6502.PC (CPU6502.cpu last_byte_after) <= 0x10002.
Proof.
  assert (Hb : byte_bus (CPU6502.memory last_byte_scenario)
                        (CPU6502.devices last_byte_scenario)).
  { apply byte_bus_bus_with. constructor; [|constructor].
    unfold byte. simpl. lia. }
  destruct (step_keeps_registers_in_range last_byte_scenario last_byte_after
              2 Hb regs_ok_init ltac:(simpl; lia) last_byte_step)
    as (H1 & H2 & _).
  split; [exact H1 | exact H2].
Defined.

(** A BRK with an NMI pending, on a zeroed bus. *)
Lemma step_never_raises_witness :
  ∃ n s', CPU6502.step
            (CPU6502.mkMachine (CPU6502.trigger_nmi CPU6502.init)
                               (bus_with []) tt)
          = Some (n, s').
Proof.
  destruct (step_never_raises
              (CPU6502.mkMachine (CPU6502.trigger_nmi CPU6502.init)
                                 (bus_with []) tt)
              (bus_with_wf _)) as (n & s' & H & _).
  exists n, s'. exact H.
Defined.

(** Opcode $02. *)
Lemma illegal_opcode_is_two_cycle_nop_witness :
  CPU6502.step illegal_scenario
  = Some (2, CPU6502.mkMachine
               (CPU6502.set_total_cycles
                  (CPU6502.total_cycles (CPU6502.cpu illegal_scenario) + 2)
                  (CPU6502.set_cycles 2
                     (CPU6502.set_PC
                        (CPU6502.PC (CPU6502.cpu illegal_scenario) + 1)
                        (CPU6502.cpu illegal_scenario))))
               (CPU6502.memory illegal_scenario)
               (CPU6502.devices illegal_scenario)).
Proof.
  assert (Hn : no_interrupt (CPU6502.cpu illegal_scenario))
    by (split; reflexivity).
  assert (Hop : peek illegal_scenario
                  (CPU6502.PC (CPU6502.cpu illegal_scenario)) = Some 0x02)
    by (vm_compute; reflexivity).
  assert (Hnone : dict_get (CPU6502.instructions (W:=unit)) 0x02 = None)
    by reflexivity.
  exact (illegal_opcode_is_two_cycle_nop illegal_scenario 0x02 Hn Hop Hnone).
Defined.

(** ** Status byte, stack, subroutines, interrupts and SBC *)

Lemma status_repack (c : CPU6502.t) (v : int) :
  byte v ->
  CPU6502.get_status (CPU6502.set_status c v) = Z.lor (Z.land v 0xCF) 0x20.
Proof.
  intros Hv. unfold CPU6502.get_status, CPU6502.set_status.
  cbn -[Z.land Z.lor Z.shiftl Z.shiftr].
  pose proof (byte_check1
    (λ v, Z.lor (Z.lor (Z.lor (Z.lor (Z.lor (Z.lor
            (Z.land v 1) (Z.shiftl (Z.land (Z.shiftr v 1) 1) 1))
            (Z.shiftl (Z.land (Z.shiftr v 2) 1) 2))
            (Z.shiftl (Z.land (Z.shiftr v 3) 1) 3))
            (Z.shiftl 1 5)) (Z.shiftl (Z.land (Z.shiftr v 6) 1) 6))
            (Z.shiftl (Z.land (Z.shiftr v 7) 1) 7)
          =? Z.lor (Z.land v 0xCF) 0x20)
    ltac:(vm_compute; reflexivity) v Hv) as H.
  by apply Z.eqb_eq in H.
Qed.

(** Unpacking a packed status with bit 4 forced to [b] restores the six
    flags and makes B equal to [b]. *)
Lemma status_unpack (c c' : CPU6502.t) (b : int) :
  flag_bits c -> bit b ->
  let status :=
    Z.lor (Z.land (CPU6502.get_status c) (Z.lnot 0x10)) (Z.shiftl b 4) in
  0 <= status <= 255
  ∧ same_flags c (CPU6502.set_status c' status)
  ∧ CPU6502.B (CPU6502.set_status c' status) = b.
Proof.
  intros (HC & HZ & HI & HD & HV & HN) Hb status. subst status.
  unfold same_flags, CPU6502.get_status, CPU6502.set_status.
  cbn -[Z.land Z.lor Z.shiftl Z.shiftr Z.lnot].
  destruct HC as [-> | ->], HZ as [-> | ->], HI as [-> | ->],
           HD as [-> | ->], HV as [-> | ->], HN as [-> | ->],
           Hb as [-> | ->]; vm_compute; repeat split; discriminate.
Qed.

Lemma status_break_set (c : CPU6502.t) :
  flag_bits c ->
  Z.lor (CPU6502.get_status c) 0x10
  = Z.lor (Z.land (CPU6502.get_status c) (Z.lnot 0x10)) (Z.shiftl 1 4).
Proof.
  intros (HC & HZ & HI & HD & HV & HN). unfold CPU6502.get_status.
  destruct HC as [-> | ->], HZ as [-> | ->], HI as [-> | ->],
           HD as [-> | ->], HV as [-> | ->], HN as [-> | ->]; reflexivity.
Qed.

Lemma status_break_clear (c : CPU6502.t) :
  Z.land (CPU6502.get_status c) (Z.lnot 0x10)
  = Z.lor (Z.land (CPU6502.get_status c) (Z.lnot 0x10)) (Z.shiftl 0 4).
Proof. now rewrite Z.shiftl_0_l, Z.lor_0_r. Qed.

Lemma status_byte_clear (c : CPU6502.t) :
  flag_bits c ->
  Z.land (Z.land (CPU6502.get_status c) (Z.lnot 0x10)) 0xFF
  = Z.land (CPU6502.get_status c) (Z.lnot 0x10).
Proof.
  intros (HC & HZ & HI & HD & HV & HN). unfold CPU6502.get_status.
  destruct HC as [-> | ->], HZ as [-> | ->], HI as [-> | ->],
           HD as [-> | ->], HV as [-> | ->], HN as [-> | ->]; reflexivity.
Qed.

Lemma flag_bits_init : flag_bits CPU6502.init.
Proof. repeat split; left; reflexivity. Qed.

(** X25. The status byte round trip.  For a byte [v],
    [get_status] after [set_status(v)] is [v] with bit 5 set and bit 4
    clear (B is kept in the CPU, not in the byte).  With flags in {0, 1},
    [set_status(get_status())] restores C, Z, I, D, V, N and clears B, and
    the packed byte has bit 5 set and lies in [$20, $EF]. *)
Theorem status_round_trip (c c' : CPU6502.t) (v : int) :
  (0 <= v <= 255 ->
   CPU6502.get_status (CPU6502.set_status c v) = Z.lor (Z.land v 0xCF) 0x20)
  ∧ (flag_bits c ->
     same_flags c (CPU6502.set_status c' (CPU6502.get_status c))
     ∧ CPU6502.B (CPU6502.set_status c' (CPU6502.get_status c)) = 0
     ∧ Z.testbit (CPU6502.get_status c) 5 = true
     ∧ 0x20 <= CPU6502.get_status c <= 0xEF).
Proof.
  split; [apply status_repack|]. intros Hf.
  assert (E : CPU6502.get_status c
              = Z.lor (Z.land (CPU6502.get_status c) (Z.lnot 0x10))
                      (Z.shiftl 0 4)).
  { destruct Hf as (HC & HZ & HI & HD & HV & HN). unfold CPU6502.get_status.
    destruct HC as [-> | ->], HZ as [-> | ->], HI as [-> | ->],
             HD as [-> | ->], HV as [-> | ->], HN as [-> | ->]; reflexivity. }
  destruct (status_unpack c c' 0 Hf ltac:(by left)) as (_ & Hs & HB).
  rewrite <- E in Hs, HB. split; [exact Hs|]. split; [exact HB|].
  destruct Hf as (HC & HZ & HI & HD & HV & HN). unfold CPU6502.get_status.
  destruct HC as [-> | ->], HZ as [-> | ->], HI as [-> | ->],
           HD as [-> | ->], HV as [-> | ->], HN as [-> | ->];
    vm_compute; repeat split; discriminate.
Qed.

Lemma sp_down (sp k : int) :
  Z.land ((sp - k) mod 256 - 1) 0xFF = (sp - (k + 1)) mod 256.
Proof. rewrite mask8_mod. Z.div_mod_to_equations. lia. Qed.

Lemma sp_up (sp k : int) :
  Z.land ((sp - (k + 1)) mod 256 + 1) 0xFF = (sp - k) mod 256.
Proof. rewrite mask8_mod. Z.div_mod_to_equations. lia. Qed.

Lemma sp_down0 (sp : int) : Z.land (sp - 1) 0xFF = (sp - 1) mod 256.
Proof. apply mask8_mod. Qed.

Lemma sp_up0 (sp : int) :
  0 <= sp <= 255 -> Z.land ((sp - 1) mod 256 + 1) 0xFF = sp.
Proof. intros H. rewrite mask8_mod. Z.div_mod_to_equations. lia. Qed.

Lemma negative_bit (a : int) :
  byte a -> (Z.land a 0x80 =? 0) = (a <? 128).
Proof.
  intros Ha.
  pose proof (byte_check1 (λ a, Bool.eqb (Z.land a 0x80 =? 0) (a <? 128))
                ltac:(vm_compute; reflexivity) a Ha) as H.
  by apply eqb_prop in H.
Qed.

Lemma complement_byte (m : int) : byte m -> Z.lxor m 0xFF = 255 - m.
Proof.
  intros Hm.
  pose proof (byte_check1 (λ m, Z.lxor m 0xFF =? 255 - m)
                ltac:(vm_compute; reflexivity) m Hm) as H.
  by apply Z.eqb_eq in H.
Qed.

(** The V formula of the binary branch, on the complemented operand, is
    signed overflow of the subtraction. *)
Lemma subtract_overflow (a m cy : int) :
  byte a -> byte m -> bit cy ->
  negb (Z.land (Z.land (Z.lnot (Z.lxor a (Z.lxor m 0xFF)))
                       (Z.lxor a (a + Z.lxor m 0xFF + cy))) 0x80 =? 0)
  = negb ((-128 <=? signed a - signed m - (1 - cy))
          && (signed a - signed m - (1 - cy) <=? 127)).
Proof.
  intros Ha Hm Hcy.
  pose proof (byte_check2
    (λ a m,
       forallb (λ cy,
         Bool.eqb
           (negb (Z.land (Z.land (Z.lnot (Z.lxor a (Z.lxor m 0xFF)))
                                 (Z.lxor a (a + Z.lxor m 0xFF + cy))) 0x80
                  =? 0))
           (negb ((-128 <=? signed a - signed m - (1 - cy))
                  && (signed a - signed m - (1 - cy) <=? 127))))
         [0; 1])
    ltac:(vm_compute; reflexivity) a m Ha Hm) as H.
  cbn [forallb] in H.
  apply andb_true_iff in H as [H0 H1]. apply andb_true_iff in H1 as [H1 _].
  destruct Hcy as [-> | ->]; by apply eqb_prop.
Qed.

(** An interrupt entry on a stack in RAM, up to the state it leaves. *)
Ltac interrupt_entry c Hwf Hram HSP HPC Hfl Hlo Hhi :=
  assert (B1 : 0 <= (CPU6502.SP c - 1) mod 256 <= 255)
    by (Z.div_mod_to_equations; lia);
  assert (B2 : 0 <= (CPU6502.SP c - 2) mod 256 <= 255)
    by (Z.div_mod_to_equations; lia);
  assert (N1 : (CPU6502.SP c - 1) mod 256 ≠ CPU6502.SP c)
    by (Z.div_mod_to_equations; lia);
  assert (N2 : (CPU6502.SP c - 2) mod 256 ≠ CPU6502.SP c)
    by (Z.div_mod_to_equations; lia);
  assert (N3 : (CPU6502.SP c - 2) mod 256 ≠ (CPU6502.SP c - 1) mod 256)
    by (Z.div_mod_to_equations; lia);
  run;
  rewrite write_plain_ram by (done || lia || (apply Hram; lia)); run;
  rewrite sp_down0;
  rewrite write_plain_ram
    by (auto using stored_wf || lia || (apply stored_plain_ram, Hram; lia));
  run;
  rewrite (sp_down (CPU6502.SP c) 1
           : Z.land ((CPU6502.SP c - 1) mod 256 - 1) 0xFF
             = (CPU6502.SP c - 2) mod 256);
  rewrite write_plain_ram
    by (auto using stored_wf || lia
        || (do 2 apply stored_plain_ram; apply Hram; lia));
  run;
  rewrite (sp_down (CPU6502.SP c) 2
           : Z.land ((CPU6502.SP c - 2) mod 256 - 1) 0xFF
             = (CPU6502.SP c - 3) mod 256);
  rewrite !read_stored_ne by lia; rewrite Hlo; run;
  rewrite !read_stored_ne by lia; rewrite Hhi; run;
  change (CPU6502.get_status (CPU6502.set_SP _ (CPU6502.set_SP _ c)))
    with (CPU6502.get_status c);
  rewrite (status_byte_clear c Hfl), !mask8_idem.

(** RTI on the stack an interrupt entry left. *)
Ltac return_from_interrupt c c' Hwf Hram HSP HPC Hfl HSP' :=
  unfold CPU6502.RTI; run; rewrite HSP';
  rewrite (sp_up (CPU6502.SP c) 2
           : Z.land ((CPU6502.SP c - 3) mod 256 + 1) 0xFF
             = (CPU6502.SP c - 2) mod 256);
  rewrite read_stored_eq
    by (auto using stored_wf || lia
        || (do 2 apply stored_plain_ram; apply Hram; lia));
  run;
  rewrite (sp_up (CPU6502.SP c) 1
           : Z.land ((CPU6502.SP c - 2) mod 256 + 1) 0xFF
             = (CPU6502.SP c - 1) mod 256);
  rewrite read_stored_ne by lia;
  rewrite read_stored_eq
    by (auto using stored_wf || lia || (apply stored_plain_ram, Hram; lia));
  run;
  rewrite sp_up0 by done;
  rewrite !read_stored_ne by lia;
  rewrite read_stored_eq by (done || lia || (apply Hram; lia));
  run;
  rewrite word_join by done;
  rewrite (status_break_clear c);
  let Hs := fresh "Hs" in let HB := fresh "HB" in
  destruct (status_unpack c
              (CPU6502.set_SP ((CPU6502.SP c - 2) mod 256) c') 0 Hfl
              ltac:(by left))
    as (_ & Hs & HB);
  revert Hs HB;
  generalize (Z.lor (Z.land (CPU6502.get_status c) (Z.lnot 0x10))
                    (Z.shiftl 0 4));
  intros status Hs HB;
  eexists; split; [reflexivity|];
  unfold same_flags in *;
  cbn -[Z.land Z.shiftr] in Hs, HB |- *;
  split; [reflexivity|]; split; [reflexivity|]; split; [exact Hs | exact HB].

Section StackAndCalls.
Context {W : Type}.
Implicit Types (s : CPU6502.machine W).

(** X26. PHA then PLA restores the accumulator.  On a stack in RAM, PHA
    stores A at [$0100 + SP] and moves SP down by one modulo 256; whatever
    the registers become in between, as long as SP is back there and the
    bus is the one PHA left, PLA returns A, restores SP and sets Z and N
    from A. *)
Theorem PHA_then_PLA_restores_accumulator s :
  let c := CPU6502.cpu s in
  Memory.wf (CPU6502.memory s) -> stack_in_ram (CPU6502.memory s) ->
  0 <= CPU6502.SP c <= 255 -> 0 <= CPU6502.A c <= 255 ->
  ∃ s1, CPU6502.PHA s = Some (tt, s1)
    ∧ CPU6502.SP (CPU6502.cpu s1) = (CPU6502.SP c - 1) mod 256
    ∧ ∀ c', CPU6502.SP c' = CPU6502.SP (CPU6502.cpu s1) ->
        ∃ s2, CPU6502.PLA
                (CPU6502.mkMachine c' (CPU6502.memory s1) (CPU6502.devices s1))
              = Some (tt, s2)
          ∧ CPU6502.A (CPU6502.cpu s2) = CPU6502.A c
          ∧ CPU6502.SP (CPU6502.cpu s2) = CPU6502.SP c
          ∧ CPU6502.Z (CPU6502.cpu s2) = (if CPU6502.A c =? 0 then 1 else 0)
          ∧ CPU6502.N (CPU6502.cpu s2)
            = (if CPU6502.A c <? 128 then 0 else 1)
          ∧ CPU6502.memory s2 = CPU6502.memory s1.
Proof.
  destruct s as [c m w]. cbn [CPU6502.cpu CPU6502.memory CPU6502.devices].
  intros Hwf Hram HSP HA.
  unfold CPU6502.PHA. run.
  rewrite write_plain_ram by (done || lia || (apply Hram; lia)). run.
  rewrite sp_down0.
  eexists. split; [reflexivity|]. run. split; [reflexivity|].
  intros c' HSP'. unfold CPU6502.PLA. run.
  rewrite HSP', sp_up0 by done.
  rewrite read_stored_eq by (done || lia || (apply Hram; lia)). run.
  eexists. split; [reflexivity|]. run.
  assert (EA : Z.land (CPU6502.A c) 0xFF = CPU6502.A c).
  { rewrite mask8_mod. apply Z.mod_small. lia. }
  rewrite !EA. rewrite (negative_bit (CPU6502.A c)) by done.
  split; [reflexivity|]. split; [reflexivity|]. split; [reflexivity|].
  split; [|reflexivity]. by destruct (CPU6502.A c <? 128).
Qed.

(** X27. PHP then PLP restores the flags, except B.  On a stack in RAM
    with flags in {0, 1}, PHP stores the status byte with bit 4 set; PLP on
    the bus PHP left restores C, Z, I, D, V, N and SP, leaves A alone, and
    sets B to 1 whatever it was. *)
Theorem PHP_then_PLP_restores_flags s :
  let c := CPU6502.cpu s in
  Memory.wf (CPU6502.memory s) -> stack_in_ram (CPU6502.memory s) ->
  0 <= CPU6502.SP c <= 255 -> flag_bits c ->
  ∃ s1, CPU6502.PHP s = Some (tt, s1)
    ∧ peek s1 (0x100 + CPU6502.SP c)
      = Some (Z.lor (CPU6502.get_status c) 0x10)
    ∧ ∀ c', CPU6502.SP c' = CPU6502.SP (CPU6502.cpu s1) ->
        ∃ s2, CPU6502.PLP
                (CPU6502.mkMachine c' (CPU6502.memory s1) (CPU6502.devices s1))
              = Some (tt, s2)
          ∧ same_flags c (CPU6502.cpu s2)
          ∧ CPU6502.B (CPU6502.cpu s2) = 1
          ∧ CPU6502.SP (CPU6502.cpu s2) = CPU6502.SP c
          ∧ CPU6502.A (CPU6502.cpu s2) = CPU6502.A c'.
Proof.
  destruct s as [c m w]. cbn [CPU6502.cpu CPU6502.memory CPU6502.devices].
  intros Hwf Hram HSP Hfl. unfold peek.
  unfold CPU6502.PHP. run.
  rewrite write_plain_ram by (done || lia || (apply Hram; lia)). run.
  rewrite sp_down0. rewrite (pushed_status_byte c Hfl).
  eexists. split; [reflexivity|]. run.
  split; [apply read_stored_eq; (done || lia || (apply Hram; lia))|].
  intros c' HSP'. unfold CPU6502.PLP. run.
  rewrite HSP', sp_up0 by done.
  rewrite read_stored_eq by (done || lia || (apply Hram; lia)). run.
  rewrite (status_break_set c Hfl).
  destruct (status_unpack c
              (CPU6502.set_SP (CPU6502.SP c) c') 1 Hfl ltac:(by right))
    as (_ & Hs & HB).
  revert Hs HB.
  generalize (Z.lor (Z.land (CPU6502.get_status c) (Z.lnot 0x10))
                    (Z.shiftl 1 4)).
  intros status Hs HB.
  eexists. split; [reflexivity|].
  unfold same_flags in *.
  cbn -[Z.land Z.shiftr] in Hs, HB |- *.
  split; [exact Hs|]. split; [exact HB|]. split; reflexivity.
Qed.

(** X28. JSR then RTS returns to the instruction after the call.  With PC
    past the JSR opcode and both operand bytes inside the address space,
    JSR jumps to the operand address and moves SP down by two; RTS on the
    bus JSR left, with SP back there, sets PC to the byte after the
    operand (PC + 2) and restores SP. *)
Theorem JSR_then_RTS_returns_after_call s (lo hi : int) :
  let c := CPU6502.cpu s in
  Memory.wf (CPU6502.memory s) -> stack_in_ram (CPU6502.memory s) ->
  0 <= CPU6502.SP c <= 255 ->
  0 <= CPU6502.PC c -> CPU6502.PC c + 1 <= 0xFFFF ->
  peek s (CPU6502.PC c) = Some lo -> peek s (CPU6502.PC c + 1) = Some hi ->
  ∃ s1, CPU6502.JSR_absolute s = Some (tt, s1)
    ∧ CPU6502.PC (CPU6502.cpu s1) = Z.lor (Z.shiftl hi 8) lo
    ∧ CPU6502.SP (CPU6502.cpu s1) = (CPU6502.SP c - 2) mod 256
    ∧ ∀ c', CPU6502.SP c' = CPU6502.SP (CPU6502.cpu s1) ->
        ∃ s2, CPU6502.RTS
                (CPU6502.mkMachine c' (CPU6502.memory s1) (CPU6502.devices s1))
              = Some (tt, s2)
          ∧ CPU6502.PC (CPU6502.cpu s2) = CPU6502.PC c + 2
          ∧ CPU6502.SP (CPU6502.cpu s2) = CPU6502.SP c.
Proof.
  destruct s as [c m w]. cbn [CPU6502.cpu CPU6502.memory CPU6502.devices].
  unfold peek. cbn [CPU6502.cpu CPU6502.memory CPU6502.devices].
  intros Hwf Hram HSP HPC0 HPC1 Hlo Hhi.
  assert (B1 : 0 <= (CPU6502.SP c - 1) mod 256 <= 255)
    by (Z.div_mod_to_equations; lia).
  assert (N1 : (CPU6502.SP c - 1) mod 256 ≠ CPU6502.SP c)
    by (Z.div_mod_to_equations; lia).
  unfold CPU6502.JSR_absolute, CPU6502.absolute. run.
  rewrite Hlo. run. rewrite Hhi. run.
  rewrite write_plain_ram by (done || lia || (apply Hram; lia)). run.
  rewrite sp_down0.
  rewrite write_plain_ram
    by (auto using stored_wf || lia || (apply stored_plain_ram, Hram; lia)).
  run. rewrite (sp_down (CPU6502.SP c) 1). change (1 + 1) with 2.
  eexists. split; [reflexivity|]. run.
  split; [reflexivity|]. split; [reflexivity|].
  intros c' HSP'. unfold CPU6502.RTS. run.
  rewrite HSP'.
  rewrite (sp_up (CPU6502.SP c) 1
           : Z.land ((CPU6502.SP c - 2) mod 256 + 1) 0xFF
             = (CPU6502.SP c - 1) mod 256).
  rewrite read_stored_eq
    by (auto using stored_wf || lia || (apply stored_plain_ram, Hram; lia)).
  run. rewrite sp_up0 by done.
  rewrite read_stored_ne by lia.
  rewrite read_stored_eq by (done || lia || (apply Hram; lia)). run.
  eexists. split; [reflexivity|]. run.
  split; [|reflexivity].
  replace (CPU6502.PC c + 1 + 1 - 1) with (CPU6502.PC c + 1) by lia.
  rewrite !mask8_idem. rewrite word_join by lia. lia.
Qed.

(** X29. An interrupt entry followed by RTI resumes the interrupted
    program.  On a stack in RAM, with PC in [0, $FFFF] and flags in
    {0, 1}, [_handle_irq] (vector $FFFE/$FFFF) and [_handle_nmi] (vector
    $FFFA/$FFFB) load PC from their vector, set I, clear their pending
    line and move SP down by three; RTI on the bus they left, with SP back
    there, restores PC, SP and C, Z, I, D, V, N exactly, and B reads 0. *)
Theorem interrupt_then_RTI_resumes s (lo hi : int) :
  let c := CPU6502.cpu s in
  Memory.wf (CPU6502.memory s) -> stack_in_ram (CPU6502.memory s) ->
  0 <= CPU6502.SP c <= 255 -> 0 <= CPU6502.PC c <= 0xFFFF -> flag_bits c ->
  (peek s 0xFFFE = Some lo -> peek s 0xFFFF = Some hi ->
   ∃ s1, CPU6502._handle_irq s = Some (tt, s1)
     ∧ CPU6502.PC (CPU6502.cpu s1) = Z.lor lo (Z.shiftl hi 8)
     ∧ CPU6502.I (CPU6502.cpu s1) = 1
     ∧ CPU6502.irq_pending (CPU6502.cpu s1) = false
     ∧ CPU6502.SP (CPU6502.cpu s1) = (CPU6502.SP c - 3) mod 256
     ∧ ∀ c', CPU6502.SP c' = CPU6502.SP (CPU6502.cpu s1) ->
         ∃ s2, CPU6502.RTI
                 (CPU6502.mkMachine c' (CPU6502.memory s1)
                    (CPU6502.devices s1))
               = Some (tt, s2)
           ∧ CPU6502.PC (CPU6502.cpu s2) = CPU6502.PC c
           ∧ CPU6502.SP (CPU6502.cpu s2) = CPU6502.SP c
           ∧ same_flags c (CPU6502.cpu s2)
           ∧ CPU6502.B (CPU6502.cpu s2) = 0)
  ∧ (peek s 0xFFFA = Some lo -> peek s 0xFFFB = Some hi ->
     ∃ s1, CPU6502._handle_nmi s = Some (tt, s1)
       ∧ CPU6502.PC (CPU6502.cpu s1) = Z.lor lo (Z.shiftl hi 8)
       ∧ CPU6502.I (CPU6502.cpu s1) = 1
       ∧ CPU6502.nmi_pending (CPU6502.cpu s1) = false
       ∧ CPU6502.SP (CPU6502.cpu s1) = (CPU6502.SP c - 3) mod 256
       ∧ ∀ c', CPU6502.SP c' = CPU6502.SP (CPU6502.cpu s1) ->
           ∃ s2, CPU6502.RTI
                   (CPU6502.mkMachine c' (CPU6502.memory s1)
                      (CPU6502.devices s1))
                 = Some (tt, s2)
             ∧ CPU6502.PC (CPU6502.cpu s2) = CPU6502.PC c
             ∧ CPU6502.SP (CPU6502.cpu s2) = CPU6502.SP c
             ∧ same_flags c (CPU6502.cpu s2)
             ∧ CPU6502.B (CPU6502.cpu s2) = 0).
Proof.
  destruct s as [c m w]. cbn [CPU6502.cpu CPU6502.memory CPU6502.devices].
  unfold peek. cbn [CPU6502.cpu CPU6502.memory CPU6502.devices].
  intros Hwf Hram HSP HPC Hfl. split; intros Hlo Hhi.
  - unfold CPU6502._handle_irq.
    interrupt_entry c Hwf Hram HSP HPC Hfl Hlo Hhi.
    eexists. split; [reflexivity|]. run.
    do 4 (split; [reflexivity|]).
    intros c' HSP'.
    return_from_interrupt c c' Hwf Hram HSP HPC Hfl HSP'.
  - unfold CPU6502._handle_nmi.
    interrupt_entry c Hwf Hram HSP HPC Hfl Hlo Hhi.
    eexists. split; [reflexivity|]. run.
    do 4 (split; [reflexivity|]).
    intros c' HSP'.
    return_from_interrupt c c' Hwf Hram HSP HPC Hfl HSP'.
Qed.

End StackAndCalls.

(** X30. Binary SBC.  With D = 0, a byte in A, a byte operand [m] and C in
    {0, 1}, [_subtract_with_carry] computes [d = A - m - (1 - C)]: A
    becomes [d mod 256], C is 1 exactly when there is no borrow
    ([d >= 0]), Z and N are set from the new A, and V is 1 exactly when
    the signed difference of A and [m] (less the borrow) leaves
    [-128, 127]. *)
Theorem SBC_binary (c : CPU6502.t) (m : int) :
  CPU6502.D c = 0 -> 0 <= CPU6502.A c <= 255 -> 0 <= m <= 255 ->
  CPU6502.C c = 0 ∨ CPU6502.C c = 1 ->
  let d := CPU6502.A c - m - (1 - CPU6502.C c) in
  let sd := signed (CPU6502.A c) - signed m - (1 - CPU6502.C c) in
  let c' := CPU6502._subtract_with_carry c m in
  CPU6502.A c' = d mod 256
  ∧ CPU6502.C c' = (if 0 <=? d then 1 else 0)
  ∧ CPU6502.Z c' = (if d mod 256 =? 0 then 1 else 0)
  ∧ CPU6502.N c' = (if d mod 256 <? 128 then 0 else 1)
  ∧ CPU6502.V c' = (if (-128 <=? sd) && (sd <=? 127) then 0 else 1).
Proof.
  intros HD HA Hm HC d sd c'. subst d sd c'.
  unfold CPU6502._subtract_with_carry, CPU6502._add_with_carry.
  rewrite HD. change (negb (0 =? 0)) with false.
  cbn -[Z.add Z.sub Z.land Z.lor Z.lxor Z.lnot Z.eqb Z.ltb Z.leb signed
        Z.modulo].
  pose proof (subtract_overflow (CPU6502.A c) m (CPU6502.C c) HA Hm HC) as HV.
  rewrite HV. clear HV.
  rewrite (complement_byte m Hm).
  assert (E : Z.land (CPU6502.A c + (255 - m) + CPU6502.C c) 0xFF
              = (CPU6502.A c - m - (1 - CPU6502.C c)) mod 256).
  { rewrite mask8_mod. Z.div_mod_to_equations. lia. }
  rewrite !E, mask8_mod, Z.mod_mod by lia.
  assert (Hb : byte ((CPU6502.A c - m - (1 - CPU6502.C c)) mod 256)).
  { unfold byte. Z.div_mod_to_equations. lia. }
  rewrite (negative_bit _ Hb).
  split; [reflexivity|]. split.
  { destruct (Z.ltb_spec 255 (CPU6502.A c + (255 - m) + CPU6502.C c));
      destruct (Z.leb_spec 0 (CPU6502.A c - m - (1 - CPU6502.C c)));
      (reflexivity || lia). }
  split; [reflexivity|]. split.
  { by destruct (_ <? 128). }
  by destruct (_ && _).
Qed.

(** All eight bits of $FF come back as $EF: bit 4 is not packed. *)
Lemma status_round_trip_witness :
  CPU6502.get_status (CPU6502.set_status CPU6502.init 0xFF)
  = Z.lor (Z.land 0xFF 0xCF) 0x20
  ∧ CPU6502.B (CPU6502.set_status CPU6502.init
                 (CPU6502.get_status CPU6502.init)) = 0.
Proof.
  split.
  - apply (proj1 (status_round_trip CPU6502.init CPU6502.init 0xFF)). lia.
  - apply (proj2 (status_round_trip CPU6502.init CPU6502.init 0xFF)
             flag_bits_init).
Defined.

(** A = $42 pushed, A overwritten with 0, then pulled. *)
Lemma PHA_then_PLA_restores_accumulator_witness :
  ∃ s1 s2,
    CPU6502.PHA (accumulator_scenario 0x42) = Some (tt, s1)
    ∧ CPU6502.PLA
        (CPU6502.mkMachine (CPU6502.set_A 0 (CPU6502.cpu s1))
           (CPU6502.memory s1) (CPU6502.devices s1))
      = Some (tt, s2)
    ∧ CPU6502.A (CPU6502.cpu s2)
      = CPU6502.A (CPU6502.cpu (accumulator_scenario 0x42)).
Proof.
  destruct (PHA_then_PLA_restores_accumulator (accumulator_scenario 0x42)
              (bus_with_wf _) (bus_with_stack_in_ram _)
              ltac:(simpl; lia) ltac:(simpl; lia))
    as (s1 & H1 & _ & Hpull).
  destruct (Hpull (CPU6502.set_A 0 (CPU6502.cpu s1)) eq_refl)
    as (s2 & H2 & H3 & _).
  exists s1, s2. split; [exact H1|]. split; [exact H2 | exact H3].
Defined.

(** The flags of a fresh CPU pushed and pulled: B comes back as 1. *)
Lemma PHP_then_PLP_restores_flags_witness :
  ∃ s1 s2,
    CPU6502.PHP (accumulator_scenario 0) = Some (tt, s1)
    ∧ CPU6502.PLP s1 = Some (tt, s2)
    ∧ CPU6502.B (CPU6502.cpu s2) = 1.
Proof.
  destruct (PHP_then_PLP_restores_flags (accumulator_scenario 0)
              (bus_with_wf _) (bus_with_stack_in_ram _)
              ltac:(simpl; lia) flag_bits_init)
    as (s1 & H1 & _ & Hpull).
  destruct (Hpull (CPU6502.cpu s1) eq_refl) as (s2 & H2 & _ & H3 & _).
  exists s1, s2. split; [exact H1|]. split; [|exact H3].
  destruct s1 as [c1 m1 w1]. exact H2.
Defined.

(** [JSR $0300] at $0200, then RTS: back at $0203. *)
Lemma JSR_then_RTS_returns_after_call_witness :
  ∃ s1 s2,
    CPU6502.JSR_absolute jsr_scenario = Some (tt, s1)
    ∧ CPU6502.PC (CPU6502.cpu s1) = Z.lor (Z.shiftl 0x03 8) 0x00
    ∧ CPU6502.RTS s1 = Some (tt, s2)
    ∧ CPU6502.PC (CPU6502.cpu s2)
      = CPU6502.PC (CPU6502.cpu jsr_scenario) + 2.
Proof.
  assert (Hlo : peek jsr_scenario (CPU6502.PC (CPU6502.cpu jsr_scenario))
                = Some 0x00) by (vm_compute; reflexivity).
  assert (Hhi : peek jsr_scenario
                  (CPU6502.PC (CPU6502.cpu jsr_scenario) + 1) = Some 0x03)
    by (vm_compute; reflexivity).
  destruct (JSR_then_RTS_returns_after_call jsr_scenario 0x00 0x03
              (bus_with_wf _) (bus_with_stack_in_ram _)
              ltac:(simpl; lia) ltac:(simpl; lia) ltac:(simpl; lia) Hlo Hhi)
    as (s1 & H1 & Hpc & _ & Hret).
  destruct (Hret (CPU6502.cpu s1) eq_refl) as (s2 & H2 & H3 & _).
  exists s1, s2. split; [exact H1|]. split; [exact Hpc|].
  split; [|exact H3]. destruct s1 as [c1 m1 w1]. exact H2.
Defined.

(** An IRQ taken at $0200 through the vector $0300, then RTI. *)
Lemma interrupt_then_RTI_resumes_witness :
  ∃ s1 s2,
    CPU6502._handle_irq irq_scenario = Some (tt, s1)
    ∧ CPU6502.PC (CPU6502.cpu s1) = Z.lor 0x00 (Z.shiftl 0x03 8)
    ∧ CPU6502.RTI s1 = Some (tt, s2)
    ∧ CPU6502.PC (CPU6502.cpu s2) = CPU6502.PC (CPU6502.cpu irq_scenario).
Proof.
  assert (Hlo : peek irq_scenario 0xFFFE = Some 0x00)
    by (vm_compute; reflexivity).
  assert (Hhi : peek irq_scenario 0xFFFF = Some 0x03)
    by (vm_compute; reflexivity).
  destruct (proj1 (interrupt_then_RTI_resumes irq_scenario 0x00 0x03
                     (bus_with_wf _) (bus_with_stack_in_ram _)
                     ltac:(simpl; lia) ltac:(simpl; lia) flag_bits_init)
              Hlo Hhi)
    as (s1 & H1 & Hpc & _ & _ & _ & Hret).
  destruct (Hret (CPU6502.cpu s1) eq_refl) as (s2 & H2 & H3 & _).
  exists s1, s2. split; [exact H1|]. split; [exact Hpc|].
  split; [|exact H3]. destruct s1 as [c1 m1 w1]. exact H2.
Defined.

(** $50 - $F0 with the carry set: $60, with a borrow. *)
Lemma SBC_binary_witness :
  let c := CPU6502.set_C 1 (CPU6502.set_A 0x50 CPU6502.init) in
  CPU6502.A (CPU6502._subtract_with_carry c 0xF0)
  = (CPU6502.A c - 0xF0 - (1 - CPU6502.C c)) mod 256
  ∧ CPU6502.C (CPU6502._subtract_with_carry c 0xF0)
    = (if 0 <=? CPU6502.A c - 0xF0 - (1 - CPU6502.C c) then 1 else 0).
Proof.
  intros c.
  destruct (SBC_binary c 0xF0 eq_refl ltac:(simpl; lia) ltac:(lia)
              ltac:(right; reflexivity)) as (HA & HC & _).
  split; [exact HA | exact HC].
Defined.
